(** * VerilogScraper: the asynchronous scrape-and-upload pipeline

    A shallow embedding of [src/scrapeAll.py] and the properties of its
    uploader, fetcher, tree walker, repository processor, search and
    driver.

    Conventions of the embedding.
    - A Python [str] is a Rocq [string] holding its UTF-8 bytes, so the
      strings of the embedding are the [str] values that can be
      encoded; on the others (a lone surrogate) [urllib.parse.quote]
      raises, and nothing here speaks of them.  The operations the code
      applies ([replace] of one ASCII character, [os.path.dirname],
      [endswith], [urllib.parse.quote]) act on the UTF-8 bytes exactly
      as they act on the code points; iterating a [str] goes character
      by character ([PyStr.chars]).
    - A parsed JSON body, and more generally a Python value that comes
      out of one, is a [json]; Python's [None] is [JNull].
    - A coroutine is a function from the state of the remote side to its
      outcome, the state it leaves and the trace of what it did: the
      requests with their replies, the sleeps and the log lines.  An
      [await] is a sequence point; the tasks given to [asyncio.gather]
      are run in the order they were created, each to its end, which is
      what [asyncio] does for no task and for one task.  The properties
      of the walker below are about listings of which at most one task
      is run, and those of the driver take what processing a repository
      does as given, without looking at the order inside.  The semaphore
      only bounds how many requests are in flight and does not appear.
    - A field handed to a parameter annotated [str] is taken as a
      string ([as_str]); the properties that go through such a call
      state that the field is one.
    - The recursion of the walker follows the tree the remote side
      serves, so the walker takes the depth it may reach as [fuel] and
      ends in [OutOfFuel] beyond it. *)

From Stdlib Require Import Ascii String ZArith QArith Lia.
From stdpp Require Import base strings list gmap pretty.

Local Open Scope string_scope.
Local Open Scope list_scope.
Local Open Scope Z_scope.
Local Set Warnings "-register-all".

(** ** Python string operations *)

Module PyStr.

Definition slash : ascii := "/"%char.
Definition underscore : ascii := "_"%char.

(** [s.replace(old, new)] for one-character [old] and [new]. *)
Fixpoint replace (old new : ascii) (s : string) : string :=
  match s with
  | EmptyString => EmptyString
  | String c r =>
      String (if Ascii.eqb c old then new else c) (replace old new r)
  end.

(** [c in s] for a character [c]. *)
Fixpoint contains (c : ascii) (s : string) : bool :=
  match s with
  | EmptyString => false
  | String d r => Ascii.eqb d c || contains c r
  end.

(** [p[:p.rfind(sep) + 1]]: the prefix up to and including the last
    separator, empty when there is none. *)
Fixpoint upto_last (sep : ascii) (p : string) : string :=
  match p with
  | EmptyString => EmptyString
  | String c r =>
      if contains sep p then String c (upto_last sep r) else EmptyString
  end.

(** [s == sep * len(s)]. *)
Fixpoint all_char (sep : ascii) (s : string) : bool :=
  match s with
  | EmptyString => true
  | String c r => Ascii.eqb c sep && all_char sep r
  end.

(** [s.rstrip(sep)]. *)
Fixpoint rstrip (sep : ascii) (s : string) : string :=
  match s with
  | EmptyString => EmptyString
  | String c r => if all_char sep s then EmptyString else String c (rstrip sep r)
  end.

(** [posixpath.dirname]. *)
Definition dirname (p : string) : string :=
  let head := upto_last slash p in
  if negb (String.eqb head EmptyString) && negb (all_char slash head)
  then rstrip slash head
  else head.

(** [s.endswith(suffix)]. *)
Definition endswith (s suffix : string) : bool :=
  let n := String.length s in
  let k := String.length suffix in
  (k <=? n)%nat && String.eqb (substring (n - k) k s) suffix.

(** [sub in s] for strings. *)
Fixpoint has_substring (sub s : string) : bool :=
  String.prefix sub s ||
  match s with
  | EmptyString => false
  | String _ r => has_substring sub r
  end.

(** A byte that continues a character encoded on several bytes. *)
Definition continuation (c : ascii) : bool :=
  let n := N_of_ascii c in
  ((128 <=? n) && (n <? 192))%N.

(** [list(s)]: the characters of [s], each as the string of the bytes
    that encode it. *)
Fixpoint chars (s : string) : list string :=
  match s with
  | EmptyString => []
  | String c r =>
      match chars r with
      | [] => [String c EmptyString]
      | x :: xs =>
          if match x with
             | String d _ => continuation d
             | EmptyString => false
             end
          then String c x :: xs
          else String c EmptyString :: x :: xs
      end
  end.

End PyStr.

(** ** urllib.parse.quote *)

Module Quote.

(** The characters [quote] never escapes: letters, digits and [_.-~]. *)
Definition always_safe (c : ascii) : bool :=
  let n := N_of_ascii c in
  ((65 <=? n) && (n <=? 90) || (97 <=? n) && (n <=? 122)
   || (48 <=? n) && (n <=? 57)
   || (n =? 95) || (n =? 46) || (n =? 45) || (n =? 126))%N.

(** [quote(s)] is [quote(s, safe='/')]. *)
Definition safe (c : ascii) : bool :=
  always_safe c || Ascii.eqb c PyStr.slash.

(** One upper-case hexadecimal digit, for a value below 16. *)
Definition hex_digit (n : N) : ascii :=
  if (n <? 10)%N then ascii_of_N (48 + n) else ascii_of_N (55 + n).

Definition quote_byte (c : ascii) : string :=
  if safe c then String c EmptyString
  else
    let n := N_of_ascii c in
    String "%"%char
      (String (hex_digit (n / 16)) (String (hex_digit (n mod 16)) EmptyString)).

Fixpoint quote (s : string) : string :=
  match s with
  | EmptyString => EmptyString
  | String c r => quote_byte c +:+ quote r
  end.

(** Reading one hexadecimal digit back; used only in proofs. *)
Definition unhex (c : ascii) : N :=
  let n := N_of_ascii c in
  if (n <? 58)%N then (n - 48)%N else (n - 55)%N.

End Quote.

(** ** The destination path of an upload (lines 69-76) *)

Definition repo_dir (repo_full_name : string) : string :=
  PyStr.replace PyStr.slash PyStr.underscore repo_full_name.

Definition target_path (repo_full_name file_path file_name : string) : string :=
  let relative_dir := PyStr.dirname file_path in
  if negb (String.eqb relative_dir EmptyString)
  then "verilog_data/" +:+ repo_dir repo_full_name +:+ "/" +:+ relative_dir
         +:+ "/" +:+ file_name
  else "verilog_data/" +:+ repo_dir repo_full_name +:+ "/" +:+ file_name.

Definition target_path_encoded (repo_full_name file_path file_name : string) : string :=
  Quote.quote (target_path repo_full_name file_path file_name).

(** ** Python values *)

(** A value produced by [json.loads]: [None], a [bool], an [int], a
    [float] (finite, as the rational it denotes), a [str], a [list] or a
    [dict].  A [dict] is the list of its items, keys pairwise distinct. *)
Inductive json : Type :=
  | JNull
  | JBool (b : bool)
  | JInt (n : Z)
  | JFloat (q : Q)
  | JStr (s : string)
  | JArr (items : list json)
  | JObj (fields : list (string * json)).

(** The exceptions the pipeline can meet; all derive from [Exception]. *)
Inductive exn : Type :=
  | ClientError (detail : string)
  | KeyError (key : string)
  | TypeError
  | AttributeError.

Module Py.

(** [bool(v)]. *)
Definition truthy (v : json) : bool :=
  match v with
  | JNull => false
  | JBool b => b
  | JInt n => negb (n =? 0)
  | JFloat q => negb (Qeq_bool q 0)
  | JStr s => negb (String.eqb s EmptyString)
  | JArr items => match items with [] => false | _ :: _ => true end
  | JObj fields => match fields with [] => false | _ :: _ => true end
  end.

Fixpoint assoc (key : string) (fields : list (string * json)) : option json :=
  match fields with
  | [] => None
  | (k, v) :: rest => if String.eqb k key then Some v else assoc key rest
  end.

Definition is_str (s : string) (v : json) : bool :=
  match v with
  | JStr t => String.eqb t s
  | _ => false
  end.

(** [key in v] for a string [key]. *)
Definition contains (key : string) (v : json) : exn + bool :=
  match v with
  | JObj fields => inr (bool_decide (is_Some (assoc key fields)))
  | JArr items => inr (existsb (is_str key) items)
  | JStr s => inr (PyStr.has_substring key s)
  | _ => inl TypeError
  end.

(** [v[key]] for a string [key]. *)
Definition getitem (v : json) (key : string) : exn + json :=
  match v with
  | JObj fields =>
      match assoc key fields with
      | Some x => inr x
      | None => inl (KeyError key)
      end
  | _ => inl TypeError
  end.

(** [v.get(key, default)]. *)
Definition get (v : json) (key : string) (fallback : json) : exn + json :=
  match v with
  | JObj fields => inr (default fallback (assoc key fields))
  | _ => inl AttributeError
  end.

End Py.

(** ** base64.b64encode *)

Module Base64.

Definition alphabet (n : N) : ascii :=
  (if n <? 26 then ascii_of_N (65 + n)
   else if n <? 52 then ascii_of_N (97 + (n - 26))
   else if n <? 62 then ascii_of_N (48 + (n - 52))
   else if n =? 62 then "+"%char else "/"%char)%N.

Fixpoint b64encode (content : list Byte.byte) : string :=
  match content with
  | [] => EmptyString
  | [a] =>
      let x := Byte.to_N a in
      String (alphabet (x / 4))
        (String (alphabet ((x mod 4) * 16)) "==")%N
  | [a; b] =>
      let x := Byte.to_N a in
      let y := Byte.to_N b in
      String (alphabet (x / 4))
        (String (alphabet ((x mod 4) * 16 + y / 16))
           (String (alphabet ((y mod 16) * 4)) "="))%N
  | a :: b :: c :: rest =>
      let x := Byte.to_N a in
      let y := Byte.to_N b in
      let z := Byte.to_N c in
      String (alphabet (x / 4))
        (String (alphabet ((x mod 4) * 16 + y / 16))
           (String (alphabet ((y mod 16) * 4 + z / 64))
              (String (alphabet (z mod 64)) (b64encode rest))))%N
  end.

End Base64.

(** ** The HTTP session and the effects of a coroutine *)

(** What an [aiohttp] response gives: its status and what awaiting
    [read()], [text()] and [json()] yields, each of which may raise. *)
Record response : Type := {
  resp_status : Z;
  resp_read : exn + list Byte.byte;
  resp_text : exn + string;
  resp_json : exn + json
}.

(** A request either raises or is answered. *)
Definition reply : Type := exn + response.

(** [aiohttp.ClientSession] over a world [W]: the remote state a request
    observes and changes. *)
Class ClientSession (W : Type) : Type := {
  session_get : string -> W -> reply * W;
  session_put : string -> gmap string json -> W -> reply * W
}.

(** The logger method that is called. *)
Inductive log_call : Type := Info | Warning | Error | Exception.

(** The log lines of the pipeline, with the values they interpolate. *)
Inductive message : Type :=
  | FailedToFetch (url : string) (status : Z)
  | ExceptionWhileFetching (url : string) (e : exn)
  | FailedToDownload (download_url : string) (status : Z)
  | ExceptionDownloading (download_url : string) (e : exn)
  | ExceptionCheckingExists (target : string) (e : exn)
  | UpdatingFile (target : string)
  | UploadingFile (target : string)
  | Uploaded (target : string)
  | ConflictWhenUploading (target : string) (attempt max_retries : Z) (text : string)
  | ExceptionGettingLatestSha (e : exn)
  | FailedToUpload (target : string) (status : Z) (text : string)
  | ExceptionWhileUploading (target : string) (e : exn)
  | FailedDefaultBranch (repo_full_name : string)
  | ProcessingRepo (repo_full_name : string) (default_branch : json).

(** What a coroutine does that the outside can see, in order. *)
Inductive event : Type :=
  | EvGet (url : string) (r : reply)
  | EvPut (url : string) (payload : gmap string json) (r : reply)
  | EvSleep (seconds : Q)
  | EvLog (call : log_call) (msg : message).

(** How a coroutine ends: it returns, an exception leaves it, or the
    model's recursion budget ran out before it ended. *)
Inductive outcome (A : Type) : Type :=
  | Returned (a : A)
  | Raised (e : exn)
  | OutOfFuel.
Arguments Returned {A} a.
Arguments Raised {A} e.
Arguments OutOfFuel {A}.

(** A coroutine: from a world to its outcome, the world it leaves and
    the events it produced. *)
Definition coro (W A : Type) : Type := W -> outcome A * W * list event.

Module Coro.
Section Ops.
Context {W : Type}.

Definition ret {A} (a : A) : coro W A := fun w => (Returned a, w, []).

Definition raise {A} (e : exn) : coro W A := fun w => (Raised e, w, []).

Definition out_of_fuel {A} : coro W A := fun w => (OutOfFuel, w, []).

Definition bind {A B} (m : coro W A) (k : A -> coro W B) : coro W B :=
  fun w =>
    match m w with
    | (Returned a, w1, t1) =>
        match k a w1 with
        | (o, w2, t2) => (o, w2, t1 ++ t2)
        end
    | (Raised e, w1, t1) => (Raised e, w1, t1)
    | (OutOfFuel, w1, t1) => (OutOfFuel, w1, t1)
    end.

(** [try: m except Exception as e: handler e]. *)
Definition try_except {A} (m : coro W A) (handler : exn -> coro W A) : coro W A :=
  fun w =>
    match m w with
    | (Raised e, w1, t1) =>
        match handler e w1 with
        | (o, w2, t2) => (o, w2, t1 ++ t2)
        end
    | r => r
    end.

(** Awaiting something that returns or raises at once. *)
Definition lift {A} (x : exn + A) : coro W A :=
  match x with
  | inl e => raise e
  | inr a => ret a
  end.

Definition emit (ev : event) : coro W unit := fun w => (Returned tt, w, [ev]).

Definition log (call : log_call) (msg : message) : coro W unit :=
  emit (EvLog call msg).

(** [await asyncio.sleep(seconds)]. *)
Definition sleep (seconds : Q) : coro W unit := emit (EvSleep seconds).

Context `{!ClientSession W}.

(** [async with session.get(url, headers=HEADERS) as response]. *)
Definition http_get (url : string) : coro W response :=
  fun w =>
    match session_get url w with
    | (inr resp, w1) => (Returned resp, w1, [EvGet url (inr resp)])
    | (inl e, w1) => (Raised e, w1, [EvGet url (inl e)])
    end.

(** [async with session.put(url, json=payload, headers=HEADERS) as response]. *)
Definition http_put (url : string) (payload : gmap string json) : coro W response :=
  fun w =>
    match session_put url payload w with
    | (inr resp, w1) => (Returned resp, w1, [EvPut url payload (inr resp)])
    | (inl e, w1) => (Raised e, w1, [EvPut url payload (inl e)])
    end.
End Ops.
End Coro.

Declare Scope coro_scope.
Delimit Scope coro_scope with coro.
Notation "x <- m ;; k" := (Coro.bind m (fun x => k))
  (at level 100, m at next level, right associativity) : coro_scope.
Notation "m ;;; k" := (Coro.bind m (fun _ => k))
  (at level 100, right associativity) : coro_scope.

(** ** Configuration (lines 18-29) *)

Definition GITHUB_API_URL : string := "https://api.github.com".
Definition TARGET_OWNER : string := "pavan3105".
Definition TARGET_REPO : string := "VerilogCode".
Definition TARGET_BRANCH : string := "data_collection".

(** [range(lo, hi)]. *)
Definition range (lo hi : Z) : list Z := seqZ lo (hi - lo).

(** How one pass through the body of the retry loop ends: the function
    returns, or the loop goes on to its next attempt with the payload and
    delay it now has. *)
Inductive loop_exit : Type :=
  | LoopReturn
  | LoopNext (payload : gmap string json) (retry_delay : Z).

(** A parameter annotated [str] receives a field of a listing; the model
    stops with [TypeError] where the field is not a string. *)
Definition as_str (v : json) : exn + string :=
  match v with
  | JStr s => inr s
  | _ => inl TypeError
  end.

(** [v.endswith(suffix)] on a value. *)
Definition value_endswith (v : json) (suffix : string) : exn + bool :=
  match v with
  | JStr s => inr (PyStr.endswith s suffix)
  | _ => inl AttributeError
  end.

(** Binding in [exn + A], for code between two awaits. *)
Definition and_then {A B} (x : exn + A) (k : A -> exn + B) : exn + B :=
  match x with
  | inl e => inl e
  | inr a => k a
  end.

Section Pipeline.
Context {W : Type} `{!ClientSession W}.
Import Coro.
Local Open Scope coro_scope.

(** [fetch_json] (lines 39-51). *)
Definition fetch_json (url : string) : coro W json :=
  try_except
    (response <- http_get url ;;
     if resp_status response =? 200
     then lift (resp_json response)
     else (log Error (FailedToFetch url (resp_status response)) ;;;
           ret JNull))
    (fun e =>
       log Exception (ExceptionWhileFetching url e) ;;;
       ret JNull).

(** The download at the head of the uploader (lines 55-64); [None] is
    the early [return]. *)
Definition download (download_url : string) : coro W (option (list Byte.byte)) :=
  try_except
    (response <- http_get download_url ;;
     if negb (resp_status response =? 200)
     then (log Error (FailedToDownload download_url (resp_status response)) ;;;
           ret None)
     else (content <- lift (resp_read response) ;;
           ret (Some content)))
    (fun e =>
       log Exception (ExceptionDownloading download_url e) ;;;
       ret None).

(** The URL the destination is looked up at (line 79). *)
Definition destination_get_url (target_path_encoded : string) : string :=
  GITHUB_API_URL +:+ "/repos/" +:+ TARGET_OWNER +:+ "/" +:+ TARGET_REPO
    +:+ "/contents/" +:+ target_path_encoded +:+ "?ref=" +:+ TARGET_BRANCH.

(** The URL the file is written to (line 110). *)
Definition destination_upload_url (target_path_encoded : string) : string :=
  GITHUB_API_URL +:+ "/repos/" +:+ TARGET_OWNER +:+ "/" +:+ TARGET_REPO
    +:+ "/contents/" +:+ target_path_encoded.

(** The existence check (lines 82-89): the parsed body on a 200, [None]
    otherwise, also when the request or the parse raises. *)
Definition check_existing (target get_url : string) : coro W json :=
  try_except
    (get_response <- http_get get_url ;;
     if resp_status get_response =? 200
     then lift (resp_json get_response)
     else ret JNull)
    (fun e =>
       log Exception (ExceptionCheckingExists target e) ;;;
       ret JNull).

(** [if file and "sha" in file: payload["sha"] = file["sha"]]
    (lines 98-99 and 124-125). *)
Definition copy_sha (file : json) (payload : gmap string json) : exn + gmap string json :=
  and_then (if Py.truthy file then Py.contains "sha" file else inr false)
    (fun present =>
       if present : bool
       then and_then (Py.getitem file "sha")
              (fun sha => inr (<["sha" := sha]> payload))
       else inr payload).

(** The payload as first built (lines 92-96). *)
Definition initial_payload (target encoded_content : string) : gmap string json :=
  <["branch" := JStr TARGET_BRANCH]>
    (<["content" := JStr encoded_content]>
       (<["message" := JStr ("Add/update " +:+ target)]> ∅)).

(** Getting the latest version token after a conflict (lines 120-127). *)
Definition refresh_sha (get_url : string) (payload : gmap string json)
  : coro W (gmap string json) :=
  try_except
    (get_response <- http_get get_url ;;
     if resp_status get_response =? 200
     then (latest_file <- lift (resp_json get_response) ;;
           lift (copy_sha latest_file payload))
     else ret payload)
    (fun e =>
       log Exception (ExceptionGettingLatestSha e) ;;;
       ret payload).

(** The body of the retry loop (lines 108-141). *)
Definition upload_attempt (target upload_url get_url : string) (max_retries attempt : Z)
    (payload : gmap string json) (retry_delay : Z) : coro W loop_exit :=
  try_except
    (put_response <- http_put upload_url payload ;;
     let status := resp_status put_response in
     if (status =? 200) || (status =? 201)
     then (log Info (Uploaded target) ;;;
           ret LoopReturn)
     else if status =? 409
     then (text <- lift (resp_text put_response) ;;
           log Warning (ConflictWhenUploading target attempt max_retries text) ;;;
           if attempt <? max_retries
           then (payload' <- refresh_sha get_url payload ;;
                 sleep (inject_Z retry_delay) ;;;
                 ret (LoopNext payload' (retry_delay * 2)))
           else ret (LoopNext payload retry_delay))
     else (text <- lift (resp_text put_response) ;;
           log Error (FailedToUpload target status text) ;;;
           ret LoopReturn))
    (fun e =>
       log Exception (ExceptionWhileUploading target e) ;;;
       if attempt <? max_retries
       then (sleep (inject_Z retry_delay) ;;;
             ret (LoopNext payload (retry_delay * 2)))
       else ret LoopReturn).

(** [for attempt in attempts: ...] (line 107). *)
Fixpoint upload_loop (target upload_url get_url : string) (max_retries : Z)
    (attempts : list Z) (payload : gmap string json) (retry_delay : Z) : coro W unit :=
  match attempts with
  | [] => ret tt
  | attempt :: rest =>
      exit <- upload_attempt target upload_url get_url max_retries attempt
                payload retry_delay ;;
      match exit with
      | LoopReturn => ret tt
      | LoopNext payload' retry_delay' =>
          upload_loop target upload_url get_url max_retries rest payload' retry_delay'
      end
  end.

(** The uploader once the content is there (lines 66-141). *)
Definition upload_content (content : list Byte.byte)
    (repo_full_name file_path file_name : string) : coro W unit :=
  let encoded_content := Base64.b64encode content in
  let target := target_path repo_full_name file_path file_name in
  let target_encoded := Quote.quote target in
  let get_url := destination_get_url target_encoded in
  existing_file <- check_existing target get_url ;;
  payload <- lift (copy_sha existing_file (initial_payload target encoded_content)) ;;
  log Info (if Py.truthy existing_file
            then UpdatingFile target else UploadingFile target) ;;;
  let max_retries := 3 in
  let retry_delay := 1 in
  upload_loop target (destination_upload_url target_encoded) get_url max_retries
    (range 1 (max_retries + 1)) payload retry_delay.

(** [upload_verilog_file_to_target] (lines 53-141). *)
Definition upload_verilog_file_to_target
    (download_url repo_full_name file_path file_name : string) : coro W unit :=
  downloaded <- download download_url ;;
  match downloaded with
  | None => ret tt
  | Some content => upload_content content repo_full_name file_path file_name
  end.

(** [for x in data] on a value: the elements of a [list], the keys of
    a [dict], the characters of a [str]. *)
Definition iterate (data : json) : exn + list json :=
  match data with
  | JArr items => inr items
  | JObj fields => inr (map (fun kv => JStr (fst kv)) fields)
  | JStr s => inr (map JStr (PyStr.chars s))
  | _ => inl TypeError
  end.

(** The task one entry of a listing gives rise to, if any
    (lines 158-161). *)
Definition task_of_item (walk : string -> coro W unit) (repo_full_name : string)
    (item : json) : exn + option (coro W unit) :=
  and_then (Py.getitem item "type") (fun type =>
  if Py.is_str "dir" type
  then
    and_then (Py.getitem item "path") (fun path =>
    and_then (as_str path) (fun path =>
    inr (Some (walk path))))
  else
    and_then (Py.getitem item "type") (fun type =>
    and_then (if Py.is_str "file" type
              then and_then (Py.getitem item "name")
                     (fun name => value_endswith name ".v")
              else inr false) (fun verilog =>
    if verilog : bool
    then
      and_then (Py.getitem item "download_url") (fun download_url =>
      and_then (Py.getitem item "path") (fun path =>
      and_then (Py.getitem item "name") (fun name =>
      and_then (as_str download_url) (fun download_url =>
      and_then (as_str path) (fun path =>
      and_then (as_str name) (fun name =>
      inr (Some (upload_verilog_file_to_target download_url repo_full_name
                   path name))))))))
    else inr None))).

(** The loop that fills [tasks] (lines 156-161). *)
Fixpoint collect_tasks (walk : string -> coro W unit) (repo_full_name : string)
    (items : list json) : exn + list (coro W unit) :=
  match items with
  | [] => inr []
  | item :: rest =>
      and_then (task_of_item walk repo_full_name item) (fun task =>
      and_then (collect_tasks walk repo_full_name rest) (fun tasks =>
      inr (match task with
           | Some t => t :: tasks
           | None => tasks
           end)))
  end.

(** [await asyncio.gather] of the tasks, taken in order. *)
Fixpoint gather (tasks : list (coro W unit)) : coro W unit :=
  match tasks with
  | [] => ret tt
  | t :: rest => t ;;; gather rest
  end.

(** The URL of a listing (lines 148-150). *)
Definition contents_url (repo_full_name branch path : string) : string :=
  let encoded_path :=
    if negb (String.eqb path EmptyString) then Quote.quote path else EmptyString in
  if negb (String.eqb path EmptyString)
  then GITHUB_API_URL +:+ "/repos/" +:+ repo_full_name +:+ "/contents/"
         +:+ encoded_path +:+ "?ref=" +:+ branch
  else GITHUB_API_URL +:+ "/repos/" +:+ repo_full_name +:+ "/contents?ref=" +:+ branch.

(** What the walker does with the listing it fetched (lines 152-164). *)
Definition walk_listing (walk : string -> coro W unit) (repo_full_name : string)
    (data : json) : coro W unit :=
  match data with
  | JNull => ret tt
  | _ =>
      let data := match data with JObj _ => JArr [data] | _ => data end in
      items <- lift (iterate data) ;;
      tasks <- lift (collect_tasks walk repo_full_name items) ;;
      match tasks with
      | [] => ret tt
      | _ :: _ => gather tasks
      end ;;;
      sleep (1 # 2)
  end.

(** [get_verilog_files_from_repo] (lines 144-164); [fuel] bounds the
    depth of the recursion. *)
Fixpoint get_verilog_files_from_repo (fuel : nat)
    (repo_full_name branch path : string) : coro W unit :=
  match fuel with
  | O => out_of_fuel
  | S fuel' =>
      data <- fetch_json (contents_url repo_full_name branch path) ;;
      walk_listing (get_verilog_files_from_repo fuel' repo_full_name branch)
        repo_full_name data
  end.

(** [get_repo_default_branch] (lines 166-173). *)
Definition get_repo_default_branch (repo_full_name : string) : coro W json :=
  let url := GITHUB_API_URL +:+ "/repos/" +:+ repo_full_name in
  data <- fetch_json url ;;
  if Py.truthy data
  then lift (Py.get data "default_branch" (JStr "master"))
  else (log Error (FailedDefaultBranch repo_full_name) ;;;
        ret (JStr "master")).

(** [process_repo] (lines 175-179). *)
Definition process_repo (fuel : nat) (repo_full_name : string) : coro W unit :=
  default_branch <- get_repo_default_branch repo_full_name ;;
  log Info (ProcessingRepo repo_full_name default_branch) ;;;
  branch <- lift (as_str default_branch) ;;
  get_verilog_files_from_repo fuel repo_full_name branch EmptyString.

End Pipeline.

(** ** A scripted session, to run the pipeline on concrete replies *)

(** The replies the remote side will give to the GET and to the PUT
    requests, in the order the requests arrive. *)
Record script : Type := {
  get_replies : list reply;
  put_replies : list reply
}.

Definition refused : reply := inl (ClientError "connection refused").

#[export] Instance scripted_session : ClientSession script := {
  session_get _ w :=
    match get_replies w with
    | [] => (refused, w)
    | r :: rest => (r, {| get_replies := rest; put_replies := put_replies w |})
    end;
  session_put _ _ w :=
    match put_replies w with
    | [] => (refused, w)
    | r :: rest => (r, {| get_replies := get_replies w; put_replies := rest |})
    end
}.

(** A reply with a status and a body that reads as [text] and parses as
    [body]. *)
Definition answer (status : Z) (text : string) (body : json) : reply :=
  inr {| resp_status := status;
         resp_read := inr [];
         resp_text := inr text;
         resp_json := inr body |}.

(** A reply that carries the bytes of a file. *)
Definition file_answer (content : list Byte.byte) : reply :=
  inr {| resp_status := 200;
         resp_read := inr content;
         resp_text := inl (ClientError "not text");
         resp_json := inl (ClientError "not json") |}.

Definition not_found : reply := answer 404 "Not Found" JNull.
Definition conflict : reply := answer 409 "sha does not match" JNull.
Definition created : reply := answer 201 EmptyString JNull.
Definition with_sha (sha : string) : reply :=
  answer 200 EmptyString (JObj [("sha", JStr sha)]).

(** ** Reading a trace *)

(** The replies to the write attempts, in order. *)
Fixpoint writes (t : list event) : list reply :=
  match t with
  | [] => []
  | EvPut _ _ r :: rest => r :: writes rest
  | _ :: rest => writes rest
  end.

(** The payloads of the write attempts, in order. *)
Fixpoint written (t : list event) : list (gmap string json) :=
  match t with
  | [] => []
  | EvPut _ payload _ :: rest => payload :: written rest
  | _ :: rest => written rest
  end.

(** The delays slept, in order. *)
Fixpoint sleeps (t : list event) : list Q :=
  match t with
  | [] => []
  | EvSleep d :: rest => d :: sleeps rest
  | _ :: rest => sleeps rest
  end.

(** The URLs requested with GET, in order. *)
Fixpoint fetched (t : list event) : list string :=
  match t with
  | [] => []
  | EvGet url _ :: rest => url :: fetched rest
  | _ :: rest => fetched rest
  end.

(** Whether the success line was logged. *)
Fixpoint logged_uploaded (t : list event) : bool :=
  match t with
  | [] => false
  | EvLog Info (Uploaded _) :: _ => true
  | _ :: rest => logged_uploaded rest
  end.

(** The write was answered 409 and the body of the answer could be read. *)
Definition is_conflict (r : reply) : bool :=
  match r with
  | inr resp =>
      (resp_status resp =? 409)
      && match resp_text resp with inr _ => true | inl _ => false end
  | inl _ => false
  end.

(** The write was answered 200 or 201. *)
Definition is_success (r : reply) : bool :=
  match r with
  | inr resp => (resp_status resp =? 200) || (resp_status resp =? 201)
  | inl _ => false
  end.

(** The write was answered with a status that is neither a success nor a
    conflict, and the body of the answer could be read. *)
Definition is_hard_failure (r : reply) : bool :=
  match r with
  | inr resp =>
      negb ((resp_status resp =? 200) || (resp_status resp =? 201))
      && negb (resp_status resp =? 409)
      && match resp_text resp with inr _ => true | inl _ => false end
  | inl _ => false
  end.

(** The exception raised during a write attempt, if any: by the request
    itself, or by reading the body of an answer that is not a success. *)
Definition raised_in_write (r : reply) : option exn :=
  match r with
  | inr resp =>
      if (resp_status resp =? 200) || (resp_status resp =? 201)
      then None
      else match resp_text resp with inr _ => None | inl e => Some e end
  | inl e => Some e
  end.

(** The write attempts and the delays of a trace, in order: the reply
    to each write, and the seconds of each sleep. *)
Fixpoint pacing (t : list event) : list (reply + Q) :=
  match t with
  | [] => []
  | EvPut _ _ r :: rest => inl r :: pacing rest
  | EvSleep d :: rest => inr d :: pacing rest
  | _ :: rest => pacing rest
  end.

(** The requests of a trace, without the log lines and the sleeps. *)
Fixpoint requests (t : list event) : list event :=
  match t with
  | [] => []
  | EvGet url r :: rest => EvGet url r :: requests rest
  | EvPut url payload r :: rest => EvPut url payload r :: requests rest
  | _ :: rest => requests rest
  end.

(** A trace that consists of one GET and of log lines other than the
    success line. *)
Definition one_fetch (t : list event) (url : string) (r : reply) : Prop :=
  requests t = [EvGet url r] /\ sleeps t = [] /\ logged_uploaded t = false.

(** The body the code keeps from the reply to a GET: the parsed body of
    a 200, and [None] for every other reply. *)
Definition body_if_ok (r : reply) : json :=
  match r with
  | inr resp =>
      if resp_status resp =? 200
      then match resp_json resp with
           | inr body => body
           | inl _ => JNull
           end
      else JNull
  | inl _ => JNull
  end.

(** The payload as lines 120-127 leave it, given the reply to the
    re-fetch: the version token of the reply is copied in when there is
    one, and the payload stays as it is otherwise. *)
Definition payload_after (r : reply) (payload : gmap string json) : gmap string json :=
  match copy_sha (body_if_ok r) payload with
  | inr payload' => payload'
  | inl _ => payload
  end.

(** The reply to a lookup carries the version token [token]. *)
Definition carries_token (r : reply) (token : json) : Prop :=
  exists resp fields,
    r = inr resp /\ resp_status resp = 200
    /\ resp_json resp = inr (JObj fields)
    /\ Py.assoc "sha" fields = Some token.

(** A task followed by the pacing delay of the walker (lines 162-164 for
    a single task). *)
Definition then_pause {W : Type} (task : coro W unit) : coro W unit :=
  fun w =>
    match task w with
    | (Returned _, w2, t) => (Returned tt, w2, t ++ [EvSleep (1 # 2)])
    | (o, w2, t) => (o, w2, t)
    end.

(** ** Concrete runs *)

(** The bytes of a small Verilog file. *)
Definition verilog : list Byte.byte := [Byte.x6d; Byte.x6f; Byte.x64].

Definition unprocessable : reply := answer 422 "Unprocessable Entity" JNull.
Definition ok : reply := answer 200 EmptyString JNull.

(** A file that exists at the destination and is changed by someone else
    before each of the three writes. *)
Definition always_conflicting : script :=
  {| get_replies := [file_answer verilog; with_sha "v1"; with_sha "v2"; with_sha "v3"];
     put_replies := [conflict; conflict; conflict] |}.

(** The same, but the third write goes through. *)
Definition recovering : script :=
  {| get_replies := [file_answer verilog; with_sha "v1"; with_sha "v2"; with_sha "v3"];
     put_replies := [conflict; conflict; ok] |}.

(** Nothing at the destination yet. *)
Definition absent_destination : script :=
  {| get_replies := [file_answer verilog; not_found];
     put_replies := [created] |}.

(** The file is at the destination, with token [v1]. *)
Definition present_destination : script :=
  {| get_replies := [file_answer verilog; with_sha "v1"];
     put_replies := [ok] |}.

(** The lookup of the destination cannot connect. *)
Definition unreachable_lookup : script :=
  {| get_replies := [file_answer verilog; refused];
     put_replies := [created] |}.

(** The first write cannot connect, the second goes through. *)
Definition flaky : script :=
  {| get_replies := [file_answer verilog; with_sha "v1"; with_sha "v2"];
     put_replies := [refused; created] |}.

(** The first write is rejected for good. *)
Definition rejected : script :=
  {| get_replies := [file_answer verilog; not_found];
     put_replies := [unprocessable; created] |}.

(** The entry of one Verilog file, as the contents API describes it. *)
Definition alu_entry : list (string * json) :=
  [("type", JStr "file"); ("name", JStr "alu.v"); ("path", JStr "rtl/alu.v");
   ("download_url", JStr "https://raw/alu.v")].

(** Listing the path of a file gives the entry itself, not a list. *)
Definition single_file_listing : script :=
  {| get_replies := [answer 200 EmptyString (JObj alu_entry); file_answer verilog;
                     not_found];
     put_replies := [created] |}.

(** A repository whose default branch is [main] and whose root is
    empty. *)
Definition empty_repository : script :=
  {| get_replies := [answer 200 EmptyString (JObj [("default_branch", JStr "main")]);
                     answer 200 "[]" (JArr [])];
     put_replies := [] |}.

Definition upload_alu (w : script) : outcome unit * script * list event :=
  upload_verilog_file_to_target "https://raw/alu.v" "alice/cpu" "rtl/alu.v" "alu.v" w.

Definition alu_target : string := target_path "alice/cpu" "rtl/alu.v" "alu.v".
Definition alu_get_url : string := destination_get_url (Quote.quote alu_target).
Definition alu_upload_url : string := destination_upload_url (Quote.quote alu_target).


(** ** Answers whose body cannot be read *)

(** An answer of which only the status arrives: awaiting its body
    raises. *)
Definition unread (status : Z) : reply :=
  inr {| resp_status := status;
         resp_read := inl (ClientError "payload is not completed");
         resp_text := inl (ClientError "payload is not completed");
         resp_json := inl (ClientError "payload is not completed") |}.

(** The file is at the destination and every write is answered 409,
    without a body that can be read. *)
Definition conflicts_unread : script :=
  {| get_replies := [file_answer verilog; with_sha "v1"; with_sha "v2"; with_sha "v3"];
     put_replies := [unread 409; unread 409; unread 409] |}.

(** The same, but the third write goes through. *)
Definition recovering_unread : script :=
  {| get_replies := [file_answer verilog; with_sha "v1"; with_sha "v2"; with_sha "v3"];
     put_replies := [unread 409; unread 409; ok] |}.

(** The first write is answered 500 without a body that can be read, the
    second goes through. *)
Definition server_error_unread : script :=
  {| get_replies := [file_answer verilog; not_found];
     put_replies := [unread 500; created] |}.

(** ** Further readings of the source *)

(** [name] is the last component of [path]: the path is the name itself,
    or a directory that is not empty and does not end in a slash, a slash
    and the name.  This is how the contents API relates the [path] and
    the [name] of an entry. *)
Definition listed_as (path name : string) : Prop :=
  PyStr.contains PyStr.slash name = false
  /\ (path = name
      \/ exists dir,
           dir <> EmptyString /\ PyStr.rstrip PyStr.slash dir = dir
           /\ path = dir +:+ String PyStr.slash name).

(** The writes and sleeps of a retry loop that starts from [delay]
    seconds and whose writes were answered with [replies]: one sleep
    between two consecutive writes, each twice the one before. *)
Fixpoint schedule (delay : Z) (replies : list reply) : list (reply + Q) :=
  match replies with
  | [] => []
  | r :: rest =>
      inl r :: match rest with
               | [] => []
               | _ :: _ => inr (inject_Z delay) :: schedule (delay * 2) rest
               end
  end.

(** Two payloads that agree on every field but ["sha"]. *)
Definition same_but_sha (p q : gmap string json) : Prop :=
  forall key, key <> "sha" -> p !! key = q !! key.

(** The request goes to one of the three URLs of an upload task: a GET to
    the download URL or to the lookup URL, a PUT to the upload URL. *)
Definition request_of_task (download_url get_url upload_url : string) (ev : event)
  : Prop :=
  match ev with
  | EvGet url _ => url = download_url \/ url = get_url
  | EvPut url _ _ => url = upload_url
  | _ => True
  end.

(** An entry the walker passes over: a dict whose ["type"] is not
    ["dir"] and that is not a file whose name ends in [.v]. *)
Definition ignored_entry (item : json) : bool :=
  match item with
  | JObj fields =>
      match Py.assoc "type" fields with
      | Some type =>
          negb (Py.is_str "dir" type)
          && (negb (Py.is_str "file" type)
              || match Py.assoc "name" fields with
                 | Some (JStr name) => negb (PyStr.endswith name ".v")
                 | _ => false
                 end)
      | None => false
      end
  | _ => false
  end.

(** A SystemVerilog source and a header beside a Verilog file whose
    entry has lost its ["type"]. *)
Definition other_sources : list json :=
  [JObj [("type", JStr "file"); ("name", JStr "alu.sv"); ("path", JStr "rtl/alu.sv");
         ("download_url", JStr "https://raw/alu.sv")];
   JObj [("type", JStr "file"); ("name", JStr "defs.vh"); ("path", JStr "rtl/defs.vh");
         ("download_url", JStr "https://raw/defs.vh")];
   JObj [("type", JStr "symlink"); ("name", JStr "latest.v");
         ("path", JStr "rtl/latest.v")]].

Definition only_other_sources : script :=
  {| get_replies := [answer 200 EmptyString (JArr other_sources)];
     put_replies := [] |}.

(** A listing whose second entry has no ["type"]. *)
Definition broken_listing : script :=
  {| get_replies := [answer 200 EmptyString
                       (JArr [JObj alu_entry; JObj [("name", JStr "fpu.v")]]);
                     file_answer verilog; not_found];
     put_replies := [created] |}.

(** The lookup of the destination is answered with a number. *)
Definition odd_lookup : script :=
  {| get_replies := [file_answer verilog; answer 200 "5" (JInt 5)];
     put_replies := [created] |}.

(** The download is answered 404. *)
Definition missing_source : script :=
  {| get_replies := [not_found; with_sha "v1"];
     put_replies := [created] |}.

(** ** The search and the driver (lines 181-215) *)

Definition GITHUB_SEARCH_URL : string := GITHUB_API_URL +:+ "/search/repositories".
Definition RESULTS_PER_PAGE : Z := 30.
Definition MAX_PAGES : Z := 10.

(** The log lines of the search and of [main]. *)
Inductive driver_message : Type :=
  | PageFound (page : Z) (found : Z)
  | SearchingRepositories
  | TotalRepositories (found : Z)
  | ProcessingRepository (full_name : json)
  | FinishedUploading.

(** What the driver does: what the pipeline does, and its own log
    lines. *)
Inductive driver_event : Type :=
  | Pipeline (ev : event)
  | DriverLog (call : log_call) (msg : driver_message).

(** A coroutine of the driver. *)
Definition driver (W A : Type) : Type := W -> outcome A * W * list driver_event.

Module Driver.
Section Ops.
Context {W : Type}.

Definition ret {A} (a : A) : driver W A := fun w => (Returned a, w, []).

Definition bind {A B} (m : driver W A) (k : A -> driver W B) : driver W B :=
  fun w =>
    match m w with
    | (Returned a, w1, t1) =>
        match k a w1 with
        | (o, w2, t2) => (o, w2, t1 ++ t2)
        end
    | (Raised e, w1, t1) => (Raised e, w1, t1)
    | (OutOfFuel, w1, t1) => (OutOfFuel, w1, t1)
    end.

(** Awaiting a coroutine of the pipeline. *)
Definition await {A} (c : coro W A) : driver W A :=
  fun w =>
    match c w with
    | (o, w1, t) => (o, w1, map Pipeline t)
    end.

Definition log (call : log_call) (msg : driver_message) : driver W unit :=
  fun w => (Returned tt, w, [DriverLog call msg]).

End Ops.
End Driver.

Declare Scope driver_scope.
Delimit Scope driver_scope with driver.
Notation "x <- m ;; k" := (Driver.bind m (fun x => k))
  (at level 100, m at next level, right associativity) : driver_scope.
Notation "m ;;; k" := (Driver.bind m (fun _ => k))
  (at level 100, right associativity) : driver_scope.

(** The URL of one page of the search (line 189). *)
Definition search_url (query : string) (page : Z) : string :=
  GITHUB_SEARCH_URL +:+ "?q=" +:+ query +:+ "&per_page=" +:+ pretty RESULTS_PER_PAGE
    +:+ "&page=" +:+ pretty page.

Section Search.
Context {W : Type} `{!ClientSession W}.
Import Driver.
Local Open Scope driver_scope.

(** The loop of [search_verilog_repos] over the pages that are left
    (lines 188-198); [repos] is the list gathered so far.  [extend] takes
    the elements of [items] as iterating it gives them, and [len(items)]
    is their number: the elements of a list, the keys of a dict, the
    characters of a string. *)
Fixpoint search_pages (query : string) (pages : list Z) (repos : list json)
  : driver W (list json) :=
  match pages with
  | [] => ret repos
  | page :: rest =>
      data <- await (fetch_json (search_url query page)) ;;
      match data with
      | JNull => ret repos
      | _ =>
          items <- await (Coro.lift (Py.get data "items" (JArr []))) ;;
          if negb (Py.truthy items)
          then ret repos
          else
            found <- await (Coro.lift (iterate items)) ;;
            log Info (PageFound page (Z.of_nat (length found))) ;;;
            await (Coro.sleep 2) ;;;
            search_pages query rest (repos ++ found)
      end
  end.

(** [search_verilog_repos] (lines 181-199). *)
Definition search_verilog_repos (query : string) (max_pages : Z)
  : driver W (list json) :=
  search_pages query (range 1 (max_pages + 1)) [].

(** The loop of [main] over the repositories (lines 209-213). *)
Fixpoint process_all (fuel : nat) (repositories : list json) : driver W unit :=
  match repositories with
  | [] => ret tt
  | repo :: rest =>
      name <- await (Coro.lift (Py.getitem repo "full_name")) ;;
      log Info (ProcessingRepository name) ;;;
      name' <- await (Coro.lift (Py.getitem repo "full_name")) ;;
      repo_full_name <- await (Coro.lift (as_str name')) ;;
      await (process_repo fuel repo_full_name) ;;;
      await (Coro.sleep 2) ;;;
      process_all fuel rest
  end.

(** [main] (lines 201-215); [fuel] bounds the depth of every walk. *)
Definition main (fuel : nat) : driver W unit :=
  log Info SearchingRepositories ;;;
  repositories <- search_verilog_repos "language:Verilog" MAX_PAGES ;;
  log Info (TotalRepositories (Z.of_nat (length repositories))) ;;;
  process_all fuel repositories ;;;
  log Info FinishedUploading.

(** The repositories named [names] are processed one after the other
    from the state [w], each returning, and leave the state [w'];
    [runs] are their traces, in order. *)
Inductive processed (fuel : nat) : W -> list string -> list (list event) -> W -> Prop :=
  | processed_none (w : W) : processed fuel w [] [] w
  | processed_next (w w1 w' : W) name run names runs :
      process_repo fuel name w = (Returned tt, w1, run) ->
      processed fuel w1 names runs w' ->
      processed fuel w (name :: names) (run :: runs) w'.

End Search.

(** What one turn of the loop of [main] leaves in the trace: the line
    that announces the repository, what processing it did, and the pause
    of 2 seconds. *)
Definition repository_run (name : string) (run : list event) : list driver_event :=
  DriverLog Info (ProcessingRepository (JStr name))
  :: map Pipeline run ++ [Pipeline (EvSleep 2)].

(** The events of the pipeline in a trace of the driver. *)
Fixpoint pipeline (t : list driver_event) : list event :=
  match t with
  | [] => []
  | Pipeline ev :: rest => ev :: pipeline rest
  | DriverLog _ _ :: rest => pipeline rest
  end.

(** The log lines of the driver in a trace of it. *)
Fixpoint driver_log (t : list driver_event) : list driver_message :=
  match t with
  | [] => []
  | DriverLog _ msg :: rest => msg :: driver_log rest
  | Pipeline _ :: rest => driver_log rest
  end.

(** The replies to the GET requests, in order. *)
Fixpoint answers (t : list event) : list reply :=
  match t with
  | [] => []
  | EvGet _ r :: rest => r :: answers rest
  | _ :: rest => answers rest
  end.

(** The repositories a page of the search contributes: the elements of
    its ["items"], and none when the page did not come back or has no
    items. *)
Definition page_items (r : reply) : list json :=
  match Py.get (body_if_ok r) "items" (JArr []) with
  | inr items =>
      match iterate items with
      | inr found => found
      | inl _ => []
      end
  | inl _ => []
  end.

(** Whether a page ends the search without an exception: it did not
    come back, or its ["items"] are missing or empty (lines 191-195). *)
Definition page_ends (r : reply) : bool :=
  match body_if_ok r with
  | JNull => true
  | data =>
      match Py.get data "items" (JArr []) with
      | inr items => negb (Py.truthy items)
      | inl _ => false
      end
  end.

(** What [data.get("items", [])] and then iterating it give for the
    reply to a page, when both are reached. *)
Definition page_elements (r : reply) : exn + list json :=
  and_then (Py.get (body_if_ok r) "items" (JArr [])) iterate.

(** Two pages of results and a third that is refused. *)
Definition repo_item (full_name : string) : json :=
  JObj [("full_name", JStr full_name)].

Definition page_of (items : list json) : reply :=
  answer 200 EmptyString (JObj [("total_count", JInt 3); ("items", JArr items)]).

Definition three_repositories : script :=
  {| get_replies := [page_of [repo_item "alice/cpu"; repo_item "bob/uart"];
                     page_of [repo_item "carol/fpu"];
                     refused];
     put_replies := [] |}.

Definition search_three : outcome (list json) * script * list driver_event :=
  search_verilog_repos "language:Verilog" MAX_PAGES three_repositories.

(** One repository is found; its default branch is [main] and its root
    is empty. *)
Definition one_repository : script :=
  {| get_replies := [page_of [repo_item "alice/cpu"];
                     refused;
                     answer 200 EmptyString (JObj [("default_branch", JStr "main")]);
                     answer 200 EmptyString (JArr [])];
     put_replies := [] |}.

Definition main_one : outcome unit * script * list driver_event :=
  main 1 one_repository.

(** ** Reading base64 back *)

(** The value of a character of the base64 alphabet. *)
Definition b64_index (c : ascii) : N :=
  let n := N_of_ascii c in
  (if (65 <=? n) && (n <=? 90) then n - 65
   else if (97 <=? n) && (n <=? 122) then n - 71
   else if (48 <=? n) && (n <=? 57) then n + 4
   else if n =? 43 then 62 else 63)%N.

Definition byte_of (n : N) : Byte.byte := default Byte.x00 (Byte.of_N n).

(** [base64.b64decode] on text that [b64encode] wrote: four characters
    give three bytes, and padding ends the text. *)
Fixpoint b64decode (text : string) : list Byte.byte :=
  match text with
  | String c1 (String c2 (String c3 (String c4 rest))) =>
      let i1 := b64_index c1 in
      let i2 := b64_index c2 in
      let i3 := b64_index c3 in
      let i4 := b64_index c4 in
      let b1 := byte_of (i1 * 4 + i2 / 16) in
      let b2 := byte_of ((i2 mod 16) * 16 + i3 / 4) in
      let b3 := byte_of ((i3 mod 4) * 64 + i4) in
      if Ascii.eqb c3 "="%char then [b1]
      else if Ascii.eqb c4 "="%char then [b1; b2]
      else b1 :: b2 :: b3 :: b64decode rest
  | _ => []
  end%N.

(** A crawl of three repositories; the root of the second lists an entry
    without ["type"]. *)
Definition crawl_with_broken_repository : script :=
  {| get_replies := [answer 200 EmptyString (JObj [("default_branch", JStr "main")]);
                     answer 200 EmptyString (JArr []);
                     answer 200 EmptyString (JObj [("default_branch", JStr "main")]);
                     answer 200 EmptyString (JArr [JObj [("name", JStr "uart.v")]]);
                     answer 200 EmptyString (JObj [("default_branch", JStr "main")]);
                     answer 200 EmptyString (JArr [])];
     put_replies := [] |}.

(** * Properties *)

(** ** The string operations on examples *)

Example dirname_nested : PyStr.dirname "rtl/core/alu.v" = "rtl/core".
Proof. reflexivity. Qed.
Example dirname_top : PyStr.dirname "alu.v" = EmptyString.
Proof. reflexivity. Qed.
Example dirname_root : PyStr.dirname "/alu.v" = "/".
Proof. reflexivity. Qed.
Example dirname_doubled : PyStr.dirname "a//b" = "a".
Proof. reflexivity. Qed.
Example quote_space : Quote.quote "a b/c%.v" = "a%20b/c%25.v".
Proof. reflexivity. Qed.
Example target_nested :
  target_path "alice/cpu" "rtl/alu.v" "alu.v" = "verilog_data/alice_cpu/rtl/alu.v".
Proof. reflexivity. Qed.

(** ** Facts about the string operations *)

Section StringFacts.

Lemma append_nil_l (s : string) : EmptyString +:+ s = s.
Proof. reflexivity. Qed.

Lemma append_cons (c : ascii) (s t : string) : String c s +:+ t = String c (s +:+ t).
Proof. reflexivity. Qed.

Lemma append_cancel_l (p a b : string) : p +:+ a = p +:+ b -> a = b.
Proof.
  induction p as [|c p IH]; simpl; intros Heq; [exact Heq|].
  injection Heq as Heq. now apply IH.
Qed.

Lemma contains_replace_other (old new : ascii) (s : string) :
  old <> new -> PyStr.contains old (PyStr.replace old new s) = false.
Proof.
  intros Hne. induction s as [|c r IH]; simpl; [reflexivity|].
  rewrite IH, orb_false_r.
  destruct (Ascii.eqb c old) eqn:E.
  - apply Ascii.eqb_neq. congruence.
  - exact E.
Qed.

(** Two strings free of the separator that are followed by it are equal
    as soon as the whole strings are. *)
Lemma cut_at_separator (sep : ascii) (a b x y : string) :
  PyStr.contains sep a = false ->
  PyStr.contains sep b = false ->
  a +:+ String sep x = b +:+ String sep y ->
  a = b.
Proof.
  revert b. induction a as [|c a IH]; intros [|d b] Ha Hb Heq; simpl in *.
  - reflexivity.
  - injection Heq as Hc _. subst d.
    rewrite Ascii.eqb_refl in Hb. discriminate.
  - injection Heq as Hc _. subst c.
    rewrite Ascii.eqb_refl in Ha. discriminate.
  - injection Heq as Hc Hr. subst d.
    apply orb_false_elim in Ha as [_ Ha].
    apply orb_false_elim in Hb as [_ Hb].
    f_equal. eapply IH; eassumption.
Qed.

Lemma repo_dir_no_slash (r : string) : PyStr.contains PyStr.slash (repo_dir r) = false.
Proof. apply contains_replace_other. discriminate. Qed.

(** Every destination path starts with the fixed prefix, the flattened
    repository name and a slash. *)
Lemma target_path_shape (r p n : string) :
  exists rest,
    target_path r p n = "verilog_data/" +:+ (repo_dir r +:+ String PyStr.slash rest).
Proof.
  unfold target_path.
  destruct (negb (String.eqb (PyStr.dirname p) EmptyString)).
  - exists (PyStr.dirname p +:+ "/" +:+ n). reflexivity.
  - exists n. reflexivity.
Qed.

Lemma target_path_repo_dir (r1 r2 p1 p2 n1 n2 : string) :
  target_path r1 p1 n1 = target_path r2 p2 n2 -> repo_dir r1 = repo_dir r2.
Proof.
  destruct (target_path_shape r1 p1 n1) as [x1 ->].
  destruct (target_path_shape r2 p2 n2) as [x2 ->].
  intros Heq.
  assert (Htail : repo_dir r1 +:+ String PyStr.slash x1
                  = repo_dir r2 +:+ String PyStr.slash x2).
  { eapply append_cancel_l, Heq. }
  eapply cut_at_separator; [apply repo_dir_no_slash .. | exact Htail].
Qed.

Lemma hex_digits_decode (c : ascii) :
  ascii_of_N (Quote.unhex (Quote.hex_digit (N_of_ascii c / 16)) * 16
              + Quote.unhex (Quote.hex_digit (N_of_ascii c mod 16))) = c.
Proof.
  destruct c as [[] [] [] [] [] [] [] []]; vm_compute; reflexivity.
Qed.

Lemma percent_unsafe : Quote.safe "%"%char = false.
Proof. reflexivity. Qed.

Lemma quote_byte_cons_inj (c d : ascii) (s t : string) :
  Quote.quote_byte c +:+ s = Quote.quote_byte d +:+ t -> c = d /\ s = t.
Proof.
  unfold Quote.quote_byte.
  destruct (Quote.safe c) eqn:Hc, (Quote.safe d) eqn:Hd;
    rewrite ?append_cons, ?append_nil_l; intros Heq.
  - injection Heq as -> ->. split; reflexivity.
  - injection Heq as -> _. rewrite percent_unsafe in Hc. discriminate.
  - injection Heq as <- _. rewrite percent_unsafe in Hd. discriminate.
  - injection Heq as Hhi Hlo ->. split; [|reflexivity].
    rewrite <- (hex_digits_decode c), <- (hex_digits_decode d).
    now rewrite Hhi, Hlo.
Qed.

Lemma quote_byte_nonempty (c : ascii) (s : string) :
  Quote.quote_byte c +:+ s <> EmptyString.
Proof.
  unfold Quote.quote_byte.
  destruct (Quote.safe c); rewrite append_cons; discriminate.
Qed.

Lemma quote_inj (s t : string) : Quote.quote s = Quote.quote t -> s = t.
Proof.
  revert t. induction s as [|c s IH]; intros [|d t] Heq; simpl in Heq.
  - reflexivity.
  - symmetry in Heq. now apply quote_byte_nonempty in Heq.
  - now apply quote_byte_nonempty in Heq.
  - apply quote_byte_cons_inj in Heq as [-> Heq]. f_equal. now apply IH.
Qed.

Lemma replace_absent (old new : ascii) (s : string) :
  PyStr.contains old s = false -> PyStr.replace old new s = s.
Proof.
  induction s as [|c r IH]; simpl; [reflexivity|].
  intros [Hc Hr]%orb_false_elim. now rewrite Hc, IH.
Qed.

Lemma replace_append (old new : ascii) (s t : string) :
  PyStr.replace old new (s +:+ t) = PyStr.replace old new s +:+ PyStr.replace old new t.
Proof.
  induction s as [|c r IH]; [reflexivity|].
  rewrite append_cons. simpl. now rewrite IH, append_cons.
Qed.

(** On identifiers of the form owner/name whose owner has neither a
    slash nor an underscore and whose name has no slash, as GitHub
    forms them for ordinary accounts, flattening loses nothing. *)
Lemma repo_dir_injective_on_plain_owners (owner1 name1 owner2 name2 : string) :
  PyStr.contains PyStr.slash owner1 = false ->
  PyStr.contains PyStr.underscore owner1 = false ->
  PyStr.contains PyStr.slash name1 = false ->
  PyStr.contains PyStr.slash owner2 = false ->
  PyStr.contains PyStr.underscore owner2 = false ->
  PyStr.contains PyStr.slash name2 = false ->
  repo_dir (owner1 +:+ String PyStr.slash name1)
  = repo_dir (owner2 +:+ String PyStr.slash name2) ->
  owner1 = owner2 /\ name1 = name2.
Proof.
  intros Ho1 Hu1 Hn1 Ho2 Hu2 Hn2. unfold repo_dir.
  rewrite !replace_append. simpl.
  rewrite !(replace_absent PyStr.slash) by assumption.
  intros Heq.
  assert (owner1 = owner2) as <-.
  { eapply cut_at_separator; [exact Hu1 | exact Hu2 | exact Heq]. }
  split; [reflexivity|].
  apply append_cancel_l in Heq. now injection Heq.
Qed.

End StringFacts.

(** ** The destination path *)

(** C1, as stated, fails: two distinct repository identifiers that differ
    only in where a slash and an underscore stand are flattened to the
    same directory, and a file at the same place in both gets the same
    destination path. *)
Lemma destination_collision :
  "dev_team/uart" <> "dev/team_uart"
  /\ target_path_encoded "dev_team/uart" "rtl/tx.v" "tx.v"
     = target_path_encoded "dev/team_uart" "rtl/tx.v" "tx.v".
Proof. split; [discriminate | reflexivity]. Qed.

(** C1, amended: the destination-path construction separates any two
    repositories whose flattened names (the identifier with every slash
    replaced by an underscore) differ: whatever the source paths and file
    names, the encoded destination paths are never equal. *)
Theorem destination_injective_on_repo_dir (r1 r2 p1 p2 n1 n2 : string) :
  repo_dir r1 <> repo_dir r2 ->
  target_path_encoded r1 p1 n1 <> target_path_encoded r2 p2 n2.
Proof.
  intros Hne Heq. apply Hne.
  eapply target_path_repo_dir, quote_inj, Heq.
Qed.

Lemma destination_injective_on_repo_dir_witness :
  target_path_encoded "alice/cpu" "rtl/alu.v" "alu.v"
  <> target_path_encoded "bob/cpu" "rtl/alu.v" "alu.v".
Proof.
  apply (destination_injective_on_repo_dir "alice/cpu" "bob/cpu").
  vm_compute. discriminate.
Defined.

(** ** Running coroutines *)

Section CoroFacts.
Context {W : Type}.
Import Coro.

Lemma bind_returned {A B} (m : coro W A) (k : A -> coro W B) w a w1 t1 :
  m w = (Returned a, w1, t1) ->
  bind m k w = (let '(o, w2, t2) := k a w1 in (o, w2, t1 ++ t2)).
Proof. unfold bind. now intros ->. Qed.

Lemma bind_raised {A B} (m : coro W A) (k : A -> coro W B) w e w1 t1 :
  m w = (Raised e, w1, t1) -> bind m k w = (Raised e, w1, t1).
Proof. unfold bind. now intros ->. Qed.

Lemma try_returned {A} (m : coro W A) (h : exn -> coro W A) w a w1 t1 :
  m w = (Returned a, w1, t1) -> try_except m h w = (Returned a, w1, t1).
Proof. unfold try_except. now intros ->. Qed.

Lemma try_raised {A} (m : coro W A) (h : exn -> coro W A) w e w1 t1 :
  m w = (Raised e, w1, t1) ->
  try_except m h w = (let '(o, w2, t2) := h e w1 in (o, w2, t1 ++ t2)).
Proof. unfold try_except. now intros ->. Qed.

End CoroFacts.

Section TraceFacts.

Lemma writes_app (t u : list event) : writes (t ++ u) = writes t ++ writes u.
Proof.
  induction t as [|ev t IH]; [reflexivity|].
  destruct ev; simpl; now rewrite IH.
Qed.

Lemma written_app (t u : list event) : written (t ++ u) = written t ++ written u.
Proof.
  induction t as [|ev t IH]; [reflexivity|].
  destruct ev; simpl; now rewrite IH.
Qed.

Lemma sleeps_app (t u : list event) : sleeps (t ++ u) = sleeps t ++ sleeps u.
Proof.
  induction t as [|ev t IH]; [reflexivity|].
  destruct ev; simpl; now rewrite IH.
Qed.

Lemma fetched_app (t u : list event) : fetched (t ++ u) = fetched t ++ fetched u.
Proof.
  induction t as [|ev t IH]; [reflexivity|].
  destruct ev; simpl; now rewrite IH.
Qed.

Lemma logged_uploaded_app (t u : list event) :
  logged_uploaded (t ++ u) = logged_uploaded t || logged_uploaded u.
Proof.
  induction t as [|ev t IH]; [reflexivity|].
  destruct ev as [| | |call msg]; simpl; try exact IH.
  destruct call, msg; simpl; try exact IH; reflexivity.
Qed.

End TraceFacts.

Section FetcherFacts.
Context {W : Type} `{!ClientSession W}.
Import Coro.

(** The value [fetch_json] hands back for a reply. *)
Lemma fetch_json_run (url : string) (w : W) :
  exists t,
    fetch_json url w
    = (Returned (match fst (session_get url w) with
                 | inr resp =>
                     if resp_status resp =? 200
                     then match resp_json resp with
                          | inr body => body
                          | inl _ => JNull
                          end
                     else JNull
                 | inl _ => JNull
                 end),
       snd (session_get url w), t)
    /\ fetched t = [url] /\ writes t = [] /\ sleeps t = [].
Proof.
  unfold fetch_json, try_except, bind, http_get, lift, log, emit, ret, raise.
  destruct (session_get url w) as [[e|resp] w1]; simpl.
  - eexists. split; [reflexivity|]. repeat split.
  - destruct (resp_status resp =? 200).
    + destruct (resp_json resp) as [e|body]; simpl;
        (eexists; split; [reflexivity|]; repeat split).
    + simpl. eexists. split; [reflexivity|]. repeat split.
Qed.

End FetcherFacts.

Section TraceFacts2.

Lemma requests_app (t u : list event) : requests (t ++ u) = requests t ++ requests u.
Proof.
  induction t as [|ev t IH]; [reflexivity|].
  destruct ev; simpl; now rewrite IH.
Qed.

Lemma writes_requests (t : list event) : writes (requests t) = writes t.
Proof. induction t as [|[] t IH]; simpl; congruence. Qed.

Lemma written_requests (t : list event) : written (requests t) = written t.
Proof. induction t as [|[] t IH]; simpl; congruence. Qed.

Lemma fetched_requests (t : list event) : fetched (requests t) = fetched t.
Proof. induction t as [|[] t IH]; simpl; congruence. Qed.

End TraceFacts2.

(** ** The uploader, step by step *)

Section UploaderFacts.
Context {W : Type} `{!ClientSession W}.
Import Coro.

Lemma one_fetch_writes t url r : one_fetch t url r -> writes t = [] /\ written t = [].
Proof.
  intros (Hr & _). split.
  - now rewrite <- writes_requests, Hr.
  - now rewrite <- written_requests, Hr.
Qed.

(** The download returns: the content of a 200 whose body can be read,
    and the early return otherwise. *)
Lemma download_run (url : string) (w : W) :
  exists t,
    download url w
    = (Returned (match fst (session_get url w) with
                 | inr resp =>
                     if resp_status resp =? 200
                     then match resp_read resp with
                          | inr content => Some content
                          | inl _ => None
                          end
                     else None
                 | inl _ => None
                 end),
       snd (session_get url w), t)
    /\ one_fetch t url (fst (session_get url w)).
Proof.
  unfold download, try_except, bind, http_get, lift, log, emit, ret, raise, one_fetch.
  destruct (session_get url w) as [[e|resp] w1]; simpl.
  - eexists. split; [reflexivity|]. repeat split.
  - destruct (resp_status resp =? 200); simpl.
    + destruct (resp_read resp) as [e|content]; simpl;
        (eexists; split; [reflexivity|]; repeat split).
    + eexists. split; [reflexivity|]. repeat split.
Qed.

(** The existence check returns what [body_if_ok] keeps of the reply. *)
Lemma check_existing_run (target url : string) (w : W) :
  exists t,
    check_existing target url w
    = (Returned (body_if_ok (fst (session_get url w))), snd (session_get url w), t)
    /\ one_fetch t url (fst (session_get url w)).
Proof.
  unfold check_existing, try_except, bind, http_get, lift, log, emit, ret, raise,
    one_fetch, body_if_ok.
  destruct (session_get url w) as [[e|resp] w1]; simpl.
  - eexists. split; [reflexivity|]. repeat split.
  - destruct (resp_status resp =? 200); simpl.
    + destruct (resp_json resp) as [e|body]; simpl;
        (eexists; split; [reflexivity|]; repeat split).
    + eexists. split; [reflexivity|]. repeat split.
Qed.

(** The re-fetch after a conflict returns, with the payload
    [payload_after] describes. *)
Lemma refresh_sha_run (url : string) (payload : gmap string json) (w : W) :
  exists t,
    refresh_sha url payload w
    = (Returned (payload_after (fst (session_get url w)) payload),
       snd (session_get url w), t)
    /\ one_fetch t url (fst (session_get url w)).
Proof.
  unfold refresh_sha, try_except, bind, http_get, lift, log, emit, ret, raise,
    one_fetch, payload_after, body_if_ok.
  destruct (session_get url w) as [[e|resp] w1]; simpl.
  - eexists. split; [reflexivity|]. repeat split.
  - destruct (resp_status resp =? 200); simpl.
    + destruct (resp_json resp) as [e|body]; simpl.
      * eexists. split; [reflexivity|]. repeat split.
      * destruct (copy_sha body payload) as [e|payload']; simpl;
          (eexists; split; [reflexivity|]; repeat split).
    + eexists. split; [reflexivity|]. repeat split.
Qed.

(** A reply that carries a token puts exactly that token into the
    payload. *)
Lemma payload_after_token (r : reply) (token : json) (payload : gmap string json) :
  carries_token r token ->
  payload_after r payload = <["sha" := token]> payload.
Proof.
  intros (resp & fields & -> & Hs & Hj & Hsha).
  unfold payload_after, body_if_ok, copy_sha, Py.contains, Py.getitem, and_then.
  rewrite Hs, Hj. simpl. rewrite Hsha.
  destruct fields as [|kv fields]; [discriminate|]. simpl.
  reflexivity.
Qed.

Section Attempt.
Variables (target upload_url get_url : string) (max_retries attempt : Z).
Variables (payload : gmap string json) (retry_delay : Z).
Variables (w w1 : W) (r : reply).
Hypothesis Hput : session_put upload_url payload w = (r, w1).

Let run := upload_attempt target upload_url get_url max_retries attempt
             payload retry_delay w.

(** Success: the line is logged and the function returns. *)
Lemma attempt_success :
  is_success r = true ->
  run = (Returned LoopReturn, w1,
         [EvPut upload_url payload r; EvLog Info (Uploaded target)]).
Proof.
  unfold run, upload_attempt, try_except, bind, http_put, lift, log, emit, ret.
  rewrite Hput. destruct r as [e|resp]; simpl; [discriminate|].
  now intros ->.
Qed.

(** Any other failure status: the line is logged and the function
    returns. *)
Lemma attempt_hard_failure (resp : response) (text : string) :
  r = inr resp -> is_hard_failure r = true -> resp_text resp = inr text ->
  run = (Returned LoopReturn, w1,
         [EvPut upload_url payload r;
          EvLog Error (FailedToUpload target (resp_status resp) text)]).
Proof.
  unfold run, upload_attempt, try_except, bind, http_put, lift, log, emit, ret.
  rewrite Hput. intros ->. simpl. intros Hk Ht.
  apply andb_prop in Hk as [Hk _]. apply andb_prop in Hk as [Hs Hc].
  apply negb_true_iff in Hs, Hc. rewrite Hs, Hc, Ht. reflexivity.
Qed.

(** Conflict with attempts left: re-fetch, sleep, double the delay. *)
Lemma attempt_conflict_retry (resp : response) (text : string) :
  r = inr resp -> resp_status resp = 409 -> resp_text resp = inr text ->
  attempt < max_retries ->
  exists t,
    run = (Returned (LoopNext (payload_after (fst (session_get get_url w1)) payload)
                       (retry_delay * 2)),
           snd (session_get get_url w1),
           [EvPut upload_url payload r;
            EvLog Warning (ConflictWhenUploading target attempt max_retries text)]
           ++ t ++ [EvSleep (inject_Z retry_delay)])
    /\ one_fetch t get_url (fst (session_get get_url w1)).
Proof.
  intros -> Hs Ht Hlt.
  destruct (refresh_sha_run get_url payload w1) as (t & Hrun & Hone).
  exists t. split; [|exact Hone].
  unfold run, upload_attempt, try_except, bind, http_put, lift, log, emit, ret, sleep.
  rewrite Hput, Hs, Ht. simpl.
  rewrite (proj2 (Z.ltb_lt _ _) Hlt), Hrun. simpl.
  reflexivity.
Qed.

(** Conflict on the last attempt: only the warning is logged. *)
Lemma attempt_conflict_last (resp : response) (text : string) :
  r = inr resp -> resp_status resp = 409 -> resp_text resp = inr text ->
  max_retries <= attempt ->
  run = (Returned (LoopNext payload retry_delay), w1,
         [EvPut upload_url payload r;
          EvLog Warning (ConflictWhenUploading target attempt max_retries text)]).
Proof.
  intros -> Hs Ht Hge.
  unfold run, upload_attempt, try_except, bind, http_put, lift, log, emit, ret, sleep.
  rewrite Hput, Hs, Ht. simpl.
  now rewrite (proj2 (Z.ltb_ge _ _) Hge).
Qed.

(** An exception with attempts left: sleep and double the delay; the
    payload is the one of this attempt and nothing is fetched. *)
Lemma attempt_exception_retry (e : exn) :
  raised_in_write r = Some e -> attempt < max_retries ->
  run = (Returned (LoopNext payload (retry_delay * 2)), w1,
         [EvPut upload_url payload r;
          EvLog Exception (ExceptionWhileUploading target e);
          EvSleep (inject_Z retry_delay)]).
Proof.
  intros He Hlt.
  unfold run, upload_attempt, try_except, bind, http_put, lift, log, emit, ret,
    raise, sleep.
  rewrite Hput. destruct r as [e'|resp]; simpl in *.
  - injection He as ->. now rewrite (proj2 (Z.ltb_lt _ _) Hlt).
  - destruct ((resp_status resp =? 200) || (resp_status resp =? 201));
      [discriminate|].
    destruct (resp_text resp) as [e'|text]; [|discriminate].
    injection He as ->.
    destruct (resp_status resp =? 409); simpl;
      now rewrite (proj2 (Z.ltb_lt _ _) Hlt).
Qed.

(** An exception on the last attempt: it is logged and the function
    returns. *)
Lemma attempt_exception_last (e : exn) :
  raised_in_write r = Some e -> max_retries <= attempt ->
  run = (Returned LoopReturn, w1,
         [EvPut upload_url payload r;
          EvLog Exception (ExceptionWhileUploading target e)]).
Proof.
  intros He Hge.
  unfold run, upload_attempt, try_except, bind, http_put, lift, log, emit, ret,
    raise, sleep.
  rewrite Hput. destruct r as [e'|resp]; simpl in *.
  - injection He as ->. now rewrite (proj2 (Z.ltb_ge _ _) Hge).
  - destruct ((resp_status resp =? 200) || (resp_status resp =? 201));
      [discriminate|].
    destruct (resp_text resp) as [e'|text]; [|discriminate].
    injection He as ->.
    destruct (resp_status resp =? 409); simpl;
      now rewrite (proj2 (Z.ltb_ge _ _) Hge).
Qed.

End Attempt.

End UploaderFacts.

(** ** The retry loop *)

Section LoopFacts.
Context {W : Type} `{!ClientSession W}.
Import Coro.

Variables (target upload_url get_url : string) (max_retries : Z).

Let loop := upload_loop target upload_url get_url max_retries.

Lemma is_conflict_inv (r : reply) :
  is_conflict r = true ->
  exists resp text, r = inr resp /\ resp_status resp = 409 /\ resp_text resp = inr text.
Proof.
  destruct r as [e|resp]; simpl; [discriminate|].
  intros [Hs Ht]%andb_prop. apply Z.eqb_eq in Hs.
  destruct (resp_text resp) as [e|text] eqn:Et; [discriminate|].
  exists resp, text. auto.
Qed.

Lemma is_hard_failure_inv (r : reply) :
  is_hard_failure r = true ->
  exists resp text, r = inr resp /\ resp_text resp = inr text.
Proof.
  destruct r as [e|resp]; simpl; [discriminate|].
  intros [_ Ht]%andb_prop.
  destruct (resp_text resp) as [e|text] eqn:Et; [discriminate|].
  exists resp, text. auto.
Qed.

(** Every reply to a write falls in exactly one of the four cases of the
    retry policy. *)
Lemma write_reply_cases (r : reply) :
  is_success r = true \/ is_conflict r = true \/ is_hard_failure r = true
  \/ exists e, raised_in_write r = Some e.
Proof.
  destruct r as [e|resp]; simpl; [eauto|].
  destruct ((resp_status resp =? 200) || (resp_status resp =? 201)); [auto|].
  destruct (resp_text resp) as [e|text]; [eauto|].
  destruct (resp_status resp =? 409); auto.
Qed.

(** Success ends the loop. *)
Lemma loop_success attempt rest payload delay (w w1 : W) r :
  session_put upload_url payload w = (r, w1) ->
  is_success r = true ->
  loop (attempt :: rest) payload delay w
  = (Returned tt, w1, [EvPut upload_url payload r; EvLog Info (Uploaded target)]).
Proof.
  intros Hput Hk. unfold loop. simpl.
  erewrite bind_returned by (eapply attempt_success; eassumption).
  reflexivity.
Qed.

(** A hard failure ends the loop. *)
Lemma loop_hard_failure attempt rest payload delay (w w1 : W) resp text :
  session_put upload_url payload w = (inr resp, w1) ->
  is_hard_failure (inr resp) = true ->
  resp_text resp = inr text ->
  loop (attempt :: rest) payload delay w
  = (Returned tt, w1,
     [EvPut upload_url payload (inr resp);
      EvLog Error (FailedToUpload target (resp_status resp) text)]).
Proof.
  intros Hput Hk Ht. unfold loop. simpl.
  erewrite bind_returned by (eapply attempt_hard_failure; eauto).
  reflexivity.
Qed.

(** A conflict with attempts left: the loop goes on with the payload
    the re-fetch leaves and twice the delay. *)
Lemma loop_conflict_retry attempt rest payload delay (w w1 : W) r :
  session_put upload_url payload w = (r, w1) ->
  is_conflict r = true ->
  attempt < max_retries ->
  exists text t1,
    loop (attempt :: rest) payload delay w
    = (let '(o, w3, t2) :=
         loop rest (payload_after (fst (session_get get_url w1)) payload)
           (delay * 2) (snd (session_get get_url w1)) in
       (o, w3,
        ([EvPut upload_url payload r;
          EvLog Warning (ConflictWhenUploading target attempt max_retries text)]
         ++ t1 ++ [EvSleep (inject_Z delay)]) ++ t2))
    /\ one_fetch t1 get_url (fst (session_get get_url w1)).
Proof.
  intros Hput (resp & text & -> & Hs & Ht)%is_conflict_inv Hlt.
  destruct (attempt_conflict_retry target upload_url get_url max_retries attempt
              payload delay w w1 (inr resp) Hput resp text eq_refl Hs Ht Hlt)
    as (t1 & Hrun & Hone).
  exists text, t1. split; [|exact Hone].
  unfold loop. simpl. erewrite bind_returned by exact Hrun. reflexivity.
Qed.

(** A conflict on the last attempt: the loop is over after the
    warning. *)
Lemma loop_conflict_last attempt payload delay (w w1 : W) r :
  session_put upload_url payload w = (r, w1) ->
  is_conflict r = true ->
  max_retries <= attempt ->
  exists text,
    loop [attempt] payload delay w
    = (Returned tt, w1,
       [EvPut upload_url payload r;
        EvLog Warning (ConflictWhenUploading target attempt max_retries text)]).
Proof.
  intros Hput (resp & text & -> & Hs & Ht)%is_conflict_inv Hge.
  exists text. unfold loop. simpl.
  erewrite bind_returned by (eapply attempt_conflict_last; eauto).
  reflexivity.
Qed.

(** An exception with attempts left. *)
Lemma loop_exception_retry attempt rest payload delay (w w1 : W) r e :
  session_put upload_url payload w = (r, w1) ->
  raised_in_write r = Some e ->
  attempt < max_retries ->
  loop (attempt :: rest) payload delay w
  = (let '(o, w3, t2) := loop rest payload (delay * 2) w1 in
     (o, w3,
      [EvPut upload_url payload r;
       EvLog Exception (ExceptionWhileUploading target e);
       EvSleep (inject_Z delay)] ++ t2)).
Proof.
  intros Hput He Hlt. unfold loop. simpl.
  erewrite bind_returned by (eapply attempt_exception_retry; eassumption).
  reflexivity.
Qed.

(** An exception on the last attempt. *)
Lemma loop_exception_last attempt rest payload delay (w w1 : W) r e :
  session_put upload_url payload w = (r, w1) ->
  raised_in_write r = Some e ->
  max_retries <= attempt ->
  loop (attempt :: rest) payload delay w
  = (Returned tt, w1,
     [EvPut upload_url payload r;
      EvLog Exception (ExceptionWhileUploading target e)]).
Proof.
  intros Hput He Hge. unfold loop. simpl.
  erewrite bind_returned by (eapply attempt_exception_last; eassumption).
  reflexivity.
Qed.

(** Whatever the reply, a pass through the loop starts with the write,
    carrying the payload the loop holds. *)
Lemma loop_head attempt rest payload delay (w : W) :
  exists o w' t',
    loop (attempt :: rest) payload delay w
    = (o, w', EvPut upload_url payload (fst (session_put upload_url payload w)) :: t').
Proof.
  destruct (session_put upload_url payload w) as [r w1] eqn:Hput. simpl.
  destruct (write_reply_cases r) as [Hk|[Hk|[Hk|[e Hk]]]].
  - erewrite loop_success by eassumption. eauto.
  - destruct (Z.lt_ge_cases attempt max_retries) as [Hlt|Hge].
    + destruct (loop_conflict_retry attempt rest payload delay w w1 r Hput Hk Hlt)
        as (text & t1 & -> & _).
      destruct (loop rest _ _ _) as [[o w3] t2]. simpl. eauto.
    + apply is_conflict_inv in Hk as (resp & text & -> & Hs & Ht).
      unfold loop. simpl.
      erewrite bind_returned by (eapply attempt_conflict_last; eauto).
      simpl.
      destruct (upload_loop target upload_url get_url max_retries rest payload
                  delay w1) as [[o w3] t2].
      eauto.
  - destruct (is_hard_failure_inv r Hk) as (resp & text & -> & Ht).
    erewrite loop_hard_failure by eassumption. eauto.
  - destruct (Z.lt_ge_cases attempt max_retries) as [Hlt|Hge].
    + erewrite loop_exception_retry by eassumption.
      destruct (loop rest _ _ _) as [[o w3] t2]. simpl. eauto.
    + erewrite loop_exception_last by eassumption. eauto.
Qed.

End LoopFacts.

(** ** The upload task as a whole *)

Section TaskFacts.
Context {W : Type} `{!ClientSession W}.
Import Coro.

Lemma pacing_app (t u : list event) : pacing (t ++ u) = pacing t ++ pacing u.
Proof.
  induction t as [|ev t IH]; [reflexivity|].
  destruct ev; simpl; now rewrite IH.
Qed.

Lemma one_fetch_pacing t url r : one_fetch t url r -> pacing t = [].
Proof.
  intros (Hr & Hs & _).
  assert (Hw : writes t = []) by now rewrite <- writes_requests, Hr.
  clear Hr. induction t as [|[] t IH]; simpl in *; try discriminate; auto.
Qed.

Variables (download_url repo_full_name file_path file_name : string).

Let target := target_path repo_full_name file_path file_name.
Let get_url := destination_get_url (Quote.quote target).
Let upload_url := destination_upload_url (Quote.quote target).

(** Once the content is there, the task looks the destination up, logs
    what it is about to do and enters the retry loop with the payload
    built from the lookup. *)
Lemma upload_content_enters_loop (content : list Byte.byte) (w : W) payload :
  copy_sha (body_if_ok (fst (session_get get_url w)))
    (initial_payload target (Base64.b64encode content)) = inr payload ->
  exists t0,
    upload_content content repo_full_name file_path file_name w
    = (let '(o, w3, tl) :=
         upload_loop target upload_url get_url 3 [1; 2; 3] payload 1
           (snd (session_get get_url w)) in
       (o, w3,
        t0 ++ EvLog Info (if Py.truthy (body_if_ok (fst (session_get get_url w)))
                          then UpdatingFile target else UploadingFile target)
           :: tl))
    /\ one_fetch t0 get_url (fst (session_get get_url w)).
Proof.
  intros Hcopy.
  destruct (check_existing_run target get_url w) as (t0 & Hrun & Hone).
  exists t0. split; [|exact Hone].
  unfold upload_content. fold target. fold get_url. fold upload_url.
  erewrite bind_returned by exact Hrun.
  unfold bind at 1. rewrite Hcopy. unfold lift at 1, ret at 1.
  unfold bind at 1, log at 1, emit at 1.
  change (range 1 (3 + 1)) with [1; 2; 3].
  destruct (upload_loop _ _ _ _ _ _ _ _) as [[o w3] tl]. reflexivity.
Qed.

(** Where the lookup gives a body the token cannot be taken from, the
    exception leaves the task before any write. *)
Lemma upload_content_raises (content : list Byte.byte) (w : W) e :
  copy_sha (body_if_ok (fst (session_get get_url w)))
    (initial_payload target (Base64.b64encode content)) = inl e ->
  exists t0,
    upload_content content repo_full_name file_path file_name w
    = (Raised e, snd (session_get get_url w), t0)
    /\ one_fetch t0 get_url (fst (session_get get_url w)).
Proof.
  intros Hcopy.
  destruct (check_existing_run target get_url w) as (t0 & Hrun & Hone).
  exists t0. split; [|exact Hone].
  unfold upload_content. fold target. fold get_url.
  erewrite bind_returned by exact Hrun.
  unfold bind at 1. rewrite Hcopy. unfold lift at 1, raise at 1.
  now rewrite app_nil_r.
Qed.

(** The task is the download followed, when it gave the content, by the
    rest. *)
Lemma upload_task_run (w : W) :
  exists td,
    upload_verilog_file_to_target download_url repo_full_name file_path file_name w
    = (match fst (download download_url w) with
       | (Returned (Some content), w1) =>
           let '(o, w3, t) :=
             upload_content content repo_full_name file_path file_name w1 in
           (o, w3, td ++ t)
       | (_, w1) => (Returned tt, w1, td)
       end)
    /\ one_fetch td download_url (fst (session_get download_url w)).
Proof.
  destruct (download_run download_url w) as (td & Hrun & Hone).
  exists td. split; [|exact Hone].
  unfold upload_verilog_file_to_target.
  erewrite bind_returned by exact Hrun. rewrite Hrun. simpl.
  destruct (match fst (session_get download_url w) with
            | inl _ => None
            | inr resp => _
            end) as [content|].
  - reflexivity.
  - unfold ret. now rewrite app_nil_r.
Qed.

End TaskFacts.

(** ** Repeated conflicts *)

Section ConflictFacts.
Context {W : Type} `{!ClientSession W}.
Import Coro.

Variables (target upload_url get_url : string) (max_retries : Z).

Let loop := upload_loop target upload_url get_url max_retries.

(** One pass of a run whose writes are all answered 409, attempts
    left. *)
Lemma conflict_pass attempt rest payload delay (w w' : W) o t :
  attempt < max_retries ->
  loop (attempt :: rest) payload delay w = (o, w', t) ->
  forallb is_conflict (writes t) = true ->
  exists r text t1 t2 g w2,
    t = ([EvPut upload_url payload r;
          EvLog Warning (ConflictWhenUploading target attempt max_retries text)]
         ++ t1 ++ [EvSleep (inject_Z delay)]) ++ t2
    /\ one_fetch t1 get_url g
    /\ loop rest (payload_after g payload) (delay * 2) w2 = (o, w', t2)
    /\ forallb is_conflict (writes t2) = true.
Proof.
  intros Hlt Hrun Hall.
  destruct (session_put upload_url payload w) as [r w1] eqn:Hput.
  assert (Hr : is_conflict r = true).
  { destruct (loop_head target upload_url get_url max_retries attempt rest
                payload delay w) as (o0 & w0 & t' & Hhead).
    fold loop in Hhead. rewrite Hrun, Hput in Hhead.
    injection Hhead as _ _ ->. simpl in Hall.
    now apply andb_prop in Hall as [Hr _]. }
  destruct (loop_conflict_retry target upload_url get_url max_retries attempt rest
              payload delay w w1 r Hput Hr Hlt) as (text & t1 & Hstep & Hone).
  fold loop in Hstep. rewrite Hrun in Hstep.
  destruct (loop rest _ _ _) as [[o2 w3] t2] eqn:Hrest.
  injection Hstep as -> -> ->.
  exists r, text, t1, t2, (fst (session_get get_url w1)), (snd (session_get get_url w1)).
  repeat split; try apply Hone; try exact Hrest.
  simpl in Hall. rewrite writes_app, forallb_app in Hall.
  apply andb_prop in Hall as [_ Hall].
  now apply andb_prop in Hall as [_ Hall].
Qed.

(** The last pass of such a run. *)
Lemma conflict_last_pass attempt payload delay (w w' : W) o t :
  max_retries <= attempt ->
  loop [attempt] payload delay w = (o, w', t) ->
  forallb is_conflict (writes t) = true ->
  o = Returned tt
  /\ exists r text,
       t = [EvPut upload_url payload r;
            EvLog Warning (ConflictWhenUploading target attempt max_retries text)].
Proof.
  intros Hge Hrun Hall.
  destruct (session_put upload_url payload w) as [r w1] eqn:Hput.
  assert (Hr : is_conflict r = true).
  { destruct (loop_head target upload_url get_url max_retries attempt []
                payload delay w) as (o0 & w0 & t' & Hhead).
    fold loop in Hhead. rewrite Hrun, Hput in Hhead.
    injection Hhead as _ _ ->. simpl in Hall.
    now apply andb_prop in Hall as [Hr _]. }
  destruct (loop_conflict_last target upload_url get_url max_retries attempt
              payload delay w w1 r Hput Hr Hge) as (text & Hstep).
  fold loop in Hstep. rewrite Hrun in Hstep. injection Hstep as -> -> ->.
  split; [reflexivity|]. eauto.
Qed.

End ConflictFacts.

Section ConflictExhausted.
Context {W : Type} `{!ClientSession W}.
Import Coro.

Lemma loop_all_conflict target upload_url get_url payload (w w' : W) o t :
  upload_loop target upload_url get_url 3 [1; 2; 3] payload 1 w = (o, w', t) ->
  forallb is_conflict (writes t) = true ->
  o = Returned tt
  /\ (exists r1 r2 r3,
        pacing t = [inl r1; inr (inject_Z 1); inl r2; inr (inject_Z (1 * 2)); inl r3])
  /\ logged_uploaded t = false
  /\ exists text, last t = Some (EvLog Warning (ConflictWhenUploading target 3 3 text)).
Proof.
  intros Hrun Hall.
  apply conflict_pass in Hrun as (r1 & x1 & ta & t2 & g1 & w2 & -> & Ha & Hrun & Hall2);
    [|lia|exact Hall].
  apply conflict_pass in Hrun as (r2 & x2 & tb & t3 & g2 & w3 & -> & Hb & Hrun & Hall3);
    [|lia|exact Hall2].
  apply conflict_last_pass in Hrun as (-> & r3 & x3 & ->); [|lia|exact Hall3].
  pose proof (one_fetch_pacing _ _ _ Ha) as Hpa.
  pose proof (one_fetch_pacing _ _ _ Hb) as Hpb.
  destruct Ha as (_ & _ & Hua), Hb as (_ & _ & Hub).
  split; [reflexivity|]. split; [|split].
  - exists r1, r2, r3.
    rewrite !pacing_app, Hpa, Hpb. reflexivity.
  - rewrite !logged_uploaded_app, Hua, Hub. reflexivity.
  - exists x3.
    rewrite !app_assoc.
    change [EvPut upload_url
              (payload_after g2 (payload_after g1 payload)) r3;
            EvLog Warning (ConflictWhenUploading target 3 3 x3)]
      with ([EvPut upload_url
               (payload_after g2 (payload_after g1 payload)) r3]
            ++ [EvLog Warning (ConflictWhenUploading target 3 3 x3)]).
    rewrite app_assoc. apply last_snoc.
Qed.

End ConflictExhausted.

Section TaskLoop.
Context {W : Type} `{!ClientSession W}.
Import Coro.

Variables (download_url repo_full_name file_path file_name : string).

Let target := target_path repo_full_name file_path file_name.
Let get_url := destination_get_url (Quote.quote target).
Let upload_url := destination_upload_url (Quote.quote target).

(** A task that wrote at all went through the download and the lookup
    and then ran the retry loop, three attempts at most, from a delay
    of one second. *)
Lemma task_reaches_loop (w w' : W) o t :
  upload_verilog_file_to_target download_url repo_full_name file_path file_name w
  = (o, w', t) ->
  writes t <> [] ->
  exists content r0 g0 t0 tl w2,
    t = t0 ++ tl
    /\ requests t0 = [EvGet download_url r0; EvGet get_url g0]
    /\ pacing t0 = []
    /\ logged_uploaded t0 = false
    /\ upload_loop target upload_url get_url 3 [1; 2; 3]
         (payload_after g0 (initial_payload target (Base64.b64encode content))) 1 w2
       = (o, w', tl).
Proof.
  intros Hrun Hw.
  destruct (upload_task_run download_url repo_full_name file_path file_name w)
    as (td & Htask & Hd).
  rewrite Hrun in Htask.
  pose proof (one_fetch_writes _ _ _ Hd) as [Hwd _].
  destruct (download download_url w) as [[od w1] td'] eqn:Hdl. simpl in Htask.
  destruct od as [[content|]|e|];
    try (injection Htask as -> -> ->; contradiction).
  destruct (copy_sha (body_if_ok (fst (session_get get_url w1)))
              (initial_payload target (Base64.b64encode content)))
    as [e|payload] eqn:Hcopy.
  - destruct (upload_content_raises repo_full_name file_path file_name content w1 e
                Hcopy) as (tc & Hc & Hone).
    rewrite Hc in Htask. injection Htask as -> -> ->.
    pose proof (one_fetch_writes _ _ _ Hone) as [Hwc _].
    rewrite writes_app, Hwd, Hwc in Hw. contradiction.
  - destruct (upload_content_enters_loop repo_full_name file_path file_name content
                w1 payload Hcopy) as (tc & Hc & Hone).
    fold target get_url upload_url in Hc. rewrite Hc in Htask.
    destruct (upload_loop _ _ _ _ _ _ _ _) as [[o3 w3] tl] eqn:Hloop.
    injection Htask as -> -> ->.
    exists content, (fst (session_get download_url w)), (fst (session_get get_url w1)).
    eexists (td ++ tc ++ [_]), tl, _.
    split; [now rewrite <- !app_assoc|].
    assert (Hp : payload_after (fst (session_get get_url w1))
                   (initial_payload target (Base64.b64encode content)) = payload).
    { unfold payload_after. now rewrite Hcopy. }
    rewrite Hp. split; [|split; [|split]].
    + rewrite !requests_app.
      destruct Hd as (-> & _), Hone as (-> & _). reflexivity.
    + rewrite !pacing_app, (one_fetch_pacing _ _ _ Hd), (one_fetch_pacing _ _ _ Hone).
      reflexivity.
    + rewrite !logged_uploaded_app.
      destruct Hd as (_ & _ & ->), Hone as (_ & _ & ->). simpl.
      now destruct (Py.truthy _).
    + exact Hloop.
Qed.

End TaskLoop.

(** ** Conflict on every attempt *)

Section Exhausted.
Context {W : Type} `{!ClientSession W}.

(** C2, amended: a task whose write attempts are all answered 409 with
    a body that can be read ([is_conflict]) makes three attempts, sleeps
    1 second before the second and twice that before the third, never
    logs the success line, and ends on the warning for the conflict of
    attempt 3 of 3, returning normally. *)
Theorem conflict_exhausted
    (download_url repo_full_name file_path file_name : string) (w w' : W) o t :
  upload_verilog_file_to_target download_url repo_full_name file_path file_name w
  = (o, w', t) ->
  writes t <> [] ->
  forallb is_conflict (writes t) = true ->
  o = Returned tt
  /\ (exists r1 r2 r3,
        pacing t = [inl r1; inr (inject_Z 1); inl r2; inr (inject_Z (1 * 2)); inl r3])
  /\ logged_uploaded t = false
  /\ exists text,
       last t = Some (EvLog Warning
                        (ConflictWhenUploading
                           (target_path repo_full_name file_path file_name) 3 3 text)).
Proof.
  intros Hrun Hw Hall.
  apply task_reaches_loop in Hrun
    as (content & r0 & g0 & t0 & tl & w2 & -> & Hreq & Hpace & Hup & Hloop);
    [|exact Hw].
  assert (Hw0 : writes t0 = []) by now rewrite <- writes_requests, Hreq.
  rewrite writes_app, Hw0 in Hall. simpl in Hall.
  destruct (loop_all_conflict _ _ _ _ _ _ _ _ Hloop Hall)
    as (-> & (r1 & r2 & r3 & Hp) & Hu & text & Hlast).
  split; [reflexivity|]. split; [|split].
  - exists r1, r2, r3. now rewrite pacing_app, Hpace, Hp.
  - now rewrite logged_uploaded_app, Hup, Hu.
  - exists text. destruct tl as [|ev tl] using rev_ind; [discriminate|].
    rewrite last_snoc in Hlast. rewrite app_assoc, last_snoc. exact Hlast.
Qed.

End Exhausted.

Lemma conflict_exhausted_witness :
  fst (fst (upload_alu always_conflicting)) = Returned tt
  /\ (exists r1 r2 r3,
        pacing (snd (upload_alu always_conflicting))
        = [inl r1; inr (inject_Z 1); inl r2; inr (inject_Z (1 * 2)); inl r3])
  /\ logged_uploaded (snd (upload_alu always_conflicting)) = false
  /\ exists text,
       last (snd (upload_alu always_conflicting))
       = Some (EvLog Warning (ConflictWhenUploading alu_target 3 3 text)).
Proof.
  apply (conflict_exhausted "https://raw/alu.v" "alice/cpu" "rtl/alu.v" "alu.v"
           always_conflicting (snd (fst (upload_alu always_conflicting)))).
  - unfold upload_alu.
    destruct (upload_verilog_file_to_target _ _ _ _ _) as [[o w'] t]. reflexivity.
  - vm_compute. discriminate.
  - vm_compute. reflexivity.
Defined.

(** ** Two conflicts, then success *)

Section Recovery.
Context {W : Type} `{!ClientSession W}.
Import Coro.

Variables (target upload_url get_url : string) (max_retries : Z).

Let loop := upload_loop target upload_url get_url max_retries.

(** The first write of a pass is the first write of the rest of the
    run. *)
Lemma first_write attempt rest payload delay (w w' : W) o t r ws :
  loop (attempt :: rest) payload delay w = (o, w', t) ->
  writes t = r :: ws ->
  fst (session_put upload_url payload w) = r.
Proof.
  intros Hrun Hw.
  destruct (loop_head target upload_url get_url max_retries attempt rest
              payload delay w) as (o0 & w0 & t' & Hhead).
  fold loop in Hhead. rewrite Hrun in Hhead. injection Hhead as _ _ ->.
  simpl in Hw. now injection Hw as ->.
Qed.

(** A pass whose write is answered 409, attempts left. *)
Lemma conflict_then attempt rest payload delay (w w' : W) o t r ws :
  attempt < max_retries ->
  loop (attempt :: rest) payload delay w = (o, w', t) ->
  writes t = r :: ws ->
  is_conflict r = true ->
  exists text t1 t2 g w2,
    t = ([EvPut upload_url payload r;
          EvLog Warning (ConflictWhenUploading target attempt max_retries text)]
         ++ t1 ++ [EvSleep (inject_Z delay)]) ++ t2
    /\ one_fetch t1 get_url g
    /\ loop rest (payload_after g payload) (delay * 2) w2 = (o, w', t2)
    /\ writes t2 = ws.
Proof.
  intros Hlt Hrun Hw Hr.
  pose proof (first_write _ _ _ _ _ _ _ _ _ _ Hrun Hw) as Hfst.
  destruct (session_put upload_url payload w) as [r' w1] eqn:Hput.
  simpl in Hfst. subst r'.
  destruct (loop_conflict_retry target upload_url get_url max_retries attempt rest
              payload delay w w1 r Hput Hr Hlt) as (text & t1 & Hstep & Hone).
  fold loop in Hstep. rewrite Hrun in Hstep.
  destruct (loop rest _ _ _) as [[o2 w3] t2] eqn:Hrest.
  injection Hstep as -> -> ->.
  exists text, t1, t2, (fst (session_get get_url w1)), (snd (session_get get_url w1)).
  repeat split; try apply Hone; try exact Hrest.
  simpl in Hw. rewrite writes_app, writes_app in Hw.
  rewrite (proj1 (one_fetch_writes _ _ _ Hone)) in Hw. simpl in Hw.
  now injection Hw.
Qed.

(** A pass whose write is answered 200 or 201. *)
Lemma success_then attempt rest payload delay (w w' : W) o t r ws :
  loop (attempt :: rest) payload delay w = (o, w', t) ->
  writes t = r :: ws ->
  is_success r = true ->
  o = Returned tt
  /\ t = [EvPut upload_url payload r; EvLog Info (Uploaded target)].
Proof.
  intros Hrun Hw Hr.
  pose proof (first_write _ _ _ _ _ _ _ _ _ _ Hrun Hw) as Hfst.
  destruct (session_put upload_url payload w) as [r' w1] eqn:Hput.
  simpl in Hfst. subst r'.
  pose proof (loop_success target upload_url get_url max_retries attempt rest
                payload delay w w1 r Hput Hr) as Hstep.
  fold loop in Hstep. rewrite Hrun in Hstep. now injection Hstep as -> -> ->.
Qed.

End Recovery.

Section RecoveryTask.
Context {W : Type} `{!ClientSession W}.

Lemma payload_after_sha (g : reply) (token : json) (payload : gmap string json) :
  carries_token g token -> payload_after g payload !! "sha" = Some token.
Proof.
  intros Hg. rewrite (payload_after_token g token payload Hg).
  apply lookup_insert_eq.
Qed.

(** C3, amended: a task whose writes are answered 409 and 409, each
    with a body that can be read ([is_conflict]), and then 200 (or 201)
    succeeds; between two consecutive writes it looks the destination
    up again, and the payload of the next write is the previous one
    with the token of that lookup copied in; it sleeps after the lookup
    and before the write. *)
Theorem retry_refetches_token
    (download_url repo_full_name file_path file_name : string) (w w' : W) o t
    (r1 r2 r3 : reply) :
  upload_verilog_file_to_target download_url repo_full_name file_path file_name w
  = (o, w', t) ->
  writes t = [r1; r2; r3] ->
  is_conflict r1 = true ->
  is_conflict r2 = true ->
  is_success r3 = true ->
  let target := target_path repo_full_name file_path file_name in
  let get_url := destination_get_url (Quote.quote target) in
  let upload_url := destination_upload_url (Quote.quote target) in
  o = Returned tt
  /\ logged_uploaded t = true
  /\ last t = Some (EvLog Info (Uploaded target))
  /\ pacing t = [inl r1; inr (inject_Z 1); inl r2; inr (inject_Z (1 * 2)); inl r3]
  /\ exists r0 g0 g1 g2 p1,
       requests t
       = [EvGet download_url r0; EvGet get_url g0;
          EvPut upload_url p1 r1;
          EvGet get_url g1;
          EvPut upload_url (payload_after g1 p1) r2;
          EvGet get_url g2;
          EvPut upload_url (payload_after g2 (payload_after g1 p1)) r3]
       /\ (forall token, carries_token g1 token ->
             payload_after g1 p1 !! "sha" = Some token)
       /\ (forall token, carries_token g2 token ->
             payload_after g2 (payload_after g1 p1) !! "sha" = Some token).
Proof.
  intros Hrun Hw H1 H2 H3 target get_url upload_url.
  apply task_reaches_loop in Hrun
    as (content & r0 & g0 & t0 & tl & w2 & -> & Hreq & Hpace & Hup & Hloop);
    [|rewrite Hw; discriminate].
  fold target get_url upload_url in Hloop, Hreq.
  assert (Hw0 : writes t0 = []) by now rewrite <- writes_requests, Hreq.
  rewrite writes_app, Hw0 in Hw. simpl in Hw.
  eapply conflict_then in Hloop
    as (x1 & ta & t2 & g1 & wa & -> & Ha & Hloop & Hw2); [|lia|exact Hw|exact H1].
  eapply conflict_then in Hloop
    as (x2 & tb & t3 & g2 & wb & -> & Hb & Hloop & Hw3); [|lia|exact Hw2|exact H2].
  eapply success_then in Hloop as (-> & ->); [|exact Hw3|exact H3].
  pose proof (one_fetch_pacing _ _ _ Ha) as Hpa.
  pose proof (one_fetch_pacing _ _ _ Hb) as Hpb.
  destruct Ha as (Hra & _ & Hua), Hb as (Hrb & _ & Hub).
  split; [reflexivity|]. split; [|split; [|split]].
  - rewrite !logged_uploaded_app. simpl. now rewrite !orb_true_r.
  - rewrite !app_assoc.
    match goal with
    | |- last (?l ++ [?a; ?b]) = _ =>
        change (l ++ [a; b]) with (l ++ [a] ++ [b]); rewrite app_assoc
    end.
    apply last_snoc.
  - rewrite !pacing_app, Hpace, Hpa, Hpb. reflexivity.
  - exists r0, g0, g1, g2, (payload_after g0 (initial_payload target
                                                (Base64.b64encode content))).
    split; [|split].
    + rewrite !requests_app, Hreq, Hra, Hrb. reflexivity.
    + intros token. apply payload_after_sha.
    + intros token. apply payload_after_sha.
Qed.

End RecoveryTask.

(** ** The lookup before the first write *)

Section Lookup.
Context {W : Type} `{!ClientSession W}.
Import Coro.

Lemma initial_payload_no_sha (target encoded_content : string) :
  initial_payload target encoded_content !! "sha" = None.
Proof.
  unfold initial_payload.
  rewrite !lookup_insert_ne by discriminate. apply lookup_empty.
Qed.

Lemma download_ok (url : string) (w w1 : W) resp content :
  session_get url w = (inr resp, w1) ->
  resp_status resp = 200 ->
  resp_read resp = inr content ->
  download url w = (Returned (Some content), w1, [EvGet url (inr resp)]).
Proof.
  intros Hget Hs Hread.
  unfold download, try_except, bind, http_get, lift, ret.
  now rewrite Hget, Hs, Hread.
Qed.

Lemma check_existing_absent (target url : string) (w w1 : W) resp :
  session_get url w = (inr resp, w1) ->
  resp_status resp <> 200 ->
  check_existing target url w = (Returned JNull, w1, [EvGet url (inr resp)]).
Proof.
  intros Hget Hs. apply Z.eqb_neq in Hs.
  unfold check_existing, try_except, bind, http_get, lift, ret.
  now rewrite Hget, Hs.
Qed.

Lemma check_existing_found (target url : string) (w w1 : W) resp body :
  session_get url w = (inr resp, w1) ->
  resp_status resp = 200 ->
  resp_json resp = inr body ->
  check_existing target url w = (Returned body, w1, [EvGet url (inr resp)]).
Proof.
  intros Hget Hs Hj.
  unfold check_existing, try_except, bind, http_get, lift, ret.
  now rewrite Hget, Hs, Hj.
Qed.

Lemma check_existing_raised (target url : string) (w w1 : W) e :
  session_get url w = (inl e, w1) ->
  check_existing target url w
  = (Returned JNull, w1,
     [EvGet url (inl e); EvLog Exception (ExceptionCheckingExists target e)]).
Proof.
  intros Hget.
  unfold check_existing, try_except, bind, http_get, lift, ret, log, emit.
  now rewrite Hget.
Qed.

Variables (download_url repo_full_name file_path file_name : string).

Let target := target_path repo_full_name file_path file_name.
Let get_url := destination_get_url (Quote.quote target).
Let upload_url := destination_upload_url (Quote.quote target).

(** From the download and the lookup to the first write. *)
Lemma task_first_write (w w1 w2 : W) content existing td tc payload :
  download download_url w = (Returned (Some content), w1, td) ->
  check_existing target get_url w1 = (Returned existing, w2, tc) ->
  copy_sha existing (initial_payload target (Base64.b64encode content)) = inr payload ->
  exists o w' r t',
    upload_verilog_file_to_target download_url repo_full_name file_path file_name w
    = (o, w',
       td ++ tc
       ++ [EvLog Info (if Py.truthy existing
                       then UpdatingFile target else UploadingFile target);
           EvPut upload_url payload r] ++ t').
Proof.
  intros Hd Hc Hcopy.
  destruct (loop_head target upload_url get_url 3 1 [2; 3] payload 1 w2)
    as (o & w' & t' & Hloop).
  exists o, w', (fst (session_put upload_url payload w2)), t'.
  unfold upload_verilog_file_to_target.
  erewrite bind_returned by exact Hd.
  unfold upload_content. fold target. fold get_url. fold upload_url.
  erewrite bind_returned by exact Hc.
  unfold bind at 1. rewrite Hcopy. unfold lift at 1, ret at 1.
  unfold bind at 1, log at 1, emit at 1.
  change (range 1 (3 + 1)) with [1; 2; 3]. rewrite Hloop. reflexivity.
Qed.

(** C4: when the lookup of the destination is answered with a status
    other than 200, the task announces an upload and its first write
    carries the payload as first built, which has no ["sha"] field; when
    the lookup is answered 200 with a token, the task announces an
    update and its first write carries that token under ["sha"]. *)
Theorem lookup_decides_token (w w1 w2 : W) resp0 content resp :
  session_get download_url w = (inr resp0, w1) ->
  resp_status resp0 = 200 ->
  resp_read resp0 = inr content ->
  session_get get_url w1 = (inr resp, w2) ->
  let first := initial_payload target (Base64.b64encode content) in
  (resp_status resp <> 200 ->
   first !! "sha" = None
   /\ exists o w' r t',
        upload_verilog_file_to_target download_url repo_full_name file_path
          file_name w
        = (o, w',
           [EvGet download_url (inr resp0); EvGet get_url (inr resp);
            EvLog Info (UploadingFile target);
            EvPut upload_url first r] ++ t'))
  /\ (forall token,
        carries_token (inr resp) token ->
        <["sha" := token]> first !! "sha" = Some token
        /\ exists o w' r t',
             upload_verilog_file_to_target download_url repo_full_name file_path
               file_name w
             = (o, w',
                [EvGet download_url (inr resp0); EvGet get_url (inr resp);
                 EvLog Info (UpdatingFile target);
                 EvPut upload_url (<["sha" := token]> first) r] ++ t')).
Proof.
  intros Hdl Hs0 Hread Hget first. split.
  - intros Hs. split; [apply initial_payload_no_sha|].
    exact (task_first_write w w1 w2 content JNull _ _ first
             (download_ok _ _ _ _ _ Hdl Hs0 Hread)
             (check_existing_absent target _ _ _ _ Hget Hs) eq_refl).
  - intros token (resp' & fields & Heq & Hs & Hj & Hsha).
    injection Heq as <-. split; [apply lookup_insert_eq|].
    destruct fields as [|kv fields]; [discriminate|].
    assert (Hcopy : copy_sha (JObj (kv :: fields)) first
                    = inr (<["sha" := token]> first)).
    { unfold copy_sha, and_then, Py.contains, Py.getitem. simpl Py.truthy.
      cbv iota. rewrite Hsha. reflexivity. }
    exact (task_first_write w w1 w2 content (JObj (kv :: fields)) _ _ _
             (download_ok _ _ _ _ _ Hdl Hs0 Hread)
             (check_existing_found target _ _ _ _ _ Hget Hs Hj) Hcopy).
Qed.

(** C10: when the lookup of the destination raises, the exception is
    logged and goes no further; the task announces an upload and its
    first write carries the payload as first built, which has no
    ["sha"] field, whatever the destination holds. *)
Theorem lookup_exception_means_create (w w1 w2 : W) resp0 content e :
  session_get download_url w = (inr resp0, w1) ->
  resp_status resp0 = 200 ->
  resp_read resp0 = inr content ->
  session_get get_url w1 = (inl e, w2) ->
  let first := initial_payload target (Base64.b64encode content) in
  first !! "sha" = None
  /\ exists o w' r t',
       upload_verilog_file_to_target download_url repo_full_name file_path file_name w
       = (o, w',
          [EvGet download_url (inr resp0); EvGet get_url (inl e);
           EvLog Exception (ExceptionCheckingExists target e);
           EvLog Info (UploadingFile target);
           EvPut upload_url first r] ++ t').
Proof.
  intros Hdl Hs0 Hread Hget first. split; [apply initial_payload_no_sha|].
  exact (task_first_write w w1 w2 content JNull _ _ first
           (download_ok _ _ _ _ _ Hdl Hs0 Hread)
           (check_existing_raised target _ _ _ _ Hget) eq_refl).
Qed.

End Lookup.

(** ** Hard failures and exceptions *)

Section Terminal.
Context {W : Type} `{!ClientSession W}.
Import Coro.

Variables (target upload_url get_url : string) (max_retries : Z).

Let loop := upload_loop target upload_url get_url max_retries.

Lemma kinds_exclusive (r : reply) :
  is_hard_failure r = true ->
  is_success r = false /\ is_conflict r = false /\ raised_in_write r = None.
Proof.
  destruct r as [e|resp]; simpl; [discriminate|].
  intros [[Hs Hc]%andb_prop Ht]%andb_prop.
  apply negb_true_iff in Hs, Hc. rewrite Hs, Hc.
  destruct (resp_text resp); [discriminate|]. auto.
Qed.

(** What a pass does with the run: it ends it, having made one write,
    or it hands over to the remaining attempts, having made one write
    that was not a hard failure. *)
Lemma pass_cases attempt rest payload delay (w w' : W) o t :
  loop (attempt :: rest) payload delay w = (o, w', t) ->
  let r := fst (session_put upload_url payload w) in
  (o = Returned tt
   /\ exists call msg,
        t = [EvPut upload_url payload r; EvLog call msg]
        /\ (is_hard_failure r = true ->
            exists resp text,
              r = inr resp /\ resp_text resp = inr text /\ call = Error
              /\ msg = FailedToUpload target (resp_status resp) text))
  \/ (is_hard_failure r = false
      /\ exists t1 t2 payload' delay' w2,
           t = (EvPut upload_url payload r :: t1) ++ t2
           /\ writes t1 = []
           /\ loop rest payload' delay' w2 = (o, w', t2)).
Proof.
  intros Hrun r. subst r.
  destruct (session_put upload_url payload w) as [r w1] eqn:Hput. simpl.
  destruct (write_reply_cases r) as [Hk|[Hk|[Hk|[e Hk]]]].
  - left. unfold loop in Hrun.
    erewrite loop_success in Hrun by eassumption.
    injection Hrun as <- <- <-. split; [reflexivity|].
    eexists _, _. split; [reflexivity|].
    intros (Hs & _)%kinds_exclusive. congruence.
  - right. split.
    { destruct (is_hard_failure r) eqn:Hh; [|reflexivity].
      apply kinds_exclusive in Hh as (_ & Hc & _). congruence. }
    destruct (Z.lt_ge_cases attempt max_retries) as [Hlt|Hge].
    + destruct (loop_conflict_retry target upload_url get_url max_retries attempt
                  rest payload delay w w1 r Hput Hk Hlt)
        as (text & t1 & Hstep & Hone).
      fold loop in Hstep. rewrite Hrun in Hstep.
      destruct (loop rest _ _ _) as [[o2 w3] t2] eqn:Hrest.
      injection Hstep as -> -> ->.
      eexists (_ :: t1 ++ [_]), t2, _, _, _.
      split; [reflexivity|]. split; [|exact Hrest].
      simpl. rewrite writes_app, (proj1 (one_fetch_writes _ _ _ Hone)). reflexivity.
    + apply is_conflict_inv in Hk as (resp & text & -> & Hs & Ht).
      unfold loop in Hrun. simpl in Hrun.
      erewrite bind_returned in Hrun by (eapply attempt_conflict_last; eauto).
      simpl in Hrun.
      destruct (upload_loop target upload_url get_url max_retries rest payload
                  delay w1) as [[o2 w3] t2] eqn:Hrest.
      injection Hrun as <- <- <-.
      eexists [_], t2, _, _, _. split; [reflexivity|]. split; [reflexivity|].
      exact Hrest.
  - left.
    destruct (is_hard_failure_inv r Hk) as (resp & text & -> & Ht).
    unfold loop in Hrun. erewrite loop_hard_failure in Hrun by eassumption.
    injection Hrun as <- <- <-. split; [reflexivity|].
    eexists _, _. split; [reflexivity|]. intros _. exists resp, text. auto.
  - assert (Hh : is_hard_failure r = false).
    { destruct (is_hard_failure r) eqn:Hh; [|reflexivity].
      apply kinds_exclusive in Hh as (_ & _ & Hc). congruence. }
    destruct (Z.lt_ge_cases attempt max_retries) as [Hlt|Hge].
    + right. split; [exact Hh|].
      unfold loop in Hrun. erewrite loop_exception_retry in Hrun by eassumption.
      destruct (upload_loop target upload_url get_url max_retries rest payload
                  (delay * 2) w1) as [[o2 w3] t2] eqn:Hrest.
      injection Hrun as <- <- <-.
      eexists [_; _], t2, _, _, _. split; [reflexivity|]. split; [reflexivity|].
      exact Hrest.
    + left. unfold loop in Hrun.
      erewrite loop_exception_last in Hrun by eassumption.
      injection Hrun as <- <- <-. split; [reflexivity|].
      eexists _, _. split; [reflexivity|]. congruence.
Qed.

(** A hard failure is the last thing a run of the loop does: the failing
    write is its last write and the error line its last event. *)
Lemma hard_failure_ends_loop attempts payload delay (w w' : W) o t ws r ws' :
  loop attempts payload delay w = (o, w', t) ->
  writes t = ws ++ r :: ws' ->
  is_hard_failure r = true ->
  ws' = [] /\ o = Returned tt
  /\ exists pre payload' resp text,
       r = inr resp /\ resp_text resp = inr text
       /\ t = pre ++ [EvPut upload_url payload' r;
                      EvLog Error (FailedToUpload target (resp_status resp) text)].
Proof.
  revert payload delay w t ws.
  induction attempts as [|attempt rest IH]; intros payload delay w t ws Hrun Hw Hr.
  - injection Hrun as <- <- <-. now destruct ws.
  - destruct (pass_cases attempt rest payload delay w w' o t Hrun)
      as [(-> & call & msg & -> & Hev)
         |(Hh & t1 & t2 & p' & d' & w2 & -> & Hw1 & Hrest)].
    + simpl in Hw.
      destruct ws as [|x ws]; simpl in Hw.
      * injection Hw as <- <-. split; [reflexivity|]. split; [reflexivity|].
        destruct (Hev Hr) as (resp & text & Heq & Ht & -> & ->).
        exists [], payload, resp, text. auto.
      * injection Hw as _ Hw. now destruct ws.
    + simpl in Hw. rewrite writes_app, Hw1 in Hw. simpl in Hw.
      destruct ws as [|x ws]; simpl in Hw.
      * injection Hw as <- _. congruence.
      * injection Hw as _ Hw.
        destruct (IH p' d' w2 t2 ws Hrest Hw Hr)
          as (-> & -> & pre & p'' & resp & text & Heq & Ht & ->).
        split; [reflexivity|]. split; [reflexivity|].
        exists ((EvPut upload_url payload (fst (session_put upload_url payload w))
                 :: t1) ++ pre), p'', resp, text.
        split; [exact Heq|]. split; [exact Ht|]. now rewrite app_assoc.
Qed.

(** An exception during a write, in a loop that runs the attempts
    [a], [a + 1], ... up to [max_retries]: with attempts left the loop
    logs it, sleeps the delay it has reached and writes again, the same
    payload; on the last attempt it logs it and is over. *)
Lemma exception_in_loop (k : nat) :
  forall a payload delay (w w' : W) o t ws r ws' e,
    max_retries = a + Z.of_nat k - 1 ->
    loop (seqZ a (Z.of_nat k)) payload delay w = (o, w', t) ->
    writes t = ws ++ r :: ws' ->
    raised_in_write r = Some e ->
    ((S (length ws) < k)%nat ->
     exists pre payload' r' post,
       t = pre ++ [EvPut upload_url payload' r;
                   EvLog Exception (ExceptionWhileUploading target e);
                   EvSleep (inject_Z (delay * 2 ^ Z.of_nat (length ws)));
                   EvPut upload_url payload' r'] ++ post)
    /\ (S (length ws) = k ->
        ws' = [] /\ o = Returned tt
        /\ exists pre payload',
             t = pre ++ [EvPut upload_url payload' r;
                         EvLog Exception (ExceptionWhileUploading target e)]).
Proof.
  induction k as [|k IH]; intros a payload delay w w' o t ws r ws' e HM Hrun Hw Hr.
  { injection Hrun as <- <- <-. now destruct ws. }
  rewrite seqZ_cons in Hrun by lia.
  replace (Z.pred (Z.of_nat (S k))) with (Z.of_nat k) in Hrun by lia.
  destruct (session_put upload_url payload w) as [r1 w1] eqn:Hput.
  assert (Hends : forall call msg,
             t = [EvPut upload_url payload r1; EvLog call msg] ->
             ws = [] /\ r1 = r /\ ws' = []).
  { intros call msg ->. simpl in Hw.
    destruct ws as [|x [|y ws]]; simpl in Hw; now injection Hw. }
  assert (Hgoes : forall x t2,
             t = x ++ t2 -> writes x = [r1] ->
             (ws = [] /\ r1 = r)
             \/ exists ws2, ws = r1 :: ws2 /\ writes t2 = ws2 ++ r :: ws').
  { intros x t2 -> Hx. rewrite writes_app, Hx in Hw. simpl in Hw.
    destruct ws as [|y ws]; simpl in Hw; injection Hw as <- Hw; eauto. }
  assert (Hcont : forall x t2 ws2 payload' w2,
             t = x ++ t2 -> ws = r1 :: ws2 -> writes t2 = ws2 ++ r :: ws' ->
             loop (seqZ (Z.succ a) (Z.of_nat k)) payload' (delay * 2) w2 = (o, w', t2) ->
             ((S (length ws) < S k)%nat ->
              exists pre payload' r' post,
                t = pre ++ [EvPut upload_url payload' r;
                            EvLog Exception (ExceptionWhileUploading target e);
                            EvSleep (inject_Z (delay * 2 ^ Z.of_nat (length ws)));
                            EvPut upload_url payload' r'] ++ post)
             /\ (S (length ws) = S k ->
                 ws' = [] /\ o = Returned tt
                 /\ exists pre payload',
                      t = pre ++ [EvPut upload_url payload' r;
                                  EvLog Exception (ExceptionWhileUploading target e)])).
  { intros x t2 ws2 p' w2 -> -> Hw2 Hrest.
    destruct (IH (Z.succ a) _ _ _ _ _ _ _ _ _ _ ltac:(lia) Hrest Hw2 Hr)
      as [IHa IHb].
    split; intros Hlen; simpl in Hlen.
    - destruct IHa as (pre & p'' & r' & post & ->); [lia|].
      exists (x ++ pre), p'', r', post.
      rewrite <- app_assoc. simpl length.
      rewrite Nat2Z.inj_succ, Z.pow_succ_r by lia.
      now replace (delay * (2 * 2 ^ Z.of_nat (length ws2)))
        with (delay * 2 * 2 ^ Z.of_nat (length ws2)) by lia.
    - destruct IHb as (-> & -> & pre & p'' & ->); [lia|].
      split; [reflexivity|]. split; [reflexivity|].
      exists (x ++ pre), p''. now rewrite <- app_assoc. }
  destruct (write_reply_cases r1) as [Hk|[Hk|[Hk|[e1 Hk]]]].
  - unfold loop in Hrun. erewrite loop_success in Hrun by eassumption.
    injection Hrun as <- <- <-.
    destruct (Hends _ _ eq_refl) as (-> & <- & ->).
    destruct r1 as [?|resp]; simpl in Hk, Hr; [discriminate|].
    rewrite Hk in Hr. discriminate.
  - assert (Hno : raised_in_write r1 = None).
    { apply is_conflict_inv in Hk as (resp & text' & -> & Hs & Ht).
      simpl. rewrite Hs, Ht. reflexivity. }
    destruct (Z.lt_ge_cases a max_retries) as [Hlt|Hge].
    + destruct (loop_conflict_retry target upload_url get_url max_retries a
                  (seqZ (Z.succ a) (Z.of_nat k)) payload delay w w1 r1 Hput Hk Hlt)
        as (text & t1 & Hstep & Hone).
      fold loop in Hstep. rewrite Hrun in Hstep.
      destruct (loop (seqZ (Z.succ a) (Z.of_nat k)) _ _ _) as [[o2 w3] t2] eqn:Hrest.
      injection Hstep as Ho Hw' Ht. subst o2 w3.
      pose (x := [EvPut upload_url payload r1;
                  EvLog Warning (ConflictWhenUploading target a max_retries text)]
                 ++ t1 ++ [EvSleep (inject_Z delay)]).
      change (t = x ++ t2) in Ht.
      assert (Hx : writes x = [r1]).
      { unfold x. simpl.
        now rewrite writes_app, (proj1 (one_fetch_writes _ _ _ Hone)). }
      destruct (Hgoes x t2 Ht Hx) as [(-> & <-)|(ws2 & Hws & Hw2)];
        [congruence|].
      exact (Hcont x t2 _ _ _ Ht Hws Hw2 Hrest).
    + assert (k = 0%nat) as -> by lia.
      destruct (loop_conflict_last target upload_url get_url max_retries a
                  payload delay w w1 r1 Hput Hk Hge) as (text & Hstep).
      change (seqZ (Z.succ a) (Z.of_nat 0)) with (@nil Z) in Hrun.
      fold loop in Hstep. rewrite Hrun in Hstep. injection Hstep as -> -> ->.
      destruct (Hends _ _ eq_refl) as (-> & <- & ->). congruence.
  - destruct (is_hard_failure_inv r1 Hk) as (resp & text & -> & Ht).
    unfold loop in Hrun. erewrite loop_hard_failure in Hrun by eassumption.
    injection Hrun as <- <- <-.
    destruct (Hends _ _ eq_refl) as (-> & <- & ->).
    apply kinds_exclusive in Hk as (_ & _ & Hk). congruence.
  - destruct (Z.lt_ge_cases a max_retries) as [Hlt|Hge].
    + unfold loop in Hrun. erewrite loop_exception_retry in Hrun by eassumption.
      fold loop in Hrun.
      destruct (loop (seqZ (Z.succ a) (Z.of_nat k)) payload (delay * 2) w1)
        as [[o2 w3] t2] eqn:Hrest.
      injection Hrun as Ho Hw' Ht. subst o2 w3. symmetry in Ht.
      pose (x := [EvPut upload_url payload r1;
                  EvLog Exception (ExceptionWhileUploading target e1);
                  EvSleep (inject_Z delay)]).
      change (t = x ++ t2) in Ht.
      destruct (Hgoes x t2 Ht eq_refl) as [(-> & <-)|(ws2 & Hws & Hw2)].
      * split; [|simpl; lia]. intros _.
        rewrite Hr in Hk. injection Hk as <-.
        destruct k as [|k]; [simpl in *; lia|].
        rewrite seqZ_cons in Hrest by lia.
        destruct (loop_head target upload_url get_url max_retries (Z.succ a)
                    (seqZ (Z.succ (Z.succ a)) (Z.pred (Z.of_nat (S k))))
                    payload (delay * 2) w1) as (o0 & w0 & t' & Hhead).
        fold loop in Hhead. rewrite Hrest in Hhead. injection Hhead as _ _ ->.
        exists [], payload, (fst (session_put upload_url payload w1)), t'.
        rewrite Ht. unfold x. simpl. now rewrite Z.mul_1_r.
      * exact (Hcont x t2 _ _ _ Ht Hws Hw2 Hrest).
    + assert (k = 0%nat) as -> by lia.
      unfold loop in Hrun. erewrite loop_exception_last in Hrun by eassumption.
      injection Hrun as <- <- <-.
      destruct (Hends _ _ eq_refl) as (-> & <- & ->).
      rewrite Hr in Hk. injection Hk as <-.
      split; [simpl; lia|]. intros _.
      split; [reflexivity|]. split; [reflexivity|].
      exists [], payload. reflexivity.
Qed.

End Terminal.

Section TerminalTask.
Context {W : Type} `{!ClientSession W}.

Variables (download_url repo_full_name file_path file_name : string).

Let target := target_path repo_full_name file_path file_name.
Let upload_url := destination_upload_url (Quote.quote target).

(** C8, amended: a write that is answered with a status other than 200,
    201 and 409 and with a body that can be read ([is_hard_failure]) is
    the last write of its task, whatever the number of attempts made
    before: the task logs the failure with the status and the body of
    the answer and returns at once. *)
Theorem hard_failure_is_terminal (w w' : W) o t ws r ws' :
  upload_verilog_file_to_target download_url repo_full_name file_path file_name w
  = (o, w', t) ->
  writes t = ws ++ r :: ws' ->
  is_hard_failure r = true ->
  ws' = [] /\ o = Returned tt
  /\ exists pre payload resp text,
       r = inr resp /\ resp_text resp = inr text
       /\ t = pre ++ [EvPut upload_url payload r;
                      EvLog Error (FailedToUpload target (resp_status resp) text)].
Proof.
  intros Hrun Hw Hr.
  apply task_reaches_loop in Hrun
    as (content & r0 & g0 & t0 & tl & w2 & -> & Hreq & _ & _ & Hloop);
    [|rewrite Hw; now destruct ws].
  assert (Hw0 : writes t0 = []) by now rewrite <- writes_requests, Hreq.
  rewrite writes_app, Hw0 in Hw. simpl in Hw.
  destruct (hard_failure_ends_loop _ _ _ _ _ _ _ _ _ _ _ _ _ _ Hloop Hw Hr)
    as (-> & -> & pre & p & resp & text & Heq & Ht & ->).
  split; [reflexivity|]. split; [reflexivity|].
  exists (t0 ++ pre), p, resp, text.
  split; [exact Heq|]. split; [exact Ht|]. now rewrite app_assoc.
Qed.

(** C7, amended: when a write attempt raises, by the request or by
    reading the body of an answer, and attempts remain, the task logs
    the exception, sleeps the delay the schedule has reached (1 second
    after the first attempt, 2 after the second, as after a conflict)
    and writes again with the very same payload, without looking the
    destination up; when it was the third attempt the task logs the
    exception and returns. *)
Theorem exception_backs_off_without_refetch (w w' : W) o t ws r ws' e :
  upload_verilog_file_to_target download_url repo_full_name file_path file_name w
  = (o, w', t) ->
  writes t = ws ++ r :: ws' ->
  raised_in_write r = Some e ->
  ((length ws < 2)%nat ->
   exists pre payload r' post,
     t = pre ++ [EvPut upload_url payload r;
                 EvLog Exception (ExceptionWhileUploading target e);
                 EvSleep (inject_Z (2 ^ Z.of_nat (length ws)));
                 EvPut upload_url payload r'] ++ post)
  /\ ((length ws = 2)%nat ->
      ws' = [] /\ o = Returned tt
      /\ exists pre payload,
           t = pre ++ [EvPut upload_url payload r;
                       EvLog Exception (ExceptionWhileUploading target e)]).
Proof.
  intros Hrun Hw Hr.
  apply task_reaches_loop in Hrun
    as (content & r0 & g0 & t0 & tl & w2 & -> & Hreq & _ & _ & Hloop);
    [|rewrite Hw; now destruct ws].
  assert (Hw0 : writes t0 = []) by now rewrite <- writes_requests, Hreq.
  rewrite writes_app, Hw0 in Hw. simpl in Hw.
  change [1; 2; 3] with (seqZ 1 (Z.of_nat 3)) in Hloop.
  destruct (exception_in_loop _ _ _ 3 3%nat 1 _ _ _ _ _ _ _ _ _ _ eq_refl Hloop Hw Hr)
    as [Ha Hb].
  split; intros Hlen.
  - destruct Ha as (pre & p & r' & post & ->); [lia|].
    exists (t0 ++ pre), p, r', post.
    rewrite Z.mul_1_l. now rewrite app_assoc.
  - destruct Hb as (-> & -> & pre & p & ->); [lia|].
    split; [reflexivity|]. split; [reflexivity|].
    exists (t0 ++ pre), p. now rewrite app_assoc.
Qed.

End TerminalTask.

(** ** The fetcher *)

Section Fetcher.
Context {W : Type} `{!ClientSession W}.

(** C5: for every URL and every way the remote side can behave,
    [fetch_json] makes one GET and returns: the parsed body when the
    status is 200, and [None] on any other status and when the request
    or the parsing raises.  No exception leaves it. *)
Theorem fetch_json_never_raises (url : string) (w : W) :
  exists t,
    fetch_json url w
    = (Returned (match fst (session_get url w) with
                 | inr resp =>
                     if resp_status resp =? 200
                     then match resp_json resp with
                          | inr body => body
                          | inl _ => JNull
                          end
                     else JNull
                 | inl _ => JNull
                 end),
       snd (session_get url w), t)
    /\ fetched t = [url].
Proof.
  destruct (fetch_json_run url w) as (t & Hrun & Hf & _).
  exists t. split; assumption.
Qed.

End Fetcher.

(** ** The tree walker *)

Section Walker.
Context {W : Type} `{!ClientSession W}.
Import Coro.

Lemma fetch_json_ok (url : string) (w w1 : W) resp body :
  session_get url w = (inr resp, w1) ->
  resp_status resp = 200 ->
  resp_json resp = inr body ->
  fetch_json url w = (Returned body, w1, [EvGet url (inr resp)]).
Proof.
  intros Hget Hs Hj.
  unfold fetch_json, try_except, bind, http_get, lift, ret.
  now rewrite Hget, Hs, Hj.
Qed.

Lemma single_task_listing (walk : string -> coro W unit) repo fields task :
  task_of_item walk repo (JObj fields) = inr (Some task) ->
  forall w, walk_listing walk repo (JObj fields) w = then_pause task w.
Proof.
  intros Htask w.
  unfold walk_listing, then_pause, bind, lift, iterate, sleep, emit, ret, raise.
  cbn [collect_tasks]. rewrite Htask. cbn [and_then gather].
  unfold bind, ret.
  destruct (task w) as [[[[]|e|] w2] t]; simpl; rewrite ?app_nil_r; reflexivity.
Qed.

Lemma task_of_dir (walk : string -> coro W unit) repo fields path :
  Py.assoc "type" fields = Some (JStr "dir") ->
  Py.assoc "path" fields = Some (JStr path) ->
  task_of_item walk repo (JObj fields) = inr (Some (walk path)).
Proof.
  intros Hty Hp. unfold task_of_item, and_then, Py.getitem.
  now rewrite Hty, Hp.
Qed.

Lemma task_of_verilog_file (walk : string -> coro W unit) repo fields url path name :
  Py.assoc "type" fields = Some (JStr "file") ->
  Py.assoc "name" fields = Some (JStr name) ->
  PyStr.endswith name ".v" = true ->
  Py.assoc "download_url" fields = Some (JStr url) ->
  Py.assoc "path" fields = Some (JStr path) ->
  task_of_item walk repo (JObj fields)
  = inr (Some (upload_verilog_file_to_target url repo path name)).
Proof.
  intros Hty Hn Hv Hu Hp. unfold task_of_item, and_then, Py.getitem, value_endswith.
  rewrite Hty. simpl. rewrite Hn, Hv, Hu, Hp. reflexivity.
Qed.

(** C6: when the listing of a path is one object instead of a list,
    the walker treats it exactly as the list of that one object; it
    walks into the object when it is a directory and uploads it when it
    is a [.v] file, then pauses and returns, and raises nothing of its
    own: the outcome is that of the one task. *)
Theorem single_object_listing (fuel : nat) (repo_full_name branch path : string)
    (w w1 : W) resp fields :
  session_get (contents_url repo_full_name branch path) w = (inr resp, w1) ->
  resp_status resp = 200 ->
  resp_json resp = inr (JObj fields) ->
  let listing := EvGet (contents_url repo_full_name branch path) (inr resp) in
  let walk := get_verilog_files_from_repo fuel repo_full_name branch in
  let after task := let '(o, w2, t) := task w1 in (o, w2, listing :: t) in
  get_verilog_files_from_repo (S fuel) repo_full_name branch path w
  = after (walk_listing walk repo_full_name (JArr [JObj fields]))
  /\ (forall dir,
        Py.assoc "type" fields = Some (JStr "dir") ->
        Py.assoc "path" fields = Some (JStr dir) ->
        get_verilog_files_from_repo (S fuel) repo_full_name branch path w
        = after (then_pause (walk dir)))
  /\ (forall url file name,
        Py.assoc "type" fields = Some (JStr "file") ->
        Py.assoc "name" fields = Some (JStr name) ->
        PyStr.endswith name ".v" = true ->
        Py.assoc "download_url" fields = Some (JStr url) ->
        Py.assoc "path" fields = Some (JStr file) ->
        get_verilog_files_from_repo (S fuel) repo_full_name branch path w
        = after (then_pause
                   (upload_verilog_file_to_target url repo_full_name file name))).
Proof.
  intros Hget Hs Hj listing walk after.
  assert (Hstep : forall task,
             (forall w', walk_listing walk repo_full_name (JObj fields) w' = task w') ->
             get_verilog_files_from_repo (S fuel) repo_full_name branch path w
             = after task).
  { intros task Htask. simpl.
    erewrite bind_returned by (eapply fetch_json_ok; eassumption).
    fold walk. rewrite Htask. unfold after.
    destruct (task w1) as [[o w2] t]. reflexivity. }
  split; [|split].
  - apply Hstep. reflexivity.
  - intros dir Hty Hp. apply Hstep.
    apply single_task_listing, task_of_dir; assumption.
  - intros url file name Hty Hn Hv Hu Hp. apply Hstep.
    apply single_task_listing, task_of_verilog_file; assumption.
Qed.

End Walker.

(** ** The repository processor *)

Section Processor.
Context {W : Type} `{!ClientSession W}.
Import Coro.

(** C9: [process_repo] resolves the default branch with one GET of the
    repository's metadata, taking the [default_branch] of the body that
    came back and ["master"] when nothing came back, logs it, and then
    runs the walker on that branch from the empty path. *)
Theorem process_repo_default_branch (fuel : nat) (repo_full_name : string) (w : W)
    (branch : string) :
  let url := GITHUB_API_URL +:+ "/repos/" +:+ repo_full_name in
  let data := body_if_ok (fst (session_get url w)) in
  let w1 := snd (session_get url w) in
  (data = JNull /\ branch = "master")
  \/ (exists fields,
        data = JObj fields /\ Py.assoc "default_branch" fields = Some (JStr branch)) ->
  exists t0,
    get_repo_default_branch repo_full_name w = (Returned (JStr branch), w1, t0)
    /\ fetched t0 = [url]
    /\ process_repo fuel repo_full_name w
       = (let '(o, w2, t) :=
            get_verilog_files_from_repo fuel repo_full_name branch EmptyString w1 in
          (o, w2,
           t0 ++ EvLog Info (ProcessingRepo repo_full_name (JStr branch)) :: t)).
Proof.
  intros url data w1 Hdata.
  destruct (fetch_json_run url w) as (tf & Hfetch & Hf & _).
  change (match fst (session_get url w) with
          | inl _ => JNull
          | inr resp => _
          end) with data in Hfetch.
  assert (Hbranch : exists t0,
             get_repo_default_branch repo_full_name w
             = (Returned (JStr branch), w1, t0) /\ fetched t0 = [url]).
  { unfold get_repo_default_branch. fold url.
    erewrite bind_returned by exact Hfetch.
    destruct Hdata as [[-> ->]|(fields & -> & Hb)].
    - simpl. eexists. split; [reflexivity|].
      now rewrite fetched_app, Hf.
    - destruct fields as [|kv fields]; [discriminate|].
      unfold Py.get. rewrite Hb. simpl. eexists. split; [reflexivity|].
      now rewrite app_nil_r. }
  destruct Hbranch as (t0 & Hb & Hf0). exists t0.
  split; [exact Hb|]. split; [exact Hf0|].
  unfold process_repo. erewrite bind_returned by exact Hb.
  unfold bind, log, emit, lift, as_str, ret. simpl.
  destruct (get_verilog_files_from_repo fuel repo_full_name branch EmptyString w1)
    as [[[[]|e|] w2] t]; reflexivity.
Qed.

End Processor.

(** ** The theorems on concrete runs *)

Lemma run_eta (w : script) :
  upload_alu w = (fst (fst (upload_alu w)), snd (fst (upload_alu w)), snd (upload_alu w)).
Proof. now destruct (upload_alu w) as [[o w'] t]. Qed.

Lemma retry_refetches_token_witness :
  fst (fst (upload_alu recovering)) = Returned tt
  /\ logged_uploaded (snd (upload_alu recovering)) = true
  /\ written (snd (upload_alu recovering)) !! 2%nat
     = Some (<["sha" := JStr "v3"]>
               (initial_payload alu_target (Base64.b64encode verilog))).
Proof.
  destruct (retry_refetches_token "https://raw/alu.v" "alice/cpu" "rtl/alu.v" "alu.v"
              recovering _ _ _ conflict conflict ok (run_eta recovering))
    as (Ho & Hup & _ & _ & r0 & g0 & g1 & g2 & p1 & Hreq & _ & Hsha).
  - vm_compute. reflexivity.
  - reflexivity.
  - reflexivity.
  - reflexivity.
  - split; [exact Ho|]. split; [exact Hup|]. vm_compute. reflexivity.
Defined.

Lemma lookup_decides_token_witness :
  (exists o w' r t',
     upload_alu absent_destination
     = (o, w',
        [EvGet "https://raw/alu.v" (file_answer verilog);
         EvGet alu_get_url not_found;
         EvLog Info (UploadingFile alu_target);
         EvPut alu_upload_url
           (initial_payload alu_target (Base64.b64encode verilog)) r] ++ t'))
  /\ (exists o w' r t',
        upload_alu present_destination
        = (o, w',
           [EvGet "https://raw/alu.v" (file_answer verilog);
            EvGet alu_get_url (with_sha "v1");
            EvLog Info (UpdatingFile alu_target);
            EvPut alu_upload_url
              (<["sha" := JStr "v1"]>
                 (initial_payload alu_target (Base64.b64encode verilog))) r] ++ t')).
Proof.
  split.
  - eapply (lookup_decides_token "https://raw/alu.v" "alice/cpu" "rtl/alu.v" "alu.v"
              absent_destination); try reflexivity.
    vm_compute. discriminate.
  - eapply (lookup_decides_token "https://raw/alu.v" "alice/cpu" "rtl/alu.v" "alu.v"
              present_destination); try reflexivity.
    eexists _, [("sha", JStr "v1")]. repeat split.
Defined.

Lemma lookup_exception_means_create_witness :
  exists o w' r t',
    upload_alu unreachable_lookup
    = (o, w',
       [EvGet "https://raw/alu.v" (file_answer verilog);
        EvGet alu_get_url refused;
        EvLog Exception
          (ExceptionCheckingExists alu_target (ClientError "connection refused"));
        EvLog Info (UploadingFile alu_target);
        EvPut alu_upload_url
          (initial_payload alu_target (Base64.b64encode verilog)) r] ++ t').
Proof.
  eapply (lookup_exception_means_create "https://raw/alu.v" "alice/cpu" "rtl/alu.v"
            "alu.v" unreachable_lookup); reflexivity.
Defined.

(** C7, as stated, fails: the first write of this task raises with two
    attempts left, and the task writes again without any request in
    between; the destination is looked up once, before the first write. *)
Lemma exception_retry_skips_refetch :
  raised_in_write refused = Some (ClientError "connection refused")
  /\ exists payload,
       requests (snd (upload_alu flaky))
       = [EvGet "https://raw/alu.v" (file_answer verilog);
          EvGet alu_get_url (with_sha "v1");
          EvPut alu_upload_url payload refused;
          EvPut alu_upload_url payload created].
Proof.
  split; [reflexivity|]. eexists. vm_compute. reflexivity.
Qed.

Lemma exception_backs_off_without_refetch_witness :
  exists pre payload r' post,
    snd (upload_alu flaky)
    = pre ++ [EvPut alu_upload_url payload refused;
              EvLog Exception
                (ExceptionWhileUploading alu_target (ClientError "connection refused"));
              EvSleep (inject_Z (2 ^ Z.of_nat 0));
              EvPut alu_upload_url payload r'] ++ post.
Proof.
  eapply (exception_backs_off_without_refetch "https://raw/alu.v" "alice/cpu"
            "rtl/alu.v" "alu.v" flaky _ _ _ [] refused [created]
            (ClientError "connection refused") (run_eta flaky)).
  - vm_compute. reflexivity.
  - reflexivity.
  - simpl. lia.
Defined.

Lemma hard_failure_is_terminal_witness :
  fst (fst (upload_alu rejected)) = Returned tt
  /\ writes (snd (upload_alu rejected)) = [unprocessable].
Proof.
  destruct (hard_failure_is_terminal "https://raw/alu.v" "alice/cpu" "rtl/alu.v" "alu.v"
              rejected _ _ _ [] unprocessable [] (run_eta rejected))
    as (_ & Ho & _).
  - vm_compute. reflexivity.
  - reflexivity.
  - split; [exact Ho|]. vm_compute. reflexivity.
Defined.

Lemma single_object_listing_witness :
  get_verilog_files_from_repo 1 "alice/cpu" "main" "rtl/alu.v" single_file_listing
  = (let '(o, w2, t) :=
       then_pause (upload_verilog_file_to_target "https://raw/alu.v" "alice/cpu"
                     "rtl/alu.v" "alu.v")
         {| get_replies := [file_answer verilog; not_found];
            put_replies := [created] |} in
     (o, w2,
      EvGet (contents_url "alice/cpu" "main" "rtl/alu.v")
        (answer 200 EmptyString (JObj alu_entry)) :: t)).
Proof.
  eapply (single_object_listing 0 "alice/cpu" "main" "rtl/alu.v" single_file_listing);
    reflexivity.
Defined.

Example single_object_listing_runs :
  fst (get_verilog_files_from_repo 1 "alice/cpu" "main" "rtl/alu.v" single_file_listing)
  = (Returned tt, {| get_replies := []; put_replies := [] |}).
Proof. vm_compute. reflexivity. Qed.

Lemma process_repo_default_branch_witness :
  exists t0,
    get_repo_default_branch "alice/cpu" empty_repository
    = (Returned (JStr "main"),
       snd (session_get (GITHUB_API_URL +:+ "/repos/" +:+ "alice/cpu") empty_repository),
       t0)
    /\ fetched t0 = [GITHUB_API_URL +:+ "/repos/" +:+ "alice/cpu"]
    /\ process_repo 1 "alice/cpu" empty_repository
       = (let '(o, w2, t) :=
            get_verilog_files_from_repo 1 "alice/cpu" "main" EmptyString
              (snd (session_get (GITHUB_API_URL +:+ "/repos/" +:+ "alice/cpu")
                      empty_repository)) in
          (o, w2, t0 ++ EvLog Info (ProcessingRepo "alice/cpu" (JStr "main")) :: t)).
Proof.
  apply (process_repo_default_branch 1 "alice/cpu" empty_repository "main").
  right. exists [("default_branch", JStr "main")]. split; reflexivity.
Defined.

Example process_repo_runs :
  fst (process_repo 1 "alice/cpu" empty_repository)
  = (Returned tt, {| get_replies := []; put_replies := [] |}).
Proof. vm_compute. reflexivity. Qed.

(** ** Answers whose body cannot be read *)

(** C2, as stated, fails: the three writes of this task are all answered
    409, but the body of no answer can be read, so every attempt ends in
    the handler of exceptions: the delays are those of a conflict, but no
    conflict is logged, at the third attempt no more than at the others,
    and the task ends on the line of an exception. *)
Lemma unread_conflicts_end_on_exception :
  let payload :=
    <["sha" := JStr "v1"]> (initial_payload alu_target (Base64.b64encode verilog)) in
  let raised :=
    EvLog Exception
      (ExceptionWhileUploading alu_target (ClientError "payload is not completed")) in
  upload_alu conflicts_unread
  = (Returned tt,
     {| get_replies := [with_sha "v2"; with_sha "v3"]; put_replies := [] |},
     [EvGet "https://raw/alu.v" (file_answer verilog);
      EvGet alu_get_url (with_sha "v1");
      EvLog Info (UpdatingFile alu_target);
      EvPut alu_upload_url payload (unread 409); raised; EvSleep 1;
      EvPut alu_upload_url payload (unread 409); raised; EvSleep 2;
      EvPut alu_upload_url payload (unread 409); raised]).
Proof. vm_compute. reflexivity. Qed.

(** C3, as stated, fails: the writes of this task are answered 409, 409
    and 200 and the task succeeds, but the body of the two 409 cannot be
    read: the destination is looked up once, before the first write, and
    never between two writes, and the three writes carry the same
    payload, with the token [v1] of that first lookup; the tokens [v2]
    and [v3] the destination would have given are never asked for. *)
Lemma unread_conflicts_skip_refetch :
  let payload :=
    <["sha" := JStr "v1"]> (initial_payload alu_target (Base64.b64encode verilog)) in
  let raised :=
    EvLog Exception
      (ExceptionWhileUploading alu_target (ClientError "payload is not completed")) in
  upload_alu recovering_unread
  = (Returned tt,
     {| get_replies := [with_sha "v2"; with_sha "v3"]; put_replies := [] |},
     [EvGet "https://raw/alu.v" (file_answer verilog);
      EvGet alu_get_url (with_sha "v1");
      EvLog Info (UpdatingFile alu_target);
      EvPut alu_upload_url payload (unread 409); raised; EvSleep 1;
      EvPut alu_upload_url payload (unread 409); raised; EvSleep 2;
      EvPut alu_upload_url payload ok;
      EvLog Info (Uploaded alu_target)]).
Proof. vm_compute. reflexivity. Qed.

(** C8, as stated, fails: the first write of this task is answered 500,
    a failure status other than 409, but the body of the answer cannot
    be read: the task logs an exception, sleeps 1 second and writes
    again, and that second write uploads the file. *)
Lemma unread_failure_is_retried :
  let payload := initial_payload alu_target (Base64.b64encode verilog) in
  upload_alu server_error_unread
  = (Returned tt, {| get_replies := []; put_replies := [] |},
     [EvGet "https://raw/alu.v" (file_answer verilog);
      EvGet alu_get_url not_found;
      EvLog Info (UploadingFile alu_target);
      EvPut alu_upload_url payload (unread 500);
      EvLog Exception
        (ExceptionWhileUploading alu_target (ClientError "payload is not completed"));
      EvSleep 1;
      EvPut alu_upload_url payload created;
      EvLog Info (Uploaded alu_target)]).
Proof. vm_compute. reflexivity. Qed.

(** * Further properties *)

(** ** Percent-encoding *)

Section QuoteFacts.

Lemma contains_append (c : ascii) (s t : string) :
  PyStr.contains c (s +:+ t) = PyStr.contains c s || PyStr.contains c t.
Proof.
  induction s as [|d s IH]; [reflexivity|].
  rewrite append_cons. simpl. now rewrite IH, orb_assoc.
Qed.

Lemma quote_append (s t : string) :
  Quote.quote (s +:+ t) = Quote.quote s +:+ Quote.quote t.
Proof.
  induction s as [|c s IH]; [reflexivity|].
  rewrite append_cons. simpl. rewrite IH.
  unfold Quote.quote_byte. destruct (Quote.safe c); reflexivity.
Qed.

(** The two digits of an escape are characters [quote] leaves alone. *)
Lemma hex_digits_safe (c : ascii) :
  Quote.safe (Quote.hex_digit (N_of_ascii c / 16)) = true
  /\ Quote.safe (Quote.hex_digit (N_of_ascii c mod 16)) = true.
Proof.
  destruct c as [[] [] [] [] [] [] [] []]; vm_compute; split; reflexivity.
Qed.

Lemma quote_byte_alphabet (c d : ascii) :
  Quote.safe d = false -> d <> "%"%char ->
  PyStr.contains d (Quote.quote_byte c) = false.
Proof.
  intros Hd Hp. unfold Quote.quote_byte.
  assert (Hne : forall x, Quote.safe x = true -> Ascii.eqb x d = false).
  { intros x Hx. apply Ascii.eqb_neq. congruence. }
  assert (Hpc : Ascii.eqb "%" d = false) by (apply Ascii.eqb_neq; congruence).
  destruct (Quote.safe c) eqn:Hc; cbn [PyStr.contains].
  - now rewrite (Hne c Hc).
  - destruct (hex_digits_safe c) as [Hhi Hlo].
    now rewrite (Hne _ Hhi), (Hne _ Hlo), Hpc.
Qed.

Lemma length_append (s t : string) :
  String.length (s +:+ t) = (String.length s + String.length t)%nat.
Proof.
  induction s as [|c s IH]; [reflexivity|].
  rewrite append_cons. simpl. now rewrite IH.
Qed.

(** Encoding never shortens. *)
Lemma quote_length_ge (s : string) :
  (String.length s <= String.length (Quote.quote s))%nat.
Proof.
  induction s as [|c s IH]; [reflexivity|].
  simpl. rewrite length_append. unfold Quote.quote_byte.
  destruct (Quote.safe c); simpl; lia.
Qed.

End QuoteFacts.

(** [quote] loses nothing. *)
Lemma quote_injective (s t : string) : Quote.quote s = Quote.quote t <-> s = t.
Proof.
  split; [apply quote_inj | now intros ->].
Qed.

(** [quote] returns its argument unchanged exactly when every character
    of it is a letter, a digit, one of [_.-~] or a slash. *)
Lemma quote_fixes_safe_strings (s : string) :
  Quote.quote s = s <-> forallb Quote.safe (list_ascii_of_string s) = true.
Proof.
  induction s as [|c s IH]; [easy|].
  simpl. unfold Quote.quote_byte.
  destruct (Quote.safe c) eqn:Hc.
  - rewrite append_cons, append_nil_l. simpl. rewrite <- IH.
    split; [now intros [= ->] | now intros ->].
  - rewrite !append_cons, append_nil_l. simpl. split; [|discriminate].
    intros [= _ Hrest]. apply (f_equal String.length) in Hrest.
    pose proof (quote_length_ge s). simpl in Hrest. lia.
Qed.

(** X1: encoding the destination path for the URLs merges nothing: two
    tasks have the same encoded path only when they have the same
    destination path. *)
Theorem encoded_destination_faithful (r1 p1 n1 r2 p2 n2 : string) :
  target_path_encoded r1 p1 n1 = target_path_encoded r2 p2 n2
  <-> target_path r1 p1 n1 = target_path r2 p2 n2.
Proof.
  unfold target_path_encoded. split.
  - apply quote_inj.
  - now intros ->.
Qed.

(** X2: whatever the names in the source, the encoded destination path
    is written with letters, digits, [_.-~/] and the percent sign only:
    no question mark, hash sign or space can end the path early in the
    lookup and upload URLs. *)
Theorem encoded_destination_alphabet (r p n : string) (d : ascii) :
  Quote.safe d = false -> d <> "%"%char ->
  PyStr.contains d (target_path_encoded r p n) = false.
Proof.
  intros Hd Hp. unfold target_path_encoded.
  induction (target_path r p n) as [|c s IH]; [reflexivity|].
  simpl. now rewrite contains_append, IH, quote_byte_alphabet.
Qed.

Lemma encoded_destination_alphabet_witness :
  PyStr.contains "?"%char
    (target_path_encoded "alice/cpu" "rtl/what is this?.v" "what is this?.v") = false.
Proof.
  apply (encoded_destination_alphabet "alice/cpu" "rtl/what is this?.v"
           "what is this?.v" "?"%char).
  - reflexivity.
  - discriminate.
Defined.

(** ** The destination of a listed file *)

Section MirrorFacts.

Lemma upto_last_append (sep : ascii) (d n : string) :
  PyStr.contains sep n = false ->
  PyStr.upto_last sep (d +:+ String sep n) = d +:+ String sep EmptyString.
Proof.
  intros Hn. induction d as [|c d IH].
  - rewrite !append_nil_l. simpl. rewrite Ascii.eqb_refl. simpl.
    destruct n as [|x n]; [reflexivity|].
    simpl in *. now rewrite Hn.
  - rewrite !append_cons. simpl.
    rewrite contains_append. simpl. rewrite Ascii.eqb_refl.
    rewrite orb_true_r, orb_true_r. now rewrite IH.
Qed.

Lemma all_char_snoc (sep : ascii) (d : string) :
  PyStr.all_char sep (d +:+ String sep EmptyString) = PyStr.all_char sep d.
Proof.
  induction d as [|c d IH].
  - rewrite append_nil_l. simpl. now rewrite Ascii.eqb_refl.
  - rewrite append_cons. simpl. now rewrite IH.
Qed.

Lemma rstrip_snoc (sep : ascii) (d : string) :
  PyStr.rstrip sep (d +:+ String sep EmptyString) = PyStr.rstrip sep d.
Proof.
  induction d as [|c d IH].
  - rewrite append_nil_l. simpl. now rewrite Ascii.eqb_refl.
  - rewrite append_cons. simpl. rewrite all_char_snoc, IH. reflexivity.
Qed.

Lemma rstrip_all_char (sep : ascii) (d : string) :
  PyStr.all_char sep d = true -> PyStr.rstrip sep d = EmptyString.
Proof. destruct d as [|c d]; simpl; [reflexivity|]. now intros ->. Qed.

Lemma upto_last_absent (sep : ascii) (n : string) :
  PyStr.contains sep n = false -> PyStr.upto_last sep n = EmptyString.
Proof. destruct n as [|c n]; simpl; [reflexivity|]. now intros ->. Qed.

Lemma dirname_of_name (n : string) :
  PyStr.contains PyStr.slash n = false -> PyStr.dirname n = EmptyString.
Proof.
  intros Hn. unfold PyStr.dirname. now rewrite upto_last_absent.
Qed.

Lemma dirname_of_nested (d n : string) :
  PyStr.contains PyStr.slash n = false ->
  d <> EmptyString -> PyStr.rstrip PyStr.slash d = d ->
  PyStr.dirname (d +:+ String PyStr.slash n) = d.
Proof.
  intros Hn Hd Hr. unfold PyStr.dirname.
  rewrite upto_last_append by exact Hn.
  rewrite all_char_snoc.
  destruct (PyStr.all_char PyStr.slash d) eqn:Hall.
  { apply rstrip_all_char in Hall. congruence. }
  destruct d as [|c d]; [congruence|].
  rewrite append_cons. simpl String.eqb. cbv iota. simpl negb. cbv iota.
  rewrite <- append_cons, rstrip_snoc. exact Hr.
Qed.

End MirrorFacts.

(** X3: the mirror keeps the layout of the source: a file the contents
    API lists with [path] and [name] is written to
    [verilog_data/<flattened repository>/<path>], at the root of the
    repository as well as in a directory. *)
Theorem destination_keeps_path (repo_full_name path name : string) :
  listed_as path name ->
  target_path repo_full_name path name
  = "verilog_data/" +:+ repo_dir repo_full_name +:+ "/" +:+ path.
Proof.
  intros [Hn [->|(dir & Hd & Hr & ->)]]; unfold target_path.
  - now rewrite dirname_of_name.
  - rewrite dirname_of_nested by assumption.
    destruct dir as [|c dir]; [congruence|]. reflexivity.
Qed.

Lemma destination_keeps_path_witness :
  target_path "alice/cpu" "rtl/core/alu.v" "alu.v"
  = "verilog_data/" +:+ repo_dir "alice/cpu" +:+ "/" +:+ "rtl/core/alu.v".
Proof.
  apply (destination_keeps_path "alice/cpu" "rtl/core/alu.v" "alu.v").
  split; [reflexivity|]. right. exists "rtl/core".
  split; [discriminate|]. split; reflexivity.
Defined.

(** X4: inside one repository two listed files with different paths
    never get the same destination URL path. *)
Theorem destination_injective_within_repository
    (repo_full_name path1 name1 path2 name2 : string) :
  listed_as path1 name1 ->
  listed_as path2 name2 ->
  path1 <> path2 ->
  target_path_encoded repo_full_name path1 name1
  <> target_path_encoded repo_full_name path2 name2.
Proof.
  intros H1 H2 Hne Heq. apply Hne. unfold target_path_encoded in Heq.
  apply quote_inj in Heq.
  assert (Hkeeps : forall path name,
             listed_as path name ->
             target_path repo_full_name path name
             = "verilog_data/" +:+ repo_dir repo_full_name +:+ "/" +:+ path).
  { intros path name [Hn [->|(dir & Hd & Hr & ->)]]; unfold target_path.
    - now rewrite dirname_of_name.
    - rewrite dirname_of_nested by assumption.
      destruct dir as [|c dir]; [congruence|]. reflexivity. }
  rewrite !Hkeeps in Heq by assumption.
  apply append_cancel_l in Heq.
  apply append_cancel_l in Heq.
  now apply append_cancel_l in Heq.
Qed.

Lemma destination_injective_within_repository_witness :
  target_path_encoded "alice/cpu" "rtl/alu.v" "alu.v"
  <> target_path_encoded "alice/cpu" "sim/alu.v" "alu.v".
Proof.
  apply (destination_injective_within_repository "alice/cpu" "rtl/alu.v" "alu.v"
           "sim/alu.v" "alu.v").
  - split; [reflexivity|]. right. exists "rtl". repeat split. discriminate.
  - split; [reflexivity|]. right. exists "sim". repeat split. discriminate.
  - discriminate.
Defined.

(** ** Every run of the retry loop *)

Section LoopSummary.
Context {W : Type} `{!ClientSession W}.
Import Coro.

Variables (target upload_url get_url : string) (max_retries : Z).

Let loop := upload_loop target upload_url get_url max_retries.

(** One pass of the loop, whatever the reply: it ends the run after the
    write and one log line, or it hands over to the remaining attempts
    after the write and at most one lookup of the destination. *)
Lemma pass_summary attempt rest payload delay (w w' : W) o t :
  loop (attempt :: rest) payload delay w = (o, w', t) ->
  let r := fst (session_put upload_url payload w) in
  (o = Returned tt
   /\ exists call msg, t = [EvPut upload_url payload r; EvLog call msg])
  \/ exists x t2 payload' delay' w2 lookups,
       t = x ++ t2
       /\ loop rest payload' delay' w2 = (o, w', t2)
       /\ requests x = EvPut upload_url payload r :: map (EvGet get_url) lookups
       /\ payload' = fold_left (fun p g => payload_after g p) lookups payload
       /\ logged_uploaded x = false
       /\ ((attempt < max_retries /\ delay' = delay * 2 /\ (length lookups <= 1)%nat
            /\ pacing x = [inl r; inr (inject_Z delay)])
           \/ (max_retries <= attempt /\ delay' = delay /\ lookups = []
               /\ pacing x = [inl r])).
Proof.
  intros Hrun r. subst r.
  destruct (session_put upload_url payload w) as [r w1] eqn:Hput. simpl.
  destruct (write_reply_cases r) as [Hk|[Hk|[Hk|[e Hk]]]].
  - left. unfold loop in Hrun.
    erewrite loop_success in Hrun by eassumption.
    injection Hrun as <- <- <-. eauto.
  - right. destruct (Z.lt_ge_cases attempt max_retries) as [Hlt|Hge].
    + destruct (loop_conflict_retry target upload_url get_url max_retries attempt
                  rest payload delay w w1 r Hput Hk Hlt)
        as (text & t1 & Hstep & Hone).
      fold loop in Hstep. rewrite Hrun in Hstep.
      destruct (loop rest _ _ _) as [[o2 w3] t2] eqn:Hrest.
      injection Hstep as -> -> ->.
      eexists (_ :: _ :: t1 ++ [_]), t2, _, _, _, [fst (session_get get_url w1)].
      split; [reflexivity|]. split; [exact Hrest|].
      pose proof (one_fetch_pacing _ _ _ Hone) as Hp.
      destruct Hone as (Hreq & _ & Hup).
      split; [|split; [reflexivity|split]].
      * simpl. now rewrite requests_app, Hreq.
      * simpl. now rewrite logged_uploaded_app, Hup.
      * left. repeat split; try lia; auto.
        simpl. now rewrite pacing_app, Hp.
    + apply is_conflict_inv in Hk as (resp & text & -> & Hs & Ht).
      unfold loop in Hrun. simpl in Hrun.
      erewrite bind_returned in Hrun by (eapply attempt_conflict_last; eauto).
      simpl in Hrun. fold loop in Hrun.
      destruct (loop rest payload delay w1) as [[o2 w3] t2] eqn:Hrest.
      injection Hrun as <- <- <-.
      eexists [_; _], t2, _, _, _, []. split; [reflexivity|].
      split; [exact Hrest|]. repeat split. right. auto.
  - left. destruct (is_hard_failure_inv r Hk) as (resp & text & -> & Ht).
    unfold loop in Hrun. erewrite loop_hard_failure in Hrun by eassumption.
    injection Hrun as <- <- <-. eauto.
  - destruct (Z.lt_ge_cases attempt max_retries) as [Hlt|Hge].
    + right. unfold loop in Hrun.
      erewrite loop_exception_retry in Hrun by eassumption. fold loop in Hrun.
      destruct (loop rest payload (delay * 2) w1) as [[o2 w3] t2] eqn:Hrest.
      injection Hrun as <- <- <-.
      eexists [_; _; _], t2, _, _, _, []. split; [reflexivity|].
      split; [exact Hrest|]. repeat split. left. repeat split; simpl; lia.
    + left. unfold loop in Hrun.
      erewrite loop_exception_last in Hrun by eassumption.
      injection Hrun as <- <- <-. eauto.
Qed.

Lemma writes_lookups (lookups : list reply) :
  writes (map (EvGet get_url) lookups) = [].
Proof. induction lookups; simpl; auto. Qed.

Lemma written_lookups (lookups : list reply) :
  written (map (EvGet get_url) lookups) = [].
Proof. induction lookups; simpl; auto. Qed.

Lemma fetched_lookups (lookups : list reply) :
  fetched (map (EvGet get_url) lookups) = replicate (length lookups) get_url.
Proof. induction lookups; simpl; congruence. Qed.

(** The loop always returns, makes no more writes than it has attempts,
    and sleeps between two consecutive writes only, from the delay it
    starts with and doubling. *)
Lemma loop_schedule (k : nat) :
  forall a payload delay (w w' : W) o t,
    max_retries = a + Z.of_nat k - 1 ->
    loop (seqZ a (Z.of_nat k)) payload delay w = (o, w', t) ->
    o = Returned tt
    /\ (length (writes t) <= k)%nat
    /\ (length (fetched t) <= pred k)%nat
    /\ pacing t = schedule delay (writes t).
Proof.
  induction k as [|k IH]; intros a payload delay w w' o t HM Hrun.
  { injection Hrun as <- <- <-. repeat split; simpl; lia. }
  rewrite seqZ_cons in Hrun by lia.
  replace (Z.pred (Z.of_nat (S k))) with (Z.of_nat k) in Hrun by lia.
  destruct (pass_summary _ _ _ _ _ _ _ _ Hrun)
    as [(-> & call & msg & ->)
       |(x & t2 & p' & d' & w2 & lookups & -> & Hrest & Hreq & _ & _ & Hkind)].
  { repeat split; simpl; lia. }
  assert (Hwx : writes x = [fst (session_put upload_url payload w)]).
  { rewrite <- writes_requests, Hreq. simpl. now rewrite writes_lookups. }
  assert (Hfx : fetched x = replicate (length lookups) get_url).
  { rewrite <- fetched_requests, Hreq. simpl. apply fetched_lookups. }
  destruct Hkind as [(Hlt & -> & Hlen & Hpx)|(Hge & -> & -> & Hpx)].
  - destruct (IH (Z.succ a) _ _ _ _ _ _ ltac:(lia) Hrest) as (-> & Hw2 & Hf2 & Hp2).
    destruct k as [|k]; [lia|].
    assert (Hne : exists r2 ws2, writes t2 = r2 :: ws2).
    { rewrite seqZ_cons in Hrest by lia.
      destruct (loop_head target upload_url get_url max_retries (Z.succ a)
                  (seqZ (Z.succ (Z.succ a)) (Z.pred (Z.of_nat (S k))))
                  p' (delay * 2) w2) as (o0 & w0 & t' & Hhead).
      fold loop in Hhead. rewrite Hrest in Hhead. injection Hhead as _ _ ->.
      simpl. eauto. }
    destruct Hne as (r2 & ws2 & Hws).
    split; [reflexivity|]. split; [|split].
    + rewrite writes_app, Hwx. simpl. lia.
    + rewrite fetched_app, Hfx, length_app, length_replicate. simpl in *. lia.
    + rewrite pacing_app, writes_app, Hpx, Hwx, Hp2, Hws. reflexivity.
  - assert (k = 0%nat) as -> by lia.
    change (seqZ (Z.succ a) (Z.of_nat 0)) with (@nil Z) in Hrest.
    injection Hrest as <- <- <-.
    rewrite app_nil_r. split; [reflexivity|].
    rewrite Hwx, Hfx, Hpx. repeat split; simpl; lia.
Qed.

Lemma via_requests (download_url : string) (t : list event) :
  Forall (request_of_task download_url get_url upload_url) (requests t) ->
  Forall (request_of_task download_url get_url upload_url) t.
Proof.
  induction t as [|ev t IH]; [constructor|].
  destruct ev; simpl; intros Hall.
  - inversion Hall; subst. constructor; auto.
  - inversion Hall; subst. constructor; auto.
  - constructor; [exact I|auto].
  - constructor; [exact I|auto].
Qed.

(** Every request of the loop is a write to the upload URL or a lookup
    of the destination, and every payload written agrees with the first
    on all fields but ["sha"]. *)
Lemma loop_requests attempts :
  forall payload delay (w w' : W) o t,
    loop attempts payload delay w = (o, w', t) ->
    Forall (request_of_task get_url get_url upload_url) t
    /\ Forall (same_but_sha payload) (written t).
Proof.
  induction attempts as [|attempt rest IH]; intros payload delay w w' o t Hrun.
  { injection Hrun as <- <- <-. split; constructor. }
  destruct (pass_summary _ _ _ _ _ _ _ _ Hrun)
    as [(-> & call & msg & ->)
       |(x & t2 & p' & d' & w2 & lookups & -> & Hrest & Hreq & Hp' & _ & Hkind)].
  { split; repeat constructor. }
  destruct (IH _ _ _ _ _ _ Hrest) as [Hr2 Hw2].
  assert (Hsame : same_but_sha payload p').
  { subst p'. destruct Hkind as [(_ & _ & Hlen & _)|(_ & _ & -> & _)];
      [|now intros key _].
    destruct lookups as [|g [|g' lookups]]; [now intros key _| |simpl in Hlen; lia].
    simpl. intros key Hkey. unfold payload_after, copy_sha, and_then.
    destruct (if Py.truthy (body_if_ok g) then Py.contains "sha" (body_if_ok g)
              else inr false) as [e|[]]; try reflexivity.
    destruct (Py.getitem (body_if_ok g) "sha") as [e|sha]; [reflexivity|].
    now rewrite lookup_insert_ne by congruence. }
  split.
  - apply Forall_app. split; [|exact Hr2].
    apply via_requests. rewrite Hreq. constructor; [reflexivity|].
    clear. induction lookups as [|g lookups IH]; constructor; simpl; auto.
  - rewrite written_app. apply Forall_app. split.
    + rewrite <- written_requests, Hreq. simpl. rewrite written_lookups.
      constructor; [now intros key _|constructor].
    + eapply Forall_impl; [exact Hw2|].
      intros q Hq key Hkey. now rewrite Hsame, Hq.
Qed.

End LoopSummary.

(** ** Every run of an upload task *)

Section TaskSummary.
Context {W : Type} `{!ClientSession W}.
Import Coro.

Lemma payload_after_same_but_sha (g : reply) (payload : gmap string json) :
  same_but_sha payload (payload_after g payload).
Proof.
  intros key Hkey. unfold payload_after, copy_sha, and_then.
  destruct (if Py.truthy (body_if_ok g) then Py.contains "sha" (body_if_ok g)
            else inr false) as [e|[]]; try reflexivity.
  destruct (Py.getitem (body_if_ok g) "sha") as [e|sha]; [reflexivity|].
  now rewrite lookup_insert_ne by congruence.
Qed.

(** The only exception taking the token out of a body can raise. *)
Lemma copy_sha_raises_type_error (file : json) (payload : gmap string json) e :
  copy_sha file payload = inl e -> e = TypeError.
Proof.
  unfold copy_sha, and_then, Py.contains, Py.getitem.
  destruct file as [|b|n|q|s|items|fields]; simpl.
  - discriminate.
  - destruct b; [now intros [= <-] | discriminate].
  - destruct (negb (n =? 0)); [now intros [= <-] | discriminate].
  - destruct (negb (Qeq_bool q 0)); [now intros [= <-] | discriminate].
  - destruct (negb (String.eqb s EmptyString)); [|discriminate].
    destruct (PyStr.has_substring "sha" s); [now intros [= <-] | discriminate].
  - destruct items as [|x items]; [discriminate|].
    destruct (existsb (Py.is_str "sha") (x :: items));
      [now intros [= <-] | discriminate].
  - destruct fields as [|kv fields]; [discriminate|].
    destruct (Py.assoc "sha" (kv :: fields)); simpl; discriminate.
Qed.

Variables (download_url repo_full_name file_path file_name : string).

Let target := target_path repo_full_name file_path file_name.
Let get_url := destination_get_url (Quote.quote target).
Let upload_url := destination_upload_url (Quote.quote target).

(** The three ways a task can go: the download gives no content; the
    body of the lookup is one the token cannot be taken from; or the task
    enters the retry loop. *)
Lemma task_cases (w w' : W) o t :
  upload_verilog_file_to_target download_url repo_full_name file_path file_name w
  = (o, w', t) ->
  let r0 := fst (session_get download_url w) in
  (o = Returned tt /\ requests t = [EvGet download_url r0] /\ pacing t = []
   /\ logged_uploaded t = false)
  \/ (exists g0,
        o = Raised TypeError
        /\ requests t = [EvGet download_url r0; EvGet get_url g0]
        /\ pacing t = [] /\ logged_uploaded t = false)
  \/ (exists resp0 content g0 t0 tl w2,
        r0 = inr resp0 /\ resp_status resp0 = 200 /\ resp_read resp0 = inr content
        /\ t = t0 ++ tl
        /\ requests t0 = [EvGet download_url r0; EvGet get_url g0]
        /\ pacing t0 = []
        /\ logged_uploaded t0 = false
        /\ upload_loop target upload_url get_url 3 [1; 2; 3]
             (payload_after g0 (initial_payload target (Base64.b64encode content)))
             1 w2
           = (o, w', tl)).
Proof.
  intros Hrun r0.
  destruct (upload_task_run download_url repo_full_name file_path file_name w)
    as (td & Htask & Hd).
  rewrite Hrun in Htask.
  destruct (download_run download_url w) as (td' & Hdl & _).
  rewrite Hdl in Htask. simpl in Htask. fold r0 in Htask, Hd.
  pose proof (one_fetch_pacing _ _ _ Hd) as Hpd.
  destruct r0 as [e0|resp0] eqn:Hr0.
  { left. injection Htask as -> -> ->. destruct Hd as (? & ? & ?). auto. }
  destruct (resp_status resp0 =? 200) eqn:Hs0;
    [|left; injection Htask as -> -> ->; destruct Hd as (? & ? & ?); auto].
  destruct (resp_read resp0) as [e0|content] eqn:Hread;
    [left; injection Htask as -> -> ->; destruct Hd as (? & ? & ?); auto|].
  apply Z.eqb_eq in Hs0.
  set (w1 := snd (session_get download_url w)) in *.
  destruct (copy_sha (body_if_ok (fst (session_get get_url w1)))
              (initial_payload target (Base64.b64encode content)))
    as [e|payload] eqn:Hcopy.
  - right. left.
    destruct (upload_content_raises repo_full_name file_path file_name content w1 e
                Hcopy) as (tc & Hc & Hone).
    fold target get_url in Hc. rewrite Hc in Htask. injection Htask as -> -> ->.
    apply copy_sha_raises_type_error in Hcopy as ->.
    exists (fst (session_get get_url w1)).
    pose proof (one_fetch_pacing _ _ _ Hone) as Hpc.
    destruct Hd as (Hrd & _ & Hud), Hone as (Hrc & _ & Huc).
    split; [reflexivity|]. split; [now rewrite requests_app, Hrd, Hrc|].
    split; [now rewrite pacing_app, Hpd, Hpc|].
    now rewrite logged_uploaded_app, Hud, Huc.
  - right. right.
    destruct (upload_content_enters_loop repo_full_name file_path file_name content
                w1 payload Hcopy) as (tc & Hc & Hone).
    fold target get_url upload_url in Hc. rewrite Hc in Htask.
    destruct (upload_loop _ _ _ _ _ _ _ _) as [[o3 w3] tl] eqn:Hloop.
    injection Htask as -> -> ->.
    exists resp0, content, (fst (session_get get_url w1)).
    eexists (td ++ tc ++ [_]), tl, _.
    assert (Hp : payload_after (fst (session_get get_url w1))
                   (initial_payload target (Base64.b64encode content)) = payload).
    { unfold payload_after. now rewrite Hcopy. }
    rewrite Hp.
    pose proof (one_fetch_pacing _ _ _ Hone) as Hpc.
    destruct Hd as (Hrd & _ & Hud), Hone as (Hrc & _ & Huc).
    split; [reflexivity|]. split; [exact Hs0|]. split; [exact Hread|].
    split; [now rewrite <- !app_assoc|].
    split; [now rewrite !requests_app, Hrd, Hrc|].
    split; [now rewrite !pacing_app, Hpd, Hpc|].
    split; [|exact Hloop].
    rewrite !logged_uploaded_app, Hud, Huc. simpl. now destruct (Py.truthy _).
Qed.

(** X5: whatever the remote side does, an upload task makes at most
    three writes and sleeps only between two consecutive writes: 1 second
    before the second and 2 before the third, after a conflict as after
    an exception, and never before the first write or after the last. *)
Theorem retry_schedule (w w' : W) o t :
  upload_verilog_file_to_target download_url repo_full_name file_path file_name w
  = (o, w', t) ->
  (length (writes t) <= 3)%nat /\ pacing t = schedule 1 (writes t).
Proof.
  intros Hrun.
  destruct (task_cases w w' o t Hrun)
    as [(_ & Hreq & Hp & _)
       |[(g0 & _ & Hreq & Hp & _)
        |(resp0 & content & g0 & t0 & tl & w2 & _ & _ & _ & -> & Hreq & Hp & _ & Hloop)]].
  - rewrite <- writes_requests, Hreq, Hp. simpl. split; [lia|reflexivity].
  - rewrite <- writes_requests, Hreq, Hp. simpl. split; [lia|reflexivity].
  - change [1; 2; 3] with (seqZ 1 (Z.of_nat 3)) in Hloop.
    destruct (loop_schedule target upload_url get_url 3 3%nat 1 _ _ _ _ _ _
                eq_refl Hloop) as (_ & Hlen & _ & Hsched).
    assert (Hw0 : writes t0 = []) by now rewrite <- writes_requests, Hreq.
    rewrite writes_app, pacing_app, Hw0, Hp. simpl. auto.
Qed.

Lemma fetched_of_lookups (t : list event) :
  Forall (request_of_task get_url get_url upload_url) t ->
  fetched t = replicate (length (fetched t)) get_url.
Proof.
  induction t as [|ev t IH]; [reflexivity|].
  intros Hall. inversion Hall as [|? ? Hev Ht]; subst.
  destruct ev; simpl in *; auto.
  destruct Hev as [->| ->]; now rewrite <- IH.
Qed.

(** X6: whatever the remote side does, the requests of an upload task
    are one GET of the download URL, then at most three lookups of the
    destination and at most three writes, all to the URLs built from the
    one destination path. *)
Theorem request_budget (w w' : W) o t :
  upload_verilog_file_to_target download_url repo_full_name file_path file_name w
  = (o, w', t) ->
  Forall (request_of_task download_url get_url upload_url) t
  /\ (length (writes t) <= 3)%nat
  /\ exists k, (k <= 3)%nat /\ fetched t = download_url :: replicate k get_url.
Proof.
  intros Hrun.
  assert (Hlen : (length (writes t) <= 3)%nat).
  { destruct (task_cases w w' o t Hrun)
      as [(_ & Hreq & _)
         |[(g0 & _ & Hreq & _)
          |(resp0 & content & g0 & t0 & tl & w2 & _ & _ & _ & -> & Hreq & _ & _
            & Hloop)]].
    - rewrite <- writes_requests, Hreq. simpl. lia.
    - rewrite <- writes_requests, Hreq. simpl. lia.
    - change [1; 2; 3] with (seqZ 1 (Z.of_nat 3)) in Hloop.
      destruct (loop_schedule target upload_url get_url 3 3%nat 1 _ _ _ _ _ _
                  eq_refl Hloop) as (_ & Hl & _).
      rewrite writes_app, <- (writes_requests t0), Hreq. simpl. exact Hl. }
  split; [|split; [exact Hlen|]];
    destruct (task_cases w w' o t Hrun)
      as [(_ & Hreq & _)
         |[(g0 & _ & Hreq & _)
          |(resp0 & content & g0 & t0 & tl & w2 & _ & _ & _ & -> & Hreq & _ & _
            & Hloop)]].
  - apply via_requests. rewrite Hreq.
    repeat (constructor; [simpl; auto|]). constructor.
  - apply via_requests. rewrite Hreq.
    repeat (constructor; [simpl; auto|]). constructor.
  - apply Forall_app. split.
    + apply via_requests. rewrite Hreq.
      repeat (constructor; [simpl; auto|]). constructor.
    + destruct (loop_requests target upload_url get_url 3 _ _ _ _ _ _ _ Hloop)
        as [Hall _].
      eapply Forall_impl; [exact Hall|].
      intros [] ; simpl; tauto.
  - exists 0%nat. split; [lia|]. now rewrite <- fetched_requests, Hreq.
  - exists 1%nat. split; [lia|]. now rewrite <- fetched_requests, Hreq.
  - destruct (loop_requests target upload_url get_url 3 _ _ _ _ _ _ _ Hloop)
      as [Hall _].
    change [1; 2; 3] with (seqZ 1 (Z.of_nat 3)) in Hloop.
    destruct (loop_schedule target upload_url get_url 3 3%nat 1 _ _ _ _ _ _
                eq_refl Hloop) as (_ & _ & Hf & _).
    exists (S (length (fetched tl))). split; [simpl in Hf; lia|].
    rewrite fetched_app, <- (fetched_requests t0), Hreq. simpl.
    now rewrite <- fetched_of_lookups.
Qed.

(** X7: retries never touch what is uploaded: every payload a task
    writes carries the commit message of the destination path, the
    base64 text of the bytes that were downloaded and the target branch;
    only the version token can differ from one write to the next. *)
Theorem payload_fixed_across_retries (w w' : W) o t resp0 content :
  upload_verilog_file_to_target download_url repo_full_name file_path file_name w
  = (o, w', t) ->
  fst (session_get download_url w) = inr resp0 ->
  resp_read resp0 = inr content ->
  Forall (fun payload : gmap string json =>
            payload !! "message" = Some (JStr ("Add/update " +:+ target))
            /\ payload !! "content" = Some (JStr (Base64.b64encode content))
            /\ payload !! "branch" = Some (JStr TARGET_BRANCH))
    (written t).
Proof.
  intros Hrun Hr0 Hread.
  destruct (task_cases w w' o t Hrun)
    as [(_ & Hreq & _)
       |[(g0 & _ & Hreq & _)
        |(resp0' & content' & g0 & t0 & tl & w2 & Hr0' & _ & Hread' & -> & Hreq & _ & _
          & Hloop)]].
  - rewrite <- written_requests, Hreq. constructor.
  - rewrite <- written_requests, Hreq. constructor.
  - rewrite Hr0 in Hr0'. injection Hr0' as <-.
    rewrite Hread in Hread'. injection Hread' as <-.
    rewrite written_app, <- (written_requests t0), Hreq. simpl.
    destruct (loop_requests target upload_url get_url 3 _ _ _ _ _ _ _ Hloop)
      as [_ Hsame].
    eapply Forall_impl; [exact Hsame|].
    intros q Hq.
    pose proof (payload_after_same_but_sha g0
                  (initial_payload target (Base64.b64encode content))) as H0.
    rewrite <- !Hq, <- !H0 by discriminate.
    unfold initial_payload. repeat split.
Qed.

(** X8: an exception leaves an upload task only before its first
    write: once a write was attempted the task returns, whatever the
    remote side answers and whatever raises afterwards, since every
    pass through the retry loop catches what is raised in it. *)
Theorem task_raises_only_before_writing (w w' : W) o t :
  upload_verilog_file_to_target download_url repo_full_name file_path file_name w
  = (o, w', t) ->
  writes t <> [] ->
  o = Returned tt.
Proof.
  intros Hrun Hwrites.
  destruct (task_cases w w' o t Hrun)
    as [(_ & Hreq & _)
       |[(g0 & _ & Hreq & _)
        |(resp0 & content & g0 & t0 & tl & w2 & _ & _ & _ & -> & _ & _ & _ & Hloop)]].
  - exfalso. apply Hwrites. now rewrite <- writes_requests, Hreq.
  - exfalso. apply Hwrites. now rewrite <- writes_requests, Hreq.
  - change [1; 2; 3] with (seqZ 1 (Z.of_nat 3)) in Hloop.
    now destruct (loop_schedule target upload_url get_url 3 3%nat 1 _ _ _ _ _ _
                    eq_refl Hloop) as (-> & _).
Qed.

(** X9: when the download is not answered 200 with a body that can be
    read, the task logs it and returns at once: the destination is
    neither looked up nor written. *)
Theorem download_failure_aborts (w w1 : W) r :
  session_get download_url w = (r, w1) ->
  (forall resp content,
     r = inr resp -> resp_status resp = 200 -> resp_read resp <> inr content) ->
  exists call msg,
    upload_verilog_file_to_target download_url repo_full_name file_path file_name w
    = (Returned tt, w1, [EvGet download_url r; EvLog call msg]).
Proof.
  intros Hget Hbad.
  unfold upload_verilog_file_to_target, download, try_except, bind, http_get, lift,
    log, emit, ret, raise.
  rewrite Hget. destruct r as [e|resp]; simpl; [eauto|].
  destruct (resp_status resp =? 200) eqn:Hs; simpl; [|eauto].
  apply Z.eqb_eq in Hs.
  destruct (resp_read resp) as [e|content] eqn:Hread; simpl; [eauto|].
  now destruct (Hbad resp content eq_refl Hs).
Qed.

End TaskSummary.

Lemma retry_schedule_witness :
  (length (writes (snd (upload_alu flaky))) <= 3)%nat
  /\ pacing (snd (upload_alu flaky)) = schedule 1 (writes (snd (upload_alu flaky))).
Proof.
  apply (retry_schedule "https://raw/alu.v" "alice/cpu" "rtl/alu.v" "alu.v" flaky
           _ _ _ (run_eta flaky)).
Defined.

Lemma request_budget_witness :
  Forall (request_of_task "https://raw/alu.v" alu_get_url alu_upload_url)
    (snd (upload_alu always_conflicting))
  /\ (length (writes (snd (upload_alu always_conflicting))) <= 3)%nat
  /\ exists k, (k <= 3)%nat
       /\ fetched (snd (upload_alu always_conflicting))
          = "https://raw/alu.v" :: replicate k alu_get_url.
Proof.
  apply (request_budget "https://raw/alu.v" "alice/cpu" "rtl/alu.v" "alu.v"
           always_conflicting _ _ _ (run_eta always_conflicting)).
Defined.

Lemma payload_fixed_across_retries_witness :
  Forall (fun payload : gmap string json =>
            payload !! "message" = Some (JStr ("Add/update " +:+ alu_target))
            /\ payload !! "content" = Some (JStr (Base64.b64encode verilog))
            /\ payload !! "branch" = Some (JStr TARGET_BRANCH))
    (written (snd (upload_alu recovering))).
Proof.
  eapply (payload_fixed_across_retries "https://raw/alu.v" "alice/cpu" "rtl/alu.v"
            "alu.v" recovering _ _ _ _ verilog (run_eta recovering)); reflexivity.
Defined.

Lemma task_raises_only_before_writing_witness :
  writes (snd (upload_alu conflicts_unread)) <> []
  /\ fst (fst (upload_alu conflicts_unread)) = Returned tt.
Proof.
  assert (Hwrites : writes (snd (upload_alu conflicts_unread)) <> [])
    by (vm_compute; discriminate).
  split; [exact Hwrites|].
  exact (task_raises_only_before_writing "https://raw/alu.v" "alice/cpu" "rtl/alu.v"
           "alu.v" conflicts_unread _ _ _ (run_eta conflicts_unread) Hwrites).
Defined.

Example odd_lookup_raises :
  fst (fst (upload_alu odd_lookup)) = Raised TypeError.
Proof. vm_compute. reflexivity. Qed.

Lemma download_failure_aborts_witness :
  exists call msg,
    upload_alu missing_source
    = (Returned tt, {| get_replies := [with_sha "v1"]; put_replies := [created] |},
       [EvGet "https://raw/alu.v" not_found; EvLog call msg]).
Proof.
  apply (download_failure_aborts "https://raw/alu.v" "alice/cpu" "rtl/alu.v" "alu.v"
           missing_source).
  - reflexivity.
  - intros resp content [= <-]. discriminate.
Defined.

(** ** More of the tree walker *)

Section WalkerEdges.
Context {W : Type} `{!ClientSession W}.
Import Coro.

Lemma collect_ignored (walk : string -> coro W unit) repo items :
  forallb ignored_entry items = true ->
  collect_tasks walk repo items = inr [].
Proof.
  induction items as [|item items IH]; [reflexivity|].
  simpl. intros [Hi Hrest]%andb_prop. rewrite (IH Hrest).
  destruct item as [| | | | | |fields]; try discriminate.
  unfold task_of_item, and_then, Py.getitem. simpl in Hi.
  destruct (Py.assoc "type" fields) as [type|]; [|discriminate].
  apply andb_prop in Hi as [Hdir Hfile]. apply negb_true_iff in Hdir.
  rewrite Hdir.
  destruct (Py.is_str "file" type); [|reflexivity].
  simpl in Hfile.
  destruct (Py.assoc "name" fields) as [[| | | |name| |]|]; try discriminate.
  simpl. apply negb_true_iff in Hfile. now rewrite Hfile.
Qed.

Lemma collect_stops_at (walk : string -> coro W unit) repo pre item post tasks e :
  collect_tasks walk repo pre = inr tasks ->
  task_of_item walk repo item = inl e ->
  collect_tasks walk repo (pre ++ item :: post) = inl e.
Proof.
  revert tasks. induction pre as [|x pre IH]; intros tasks Hpre Hitem; simpl.
  - now rewrite Hitem.
  - simpl in Hpre.
    destruct (task_of_item walk repo x) as [e'|task]; [discriminate|]. simpl in *.
    destruct (collect_tasks walk repo pre) as [e'|tasks'] eqn:Hc; [discriminate|].
    now rewrite (IH tasks' eq_refl Hitem).
Qed.

(** X10: when the listing of a path does not come back (any status but
    200, an exception, a body that does not parse), the walker returns
    at once: it raises nothing, starts no task and does not pause. *)
Theorem walker_skips_absent_listing (fuel : nat) (repo_full_name branch path : string)
    (w : W) :
  let url := contents_url repo_full_name branch path in
  body_if_ok (fst (session_get url w)) = JNull ->
  exists t,
    get_verilog_files_from_repo (S fuel) repo_full_name branch path w
    = (Returned tt, snd (session_get url w), t)
    /\ fetched t = [url] /\ writes t = [] /\ sleeps t = [].
Proof.
  intros url Habsent.
  destruct (fetch_json_run url w) as (t & Hrun & Hf & Hw & Hs).
  change (match fst (session_get url w) with
          | inl _ => JNull
          | inr resp => _
          end) with (body_if_ok (fst (session_get url w))) in Hrun.
  rewrite Habsent in Hrun.
  exists t. split; [|auto].
  simpl. fold url. erewrite bind_returned by exact Hrun.
  unfold walk_listing, ret. now rewrite app_nil_r.
Qed.

(** X11: a listing in which no entry is a directory or a file whose name
    ends in [.v] starts no task: after the one GET the walker pauses half
    a second and returns.  The empty listing is the first case of it. *)
Theorem walker_ignores_other_entries (fuel : nat)
    (repo_full_name branch path : string) (w w1 : W) resp items :
  session_get (contents_url repo_full_name branch path) w = (inr resp, w1) ->
  resp_status resp = 200 ->
  resp_json resp = inr (JArr items) ->
  forallb ignored_entry items = true ->
  get_verilog_files_from_repo (S fuel) repo_full_name branch path w
  = (Returned tt, w1,
     [EvGet (contents_url repo_full_name branch path) (inr resp); EvSleep (1 # 2)]).
Proof.
  intros Hget Hs Hj Hall. simpl.
  erewrite bind_returned by (eapply fetch_json_ok; eassumption).
  unfold walk_listing, bind, lift, iterate, ret.
  rewrite (collect_ignored _ _ _ Hall). reflexivity.
Qed.

(** X12: the tasks of a directory are collected before any of them is
    started: when an entry of the listing has no ["type"], the walker
    raises [KeyError] right after the GET of the listing, and the entries
    before it, sound as they are, are neither walked nor uploaded. *)
Theorem walker_raises_on_missing_type (fuel : nat)
    (repo_full_name branch path : string) (w w1 : W) resp pre fields post tasks :
  session_get (contents_url repo_full_name branch path) w = (inr resp, w1) ->
  resp_status resp = 200 ->
  resp_json resp = inr (JArr (pre ++ JObj fields :: post)) ->
  collect_tasks (get_verilog_files_from_repo fuel repo_full_name branch)
    repo_full_name pre = inr tasks ->
  Py.assoc "type" fields = None ->
  get_verilog_files_from_repo (S fuel) repo_full_name branch path w
  = (Raised (KeyError "type"), w1,
     [EvGet (contents_url repo_full_name branch path) (inr resp)]).
Proof.
  intros Hget Hs Hj Hpre Hty. simpl.
  erewrite bind_returned by (eapply fetch_json_ok; eassumption).
  assert (Hitem : task_of_item (get_verilog_files_from_repo fuel repo_full_name branch)
                    repo_full_name (JObj fields) = inl (KeyError "type")).
  { unfold task_of_item, and_then, Py.getitem. now rewrite Hty. }
  unfold walk_listing, bind, lift, iterate, ret, raise.
  destruct pre as [|x pre]; simpl app;
    rewrite (collect_stops_at _ _ _ _ post _ _ Hpre Hitem); reflexivity.
Qed.

End WalkerEdges.

Lemma walker_skips_absent_listing_witness :
  exists t,
    get_verilog_files_from_repo 1 "alice/cpu" "main" "rtl" missing_source
    = (Returned tt,
       snd (session_get (contents_url "alice/cpu" "main" "rtl") missing_source), t)
    /\ fetched t = [contents_url "alice/cpu" "main" "rtl"]
    /\ writes t = [] /\ sleeps t = [].
Proof.
  apply (walker_skips_absent_listing 0 "alice/cpu" "main" "rtl" missing_source).
  reflexivity.
Defined.

Lemma walker_ignores_other_entries_witness :
  get_verilog_files_from_repo 1 "alice/cpu" "main" "rtl" only_other_sources
  = (Returned tt, {| get_replies := []; put_replies := [] |},
     [EvGet (contents_url "alice/cpu" "main" "rtl")
        (answer 200 EmptyString (JArr other_sources));
      EvSleep (1 # 2)]).
Proof.
  eapply (walker_ignores_other_entries 0 "alice/cpu" "main" "rtl" only_other_sources);
    reflexivity.
Defined.

Lemma walker_raises_on_missing_type_witness :
  get_verilog_files_from_repo 1 "alice/cpu" "main" "rtl" broken_listing
  = (Raised (KeyError "type"),
     {| get_replies := [file_answer verilog; not_found]; put_replies := [created] |},
     [EvGet (contents_url "alice/cpu" "main" "rtl")
        (answer 200 EmptyString
           (JArr [JObj alu_entry; JObj [("name", JStr "fpu.v")]]))]).
Proof.
  eapply (walker_raises_on_missing_type 0 "alice/cpu" "main" "rtl" broken_listing _ _
            [JObj alu_entry] [("name", JStr "fpu.v")] []); reflexivity.
Defined.

(** ** The default branch *)

Section DefaultBranch.
Context {W : Type} `{!ClientSession W}.
Import Coro.

(** X14: [get_repo_default_branch] makes one GET and answers ["master"]
    whenever the metadata did not come back, is an empty value or is a
    dict without ["default_branch"]; it returns the value of that field
    when there is one; and it raises [AttributeError] when the body is a
    non-empty value that is not a dict. *)
Theorem default_branch_cases (repo_full_name : string) (w : W) :
  let url := GITHUB_API_URL +:+ "/repos/" +:+ repo_full_name in
  exists t,
    get_repo_default_branch repo_full_name w
    = (match body_if_ok (fst (session_get url w)) with
       | JObj (kv :: fields) =>
           Returned (default (JStr "master")
                       (Py.assoc "default_branch" (kv :: fields)))
       | data => if Py.truthy data then Raised AttributeError
                 else Returned (JStr "master")
       end,
       snd (session_get url w), t)
    /\ fetched t = [url].
Proof.
  intros url.
  destruct (fetch_json_run url w) as (tf & Hfetch & Hf & _).
  change (match fst (session_get url w) with
          | inl _ => JNull
          | inr resp => _
          end) with (body_if_ok (fst (session_get url w))) in Hfetch.
  unfold get_repo_default_branch. fold url.
  erewrite bind_returned by exact Hfetch.
  destruct (body_if_ok (fst (session_get url w))) as [|b|n|q|s|items|fields];
    simpl.
  - eexists. split; [reflexivity|]. now rewrite fetched_app, Hf.
  - destruct b; simpl; eexists; (split; [reflexivity|]);
      now rewrite ?app_nil_r, ?fetched_app, Hf.
  - destruct (negb (n =? 0)); simpl; eexists; (split; [reflexivity|]);
      now rewrite ?app_nil_r, ?fetched_app, Hf.
  - destruct (negb (Qeq_bool q 0)); simpl; eexists; (split; [reflexivity|]);
      now rewrite ?app_nil_r, ?fetched_app, Hf.
  - destruct (negb (String.eqb s EmptyString)); simpl; eexists;
      (split; [reflexivity|]); now rewrite ?app_nil_r, ?fetched_app, Hf.
  - destruct items; simpl; eexists; (split; [reflexivity|]);
      now rewrite ?app_nil_r, ?fetched_app, Hf.
  - destruct fields; simpl; eexists; (split; [reflexivity|]);
      now rewrite ?app_nil_r, ?fetched_app, Hf.
Qed.

End DefaultBranch.

(** ** The characters of a string *)

(** Iterating a string loses nothing: its characters, put together
    again, are the string. *)
Lemma chars_concat (s : string) :
  fold_right String.append EmptyString (PyStr.chars s) = s.
Proof.
  induction s as [|c r IH]; [reflexivity|].
  cbn [PyStr.chars].
  destruct (PyStr.chars r) as [|x xs]; simpl in IH |- *.
  - now rewrite <- IH.
  - destruct (match x with
              | String d _ => PyStr.continuation d
              | EmptyString => false
              end); simpl; now rewrite <- IH.
Qed.

Lemma chars_nil (s : string) : PyStr.chars s = [] -> s = EmptyString.
Proof. intros H. now rewrite <- (chars_concat s), H. Qed.

(** A character encoded on two bytes is one element. *)
Example chars_by_character :
  PyStr.chars
    (String "a" (String (ascii_of_N 195) (String (ascii_of_N 169) (String "b" EmptyString))))
  = ["a"; String (ascii_of_N 195) (String (ascii_of_N 169) EmptyString); "b"].
Proof. reflexivity. Qed.

(** ** The search *)

Section DriverFacts.
Context {W : Type}.
Import Driver.

Lemma driver_bind_returned {A B} (m : driver W A) (k : A -> driver W B) w a w1 t1 :
  m w = (Returned a, w1, t1) ->
  bind m k w = (let '(o, w2, t2) := k a w1 in (o, w2, t1 ++ t2)).
Proof. unfold bind. now intros ->. Qed.

Lemma driver_bind_raised {A B} (m : driver W A) (k : A -> driver W B) w e w1 t1 :
  m w = (Raised e, w1, t1) -> bind m k w = (Raised e, w1, t1).
Proof. unfold bind. now intros ->. Qed.

Lemma pipeline_app (t u : list driver_event) :
  pipeline (t ++ u) = pipeline t ++ pipeline u.
Proof. induction t as [|[] t IH]; simpl; congruence. Qed.

Lemma pipeline_map (t : list event) : pipeline (map Pipeline t) = t.
Proof. induction t as [|ev t IH]; simpl; congruence. Qed.

Lemma driver_log_app (t u : list driver_event) :
  driver_log (t ++ u) = driver_log t ++ driver_log u.
Proof. induction t as [|[] t IH]; simpl; congruence. Qed.

Lemma driver_log_map (t : list event) : driver_log (map Pipeline t) = [].
Proof. induction t as [|ev t IH]; simpl; congruence. Qed.

Lemma answers_app (t u : list event) : answers (t ++ u) = answers t ++ answers u.
Proof. induction t as [|[] t IH]; simpl; congruence. Qed.

Lemma answers_requests (t : list event) : answers (requests t) = answers t.
Proof. induction t as [|[] t IH]; simpl; congruence. Qed.

End DriverFacts.

Section SearchFacts.
Context {W : Type} `{!ClientSession W}.
Import Driver.

Lemma fetch_json_one_fetch (url : string) (w : W) :
  exists t,
    fetch_json url w
    = (Returned (body_if_ok (fst (session_get url w))), snd (session_get url w), t)
    /\ one_fetch t url (fst (session_get url w)).
Proof.
  unfold fetch_json, Coro.try_except, Coro.bind, Coro.http_get, Coro.lift, Coro.log,
    Coro.emit, Coro.ret, Coro.raise, one_fetch, body_if_ok.
  destruct (session_get url w) as [[e|resp] w1]; simpl.
  - eexists. split; [reflexivity|]. repeat split.
  - destruct (resp_status resp =? 200); simpl.
    + destruct (resp_json resp) as [e|body]; simpl;
        (eexists; split; [reflexivity|]; repeat split).
    + eexists. split; [reflexivity|]. repeat split.
Qed.

Lemma iterate_raises_type_error (v : json) e : iterate v = inl e -> e = TypeError.
Proof. destruct v; simpl; congruence. Qed.

Lemma get_raises_attribute_error (v : json) key fallback e :
  Py.get v key fallback = inl e -> e = AttributeError.
Proof. destruct v; simpl; congruence. Qed.

Lemma falsy_has_no_elements (v : json) :
  Py.truthy v = false ->
  match iterate v with inr found => found | inl _ => [] end = [].
Proof.
  destruct v as [|b|n|q|s|items|fields]; simpl; try reflexivity.
  - destruct s; [reflexivity|discriminate].
  - destruct items; [reflexivity|discriminate].
  - destruct fields; [reflexivity|discriminate].
Qed.

(** What the loop of the search does, from any list of pages and any
    repositories gathered so far. *)
Lemma search_pages_summary (query : string) (pages : list Z) :
  forall repos (w w' : W) o t,
    search_pages query pages repos w = (o, w', t) ->
    exists asked slept,
      asked `prefix_of` pages
      /\ fetched (pipeline t) = map (search_url query) asked
      /\ sleeps (pipeline t) = replicate slept 2%Q
      /\ (slept = length asked \/ S slept = length asked)
      /\ writes (pipeline t) = []
      /\ match o with
         | Returned found => found = repos ++ flat_map page_items (answers (pipeline t))
         | Raised e => e = AttributeError \/ e = TypeError
         | OutOfFuel => False
         end.
Proof.
  induction pages as [|page rest IH]; intros repos w w' o t Hrun.
  { injection Hrun as <- <- <-. exists [], 0%nat. simpl.
    rewrite app_nil_r. split; [apply prefix_nil|]. repeat split; auto. }
  simpl in Hrun.
  destruct (fetch_json_one_fetch (search_url query page) w) as (tf & Hfetch & Hone).
  set (r := fst (session_get (search_url query page) w)) in *.
  set (w1 := snd (session_get (search_url query page) w)) in *.
  assert (Hawait : await (fetch_json (search_url query page)) w
                   = (Returned (body_if_ok r), w1, map Pipeline tf)).
  { unfold await. now rewrite Hfetch. }
  erewrite driver_bind_returned in Hrun by exact Hawait.
  pose proof (one_fetch_writes _ _ _ Hone) as [Hwf _].
  destruct Hone as (Hreq & Hsf & _).
  assert (Hff : fetched tf = [search_url query page])
    by now rewrite <- fetched_requests, Hreq.
  assert (Haf : answers tf = [r]) by now rewrite <- answers_requests, Hreq.
  assert (Hends : forall found,
             match o with
             | Returned found' => found' = repos ++ found /\ found = page_items r
             | Raised e => e = AttributeError \/ e = TypeError
             | OutOfFuel => False
             end ->
             t = map Pipeline tf ->
             exists asked slept,
               asked `prefix_of` (page :: rest)
               /\ fetched (pipeline t) = map (search_url query) asked
               /\ sleeps (pipeline t) = replicate slept 2%Q
               /\ (slept = length asked \/ S slept = length asked)
               /\ writes (pipeline t) = []
               /\ match o with
                  | Returned found' =>
                      found' = repos ++ flat_map page_items (answers (pipeline t))
                  | Raised e => e = AttributeError \/ e = TypeError
                  | OutOfFuel => False
                  end).
  { intros found Ho ->. exists [page], 0%nat.
    rewrite pipeline_map, Hff, Hsf, Hwf, Haf. simpl. rewrite app_nil_r.
    split; [now apply prefix_cons, prefix_nil|].
    repeat split; auto.
    destruct o as [found'|e|]; [|exact Ho|exact Ho].
    now destruct Ho as [-> ->]. }
  unfold bind, await, Coro.lift, Coro.ret, Coro.raise, Coro.sleep, Coro.emit, log, ret
    in Hrun.
  destruct (body_if_ok r) as [|b|n|q|s|arr|fields] eqn:Hbody; simpl in Hrun.
  - injection Hrun as Ho _ Ht. rewrite app_nil_r in Ht. symmetry in Ht. subst o.
    apply (Hends []); [|exact Ht].
    rewrite app_nil_r. split; [reflexivity|].
    unfold page_items. now rewrite Hbody.
  - injection Hrun as Ho _ Ht. rewrite app_nil_r in Ht. symmetry in Ht. subst o.
    apply (Hends []); [left; reflexivity|exact Ht].
  - injection Hrun as Ho _ Ht. rewrite app_nil_r in Ht. symmetry in Ht. subst o.
    apply (Hends []); [left; reflexivity|exact Ht].
  - injection Hrun as Ho _ Ht. rewrite app_nil_r in Ht. symmetry in Ht. subst o.
    apply (Hends []); [left; reflexivity|exact Ht].
  - injection Hrun as Ho _ Ht. rewrite app_nil_r in Ht. symmetry in Ht. subst o.
    apply (Hends []); [left; reflexivity|exact Ht].
  - injection Hrun as Ho _ Ht. rewrite app_nil_r in Ht. symmetry in Ht. subst o.
    apply (Hends []); [left; reflexivity|exact Ht].
  - set (items := default (JArr []) (Py.assoc "items" fields)) in *.
    destruct (Py.truthy items) eqn:Htruthy; simpl in Hrun.
    + destruct (iterate items) as [e|found] eqn:Hiter; simpl in Hrun.
      * injection Hrun as Ho _ Ht. rewrite app_nil_r in Ht. symmetry in Ht. subst o.
        apply (Hends []); [|exact Ht].
        right. now apply iterate_raises_type_error in Hiter.
      * clear Hends.
        destruct (search_pages query rest (repos ++ found) w1)
          as [[o2 w2] t2] eqn:Hrest.
        injection Hrun as <- <- <-.
        destruct (IH _ _ _ _ _ Hrest)
          as (asked & slept & Hpre & Hf2 & Hs2 & Hlen & Hw2 & Ho2).
        exists (page :: asked), (S slept).
        rewrite !pipeline_app, pipeline_map. simpl.
        rewrite fetched_app, sleeps_app, writes_app, answers_app, Hff, Hsf, Hwf, Haf.
        simpl. rewrite Hf2, Hs2, Hw2.
        split; [now apply prefix_cons|].
        split; [reflexivity|]. split; [reflexivity|].
        split; [destruct Hlen; [left|right]; simpl; lia|].
        split; [reflexivity|].
        destruct o2 as [found'|e|]; auto.
        rewrite Ho2, <- app_assoc. do 2 f_equal.
        unfold page_items. rewrite Hbody. simpl. fold items. now rewrite Hiter.
    + injection Hrun as Ho _ Ht. rewrite app_nil_r in Ht. symmetry in Ht. subst o.
      apply (Hends []); [|exact Ht].
      rewrite app_nil_r. split; [reflexivity|].
      unfold page_items. rewrite Hbody. simpl. fold items.
      symmetry. now apply falsy_has_no_elements.
Qed.

Lemma page_elements_raises (r : reply) e :
  page_elements r = inl e -> e = AttributeError \/ e = TypeError.
Proof.
  unfold page_elements, and_then.
  destruct (Py.get (body_if_ok r) "items" (JArr [])) as [e'|items] eqn:Hget.
  - intros [= <-]. left. now apply get_raises_attribute_error in Hget.
  - intros Hiter. right. now apply iterate_raises_type_error in Hiter.
Qed.

(** The loop of the search as a reading of the replies it received. *)
Lemma search_pages_result (query : string) (pages : list Z) :
  forall repos (w w' : W) o t,
    search_pages query pages repos w = (o, w', t) ->
    fetched (pipeline t)
    = map (search_url query) (take (length (answers (pipeline t))) pages)
    /\ match o with
       | Returned found =>
           exists kept stop,
             answers (pipeline t) = kept ++ stop
             /\ Forall (fun r => page_ends r = false) kept
             /\ ((stop = [] /\ length kept = length pages)
                 \/ exists r, stop = [r] /\ page_ends r = true)
             /\ found = repos ++ flat_map page_items kept
       | Raised e =>
           exists kept r,
             answers (pipeline t) = kept ++ [r]
             /\ Forall (fun r => page_ends r = false) kept
             /\ page_ends r = false
             /\ page_elements r = inl e
       | OutOfFuel => False
       end.
Proof.
  induction pages as [|page rest IH]; intros repos w w' o t Hrun.
  { injection Hrun as <- <- <-. simpl. split; [reflexivity|].
    exists [], []. split; [reflexivity|]. split; [constructor|].
    split; [now left|]. now rewrite app_nil_r. }
  simpl in Hrun.
  destruct (fetch_json_one_fetch (search_url query page) w) as (tf & Hfetch & Hone).
  set (r := fst (session_get (search_url query page) w)) in *.
  set (w1 := snd (session_get (search_url query page) w)) in *.
  assert (Hawait : await (fetch_json (search_url query page)) w
                   = (Returned (body_if_ok r), w1, map Pipeline tf)).
  { unfold await. now rewrite Hfetch. }
  erewrite driver_bind_returned in Hrun by exact Hawait.
  destruct Hone as (Hreq & _ & _).
  assert (Hff : fetched tf = [search_url query page])
    by now rewrite <- fetched_requests, Hreq.
  assert (Haf : answers tf = [r]) by now rewrite <- answers_requests, Hreq.
  assert (Hstops : page_ends r = true -> o = Returned repos -> t = map Pipeline tf ->
                   fetched (pipeline t)
                   = map (search_url query)
                       (take (length (answers (pipeline t))) (page :: rest))
                   /\ match o with
                      | Returned found =>
                          exists kept stop,
                            answers (pipeline t) = kept ++ stop
                            /\ Forall (fun r => page_ends r = false) kept
                            /\ ((stop = [] /\ length kept = length (page :: rest))
                                \/ exists r, stop = [r] /\ page_ends r = true)
                            /\ found = repos ++ flat_map page_items kept
                      | Raised e =>
                          exists kept r,
                            answers (pipeline t) = kept ++ [r]
                            /\ Forall (fun r => page_ends r = false) kept
                            /\ page_ends r = false
                            /\ page_elements r = inl e
                      | OutOfFuel => False
                      end).
  { intros Hends -> ->. rewrite pipeline_map, Hff, Haf. simpl.
    split; [reflexivity|]. exists [], [r].
    split; [reflexivity|]. split; [constructor|].
    split; [right; now exists r|]. simpl. now rewrite app_nil_r. }
  assert (Hraises : forall e,
             page_ends r = false -> page_elements r = inl e ->
             o = Raised e -> t = map Pipeline tf ->
             fetched (pipeline t)
             = map (search_url query)
                 (take (length (answers (pipeline t))) (page :: rest))
             /\ match o with
                | Returned found =>
                    exists kept stop,
                      answers (pipeline t) = kept ++ stop
                      /\ Forall (fun r => page_ends r = false) kept
                      /\ ((stop = [] /\ length kept = length (page :: rest))
                          \/ exists r, stop = [r] /\ page_ends r = true)
                      /\ found = repos ++ flat_map page_items kept
                | Raised e =>
                    exists kept r,
                      answers (pipeline t) = kept ++ [r]
                      /\ Forall (fun r => page_ends r = false) kept
                      /\ page_ends r = false
                      /\ page_elements r = inl e
                | OutOfFuel => False
                end).
  { intros e Hends Hel -> ->. rewrite pipeline_map, Hff, Haf. simpl.
    split; [reflexivity|]. exists [], r.
    split; [reflexivity|]. split; [constructor|]. now split. }
  unfold bind, await, Coro.lift, Coro.ret, Coro.raise, Coro.sleep, Coro.emit, log, ret
    in Hrun.
  unfold page_ends, page_elements, and_then in Hstops, Hraises.
  destruct (body_if_ok r) as [|b|n|q|s|arr|fields] eqn:Hbody; simpl in Hrun.
  - injection Hrun as Ho _ Ht. rewrite app_nil_r in Ht.
    now apply Hstops.
  - injection Hrun as Ho _ Ht. rewrite app_nil_r in Ht.
    now apply (Hraises AttributeError).
  - injection Hrun as Ho _ Ht. rewrite app_nil_r in Ht.
    now apply (Hraises AttributeError).
  - injection Hrun as Ho _ Ht. rewrite app_nil_r in Ht.
    now apply (Hraises AttributeError).
  - injection Hrun as Ho _ Ht. rewrite app_nil_r in Ht.
    now apply (Hraises AttributeError).
  - injection Hrun as Ho _ Ht. rewrite app_nil_r in Ht.
    now apply (Hraises AttributeError).
  - simpl in Hstops, Hraises.
    set (items := default (JArr []) (Py.assoc "items" fields)) in *.
    destruct (Py.truthy items) eqn:Htruthy; simpl in Hrun, Hstops, Hraises.
    + destruct (iterate items) as [e|found] eqn:Hiter; simpl in Hrun.
      * injection Hrun as Ho _ Ht. rewrite app_nil_r in Ht.
        now apply (Hraises e).
      * clear Hstops Hraises.
        destruct (search_pages query rest (repos ++ found) w1)
          as [[o2 w2] t2] eqn:Hrest.
        injection Hrun as <- <- <-.
        destruct (IH _ _ _ _ _ Hrest) as (Hf2 & Ho2).
        assert (Hr : page_ends r = false).
        { unfold page_ends. rewrite Hbody. simpl. fold items. now rewrite Htruthy. }
        assert (Hitems : page_items r = found).
        { unfold page_items. rewrite Hbody. simpl. fold items. now rewrite Hiter. }
        rewrite !pipeline_app, pipeline_map. simpl.
        rewrite fetched_app, answers_app, Hff, Haf. simpl. rewrite Hf2.
        split; [reflexivity|].
        destruct o2 as [found'|e|]; [| |exact Ho2].
        -- destruct Ho2 as (kept & stop & Ha & Hkept & Hstop & ->).
           exists (r :: kept), stop. rewrite Ha. simpl.
           split; [reflexivity|]. split; [now constructor|].
           split; [destruct Hstop as [[-> Hlen]|Hstop]; [left|right]; auto|].
           now rewrite Hitems, <- app_assoc.
        -- destruct Ho2 as (kept & r' & Ha & Hkept & Hr' & He).
           exists (r :: kept), r'. rewrite Ha. simpl.
           split; [reflexivity|]. split; [now constructor|]. auto.
    + injection Hrun as Ho _ Ht. rewrite app_nil_r in Ht.
      now apply Hstops.
Qed.

End SearchFacts.

Section SearchTheorems.
Context {W : Type} `{!ClientSession W}.
Import Driver.

(** X15: the search asks for the pages 1, 2, ... in order and without a
    gap, never for more than [max_pages] of them, and sleeps 2 seconds
    after every page it keeps: after all the pages it asked for, or after
    all but the last, the one that stopped it.  It writes nothing. *)
Theorem search_pages_in_order (query : string) (max_pages : Z) (w w' : W) o t :
  search_verilog_repos query max_pages w = (o, w', t) ->
  exists asked slept,
    asked `prefix_of` range 1 (max_pages + 1)
    /\ (length asked <= Z.to_nat max_pages)%nat
    /\ fetched (pipeline t) = map (search_url query) asked
    /\ sleeps (pipeline t) = replicate slept 2%Q
    /\ (slept = length asked \/ S slept = length asked)
    /\ writes (pipeline t) = [].
Proof.
  intros Hrun.
  destruct (search_pages_summary query _ _ _ _ _ _ Hrun)
    as (asked & slept & Hpre & Hf & Hs & Hlen & Hw & _).
  exists asked, slept. repeat split; auto.
  apply prefix_length in Hpre. unfold range in Hpre.
  rewrite length_seqZ in Hpre. lia.
Qed.

(** X16: the search reads the replies page by page, the k-th reply
    being that of page k.  It keeps every page whose ["items"] are not
    empty, and ends at the first page that did not come back or has no
    items, or after [max_pages] pages when there is none; what it
    returns is the elements of the pages it kept, page after page, and
    nothing else.  An exception leaves it only at a page that came back
    and is no dict ([AttributeError]) or whose items cannot be iterated
    ([TypeError]), the pages before having been kept. *)
Theorem search_result (query : string) (max_pages : Z) (w w' : W) o t :
  search_verilog_repos query max_pages w = (o, w', t) ->
  fetched (pipeline t)
  = map (search_url query)
      (take (length (answers (pipeline t))) (range 1 (max_pages + 1)))
  /\ match o with
     | Returned found =>
         exists kept stop,
           answers (pipeline t) = kept ++ stop
           /\ Forall (fun r => page_ends r = false) kept
           /\ ((stop = [] /\ length kept = Z.to_nat max_pages)
               \/ exists r, stop = [r] /\ page_ends r = true)
           /\ found = flat_map page_items kept
     | Raised e =>
         exists kept r,
           answers (pipeline t) = kept ++ [r]
           /\ Forall (fun r => page_ends r = false) kept
           /\ page_ends r = false
           /\ page_elements r = inl e
           /\ (e = AttributeError \/ e = TypeError)
     | OutOfFuel => False
     end.
Proof.
  intros Hrun.
  destruct (search_pages_result query _ _ _ _ _ _ Hrun) as (Hfetched & Ho).
  split; [exact Hfetched|].
  destruct o as [found|e|]; [| |exact Ho].
  - destruct Ho as (kept & stop & Ha & Hkept & Hstop & Hfound).
    exists kept, stop. split; [exact Ha|]. split; [exact Hkept|].
    split; [|exact Hfound].
    destruct Hstop as [[-> Hlen]|Hstop]; [left|now right].
    split; [reflexivity|].
    rewrite Hlen. unfold range. rewrite length_seqZ. f_equal. lia.
  - destruct Ho as (kept & r & Ha & Hkept & Hr & He).
    exists kept, r. repeat (split; [assumption|]).
    now apply page_elements_raises in He.
Qed.

(** Processing the repositories one after the other: every one is
    announced once, in order. *)
Lemma process_all_announces (fuel : nat) (repositories : list json) :
  forall (w w' : W) t,
    process_all fuel repositories w = (Returned tt, w', t) ->
    exists names,
      Forall2 (fun repo name => Py.getitem repo "full_name" = inr (JStr name))
        repositories names
      /\ driver_log t = map (fun name => ProcessingRepository (JStr name)) names.
Proof.
  induction repositories as [|repo rest IH]; intros w w' t Hrun.
  { injection Hrun as <- <-. exists []. split; constructor. }
  simpl in Hrun.
  unfold bind at 1, await at 1, Coro.lift in Hrun.
  destruct (Py.getitem repo "full_name") as [e|name] eqn:Hname;
    [discriminate|].
  unfold Coro.ret at 1 in Hrun. simpl map in Hrun.
  unfold bind at 1, log at 1 in Hrun.
  unfold bind at 1, await at 1, Coro.ret at 1 in Hrun. simpl map in Hrun.
  unfold bind at 1, await at 1, Coro.lift in Hrun.
  destruct (as_str name) as [e|repo_full_name] eqn:Hstr; [discriminate|].
  unfold Coro.ret at 1 in Hrun. simpl map in Hrun.
  unfold bind at 1, await at 1 in Hrun.
  destruct (process_repo fuel repo_full_name w) as [[[[]|e|] w1] t1];
    try discriminate.
  unfold bind at 1, await at 1, Coro.sleep, Coro.emit in Hrun. simpl map in Hrun.
  destruct (process_all fuel rest w1) as [[o2 w2] t2] eqn:Hrest.
  injection Hrun as -> <- <-.
  destruct (IH _ _ _ Hrest) as (names & Hall & Hlog).
  destruct name; try discriminate. injection Hstr as ->.
  exists (repo_full_name :: names). split; [now constructor|].
  simpl. rewrite driver_log_app, driver_log_map. simpl. now rewrite Hlog.
Qed.

End SearchTheorems.

Lemma search_eta :
  search_three = (fst (fst search_three), snd (fst search_three), snd search_three).
Proof. now destruct search_three as [[o w'] t]. Qed.

Lemma search_pages_in_order_witness :
  exists asked slept,
    asked `prefix_of` range 1 (MAX_PAGES + 1)
    /\ (length asked <= Z.to_nat MAX_PAGES)%nat
    /\ fetched (pipeline (snd search_three))
       = map (search_url "language:Verilog") asked
    /\ sleeps (pipeline (snd search_three)) = replicate slept 2%Q
    /\ (slept = length asked \/ S slept = length asked)
    /\ writes (pipeline (snd search_three)) = [].
Proof.
  apply (search_pages_in_order "language:Verilog" MAX_PAGES three_repositories
           _ _ _ search_eta).
Defined.

Lemma search_result_witness :
  fetched (pipeline (snd search_three))
  = map (search_url "language:Verilog")
      (take (length (answers (pipeline (snd search_three)))) (range 1 (MAX_PAGES + 1)))
  /\ match fst (fst search_three) with
     | Returned found =>
         exists kept stop,
           answers (pipeline (snd search_three)) = kept ++ stop
           /\ Forall (fun r => page_ends r = false) kept
           /\ ((stop = [] /\ length kept = Z.to_nat MAX_PAGES)
               \/ exists r, stop = [r] /\ page_ends r = true)
           /\ found = flat_map page_items kept
     | Raised e =>
         exists kept r,
           answers (pipeline (snd search_three)) = kept ++ [r]
           /\ Forall (fun r => page_ends r = false) kept
           /\ page_ends r = false
           /\ page_elements r = inl e
           /\ (e = AttributeError \/ e = TypeError)
     | OutOfFuel => False
     end.
Proof.
  apply (search_result "language:Verilog" MAX_PAGES three_repositories
           _ _ _ search_eta).
Defined.

Example search_three_found :
  fst (fst search_three)
  = Returned [repo_item "alice/cpu"; repo_item "bob/uart"; repo_item "carol/fpu"]
  /\ fetched (pipeline (snd search_three))
     = map (search_url "language:Verilog") [1; 2; 3].
Proof. vm_compute. split; reflexivity. Qed.

Example search_url_first_page :
  search_url "language:Verilog" 1
  = "https://api.github.com/search/repositories?q=language:Verilog&per_page=30&page=1".
Proof. reflexivity. Qed.

Example main_one_log :
  driver_log (snd main_one)
  = [SearchingRepositories; PageFound 1 1; TotalRepositories 1;
     ProcessingRepository (JStr "alice/cpu"); FinishedUploading].
Proof. vm_compute. reflexivity. Qed.

(** ** Success is logged, and only success *)

Section SuccessLine.
Context {W : Type} `{!ClientSession W}.
Import Coro.

Variables (target upload_url get_url : string) (max_retries : Z).

Let loop := upload_loop target upload_url get_url max_retries.

(** One pass of the loop, by what became of its write. *)
Lemma pass_outcome attempt rest payload delay (w w' : W) o t :
  loop (attempt :: rest) payload delay w = (o, w', t) ->
  let r := fst (session_put upload_url payload w) in
  (is_success r = true /\ writes t = [r] /\ logged_uploaded t = true)
  \/ (is_success r = false /\ writes t = [r] /\ logged_uploaded t = false)
  \/ (is_success r = false
      /\ exists x t2 payload' delay' w2,
           t = x ++ t2 /\ writes x = [r] /\ logged_uploaded x = false
           /\ loop rest payload' delay' w2 = (o, w', t2)).
Proof.
  intros Hrun r. subst r.
  destruct (session_put upload_url payload w) as [r w1] eqn:Hput. simpl.
  destruct (write_reply_cases r) as [Hk|[Hk|[Hk|[e Hk]]]].
  - left. unfold loop in Hrun. erewrite loop_success in Hrun by eassumption.
    injection Hrun as <- <- <-. auto.
  - assert (Hs : is_success r = false).
    { apply is_conflict_inv in Hk as (resp & text & -> & Hs & _).
      simpl. now rewrite Hs. }
    right. right. split; [exact Hs|].
    destruct (Z.lt_ge_cases attempt max_retries) as [Hlt|Hge].
    + destruct (loop_conflict_retry target upload_url get_url max_retries attempt
                  rest payload delay w w1 r Hput Hk Hlt) as (text & t1 & Hstep & Hone).
      fold loop in Hstep. rewrite Hrun in Hstep.
      destruct (loop rest _ _ _) as [[o2 w3] t2] eqn:Hrest.
      injection Hstep as -> -> ->.
      pose proof (one_fetch_writes _ _ _ Hone) as [Hw1 _].
      destruct Hone as (_ & _ & Hup).
      eexists (_ :: _ :: t1 ++ [_]), t2, _, _, _.
      split; [reflexivity|]. split; [|split; [|exact Hrest]].
      * simpl. now rewrite writes_app, Hw1.
      * simpl. now rewrite logged_uploaded_app, Hup.
    + apply is_conflict_inv in Hk as (resp & text & -> & Hst & Htx).
      unfold loop in Hrun. simpl in Hrun.
      erewrite bind_returned in Hrun by (eapply attempt_conflict_last; eauto).
      simpl in Hrun. fold loop in Hrun.
      destruct (loop rest payload delay w1) as [[o2 w3] t2] eqn:Hrest.
      injection Hrun as <- <- <-.
      eexists [_; _], t2, _, _, _. repeat split. exact Hrest.
  - right. left.
    pose proof (kinds_exclusive r Hk) as (Hs & _).
    destruct (is_hard_failure_inv r Hk) as (resp & text & -> & Ht).
    unfold loop in Hrun. erewrite loop_hard_failure in Hrun by eassumption.
    injection Hrun as <- <- <-. auto.
  - assert (Hs : is_success r = false).
    { destruct r as [?|resp]; [reflexivity|]. simpl in *.
      now destruct ((resp_status resp =? 200) || (resp_status resp =? 201)). }
    destruct (Z.lt_ge_cases attempt max_retries) as [Hlt|Hge].
    + right. right. split; [exact Hs|].
      unfold loop in Hrun. erewrite loop_exception_retry in Hrun by eassumption.
      fold loop in Hrun.
      destruct (loop rest payload (delay * 2) w1) as [[o2 w3] t2] eqn:Hrest.
      injection Hrun as <- <- <-.
      eexists [_; _; _], t2, _, _, _. repeat split. exact Hrest.
    + right. left. unfold loop in Hrun.
      erewrite loop_exception_last in Hrun by eassumption.
      injection Hrun as <- <- <-. auto.
Qed.

(** In a run of the loop the success line is logged exactly when the
    last write was answered 200 or 201. *)
Lemma loop_success_logged attempts :
  forall payload delay (w w' : W) o t,
    loop attempts payload delay w = (o, w', t) ->
    logged_uploaded t = true
    <-> exists ws r, writes t = ws ++ [r] /\ is_success r = true.
Proof.
  induction attempts as [|attempt rest IH]; intros payload delay w w' o t Hrun.
  { injection Hrun as <- <- <-. split; [discriminate|].
    intros (ws & r & Hw & _). now destruct ws. }
  destruct (pass_outcome _ _ _ _ _ _ _ _ Hrun)
    as [(Hs & Hw & Hup)
       |[(Hs & Hw & Hup)
        |(Hs & x & t2 & p' & d' & w2 & -> & Hwx & Hux & Hrest)]].
  - rewrite Hup, Hw. split; [|reflexivity]. intros _.
    exists [], (fst (session_put upload_url payload w)). auto.
  - rewrite Hup, Hw. split; [discriminate|].
    intros (ws & r & Heq & Hr).
    destruct ws as [|x [|y ws]]; simpl in Heq; try discriminate.
    injection Heq as <-. congruence.
  - rewrite logged_uploaded_app, Hux, writes_app, Hwx. simpl.
    rewrite (IH _ _ _ _ _ _ Hrest). split.
    + intros (ws & r & Hw & Hr). exists (fst (session_put upload_url payload w) :: ws), r.
      now rewrite Hw.
    + intros (ws & r & Hw & Hr). destruct ws as [|y ws]; simpl in Hw.
      * injection Hw as <- Hw2. congruence.
      * injection Hw as _ Hw. eauto.
Qed.

End SuccessLine.

Section SuccessTask.
Context {W : Type} `{!ClientSession W}.

(** X18: the line that reports an upload is logged exactly when the last
    write of the task was answered 200 or 201: every success is
    reported, a success ends the task, and no task that ends on a
    conflict, on another failure status or on an exception reports
    one. *)
Theorem success_line_iff_last_write_succeeded
    (download_url repo_full_name file_path file_name : string) (w w' : W) o t :
  upload_verilog_file_to_target download_url repo_full_name file_path file_name w
  = (o, w', t) ->
  logged_uploaded t = true
  <-> exists ws r, writes t = ws ++ [r] /\ is_success r = true.
Proof.
  intros Hrun.
  destruct (task_cases _ _ _ _ _ _ _ _ Hrun)
    as [(_ & Hreq & _ & Hup)
       |[(g0 & _ & Hreq & _ & Hup)
        |(resp0 & content & g0 & t0 & tl & w2 & _ & _ & _ & -> & Hreq & _ & Hup
          & Hloop)]].
  - rewrite Hup, <- writes_requests, Hreq. split; [discriminate|].
    intros (ws & r & Hw & _). now destruct ws.
  - rewrite Hup, <- writes_requests, Hreq. split; [discriminate|].
    intros (ws & r & Hw & _). now destruct ws.
  - assert (Hw0 : writes t0 = []) by now rewrite <- writes_requests, Hreq.
    rewrite logged_uploaded_app, Hup, writes_app, Hw0. simpl.
    eapply loop_success_logged. exact Hloop.
Qed.

End SuccessTask.

Lemma success_line_iff_last_write_succeeded_witness :
  logged_uploaded (snd (upload_alu recovering)) = true
  <-> exists ws r,
        writes (snd (upload_alu recovering)) = ws ++ [r] /\ is_success r = true.
Proof.
  apply (success_line_iff_last_write_succeeded "https://raw/alu.v" "alice/cpu"
           "rtl/alu.v" "alu.v" recovering _ _ _ (run_eta recovering)).
Defined.

(** ** One repository after the other *)

Section ProcessAll.
Context {W : Type} `{!ClientSession W}.
Import Driver.

(** One repository of the loop of [main], when its name is a string. *)
Lemma process_all_step (fuel : nat) repo rest name (w : W) :
  Py.getitem repo "full_name" = inr (JStr name) ->
  process_all fuel (repo :: rest) w
  = (let '(o, w1, t1) := process_repo fuel name w in
     match o with
     | Returned _ =>
         let '(o2, w2, t2) := process_all fuel rest w1 in
         (o2, w2,
          DriverLog Info (ProcessingRepository (JStr name))
          :: map Pipeline t1 ++ Pipeline (EvSleep 2) :: t2)
     | Raised e =>
         (Raised e, w1,
          DriverLog Info (ProcessingRepository (JStr name)) :: map Pipeline t1)
     | OutOfFuel =>
         (OutOfFuel, w1,
          DriverLog Info (ProcessingRepository (JStr name)) :: map Pipeline t1)
     end).
Proof.
  intros Hname. simpl.
  unfold bind, await, log, Coro.lift, Coro.ret, Coro.sleep, Coro.emit.
  rewrite Hname. simpl.
  destruct (process_repo fuel name w) as [[[[]|e|] w1] t1]; simpl; try reflexivity.
  destruct (process_all fuel rest w1) as [[o2 w2] t2]. reflexivity.
Qed.

(** X19: [main] has nothing that catches an exception of a repository:
    when processing one raises, the loop raises with it at once, and the
    repositories after it are not announced, fetched or walked. *)
Theorem processing_stops_at_first_exception (fuel : nat) (before after : list json)
    (repo : json) (name : string) (e : exn) (w w1 w2 : W) t1 t2 :
  process_all fuel before w = (Returned tt, w1, t1) ->
  Py.getitem repo "full_name" = inr (JStr name) ->
  process_repo fuel name w1 = (Raised e, w2, t2) ->
  process_all fuel (before ++ repo :: after) w
  = (Raised e, w2,
     t1 ++ DriverLog Info (ProcessingRepository (JStr name)) :: map Pipeline t2).
Proof.
  intros Hbefore Hname Hrepo.
  destruct (process_all_announces fuel before _ _ _ Hbefore) as (names & Hnames & _).
  revert w t1 Hbefore.
  induction Hnames as [|first first_name before names Hfirst _ IH];
    intros w t1 Hbefore.
  - injection Hbefore as <- <-. simpl app.
    rewrite (process_all_step fuel repo after name w Hname), Hrepo. reflexivity.
  - simpl app.
    rewrite (process_all_step fuel first before first_name w Hfirst) in Hbefore.
    rewrite (process_all_step fuel first _ first_name w Hfirst).
    destruct (process_repo fuel first_name w) as [[[[]|e'|] wa] ta];
      try discriminate.
    destruct (process_all fuel before wa) as [[ob wb] tb] eqn:Hb.
    injection Hbefore as -> -> <-.
    rewrite (IH wa tb Hb). simpl. now rewrite <- app_assoc.
Qed.

End ProcessAll.

(** ** The driver *)

Section MainTheorems.
Context {W : Type} `{!ClientSession W}.
Import Driver.

(** The loop of [main] over repositories whose names are strings and
    whose processing returns: one turn after the other. *)
Lemma process_all_returns (fuel : nat) (repositories : list json) (names : list string) :
  Forall2 (fun repo name => Py.getitem repo "full_name" = inr (JStr name))
    repositories names ->
  forall runs (w w' : W),
    processed fuel w names runs w' ->
    process_all fuel repositories w
    = (Returned tt, w', concat (zip_with repository_run names runs)).
Proof.
  induction 1 as [|repo name rest names Hname _ IH]; intros runs w w' Hruns.
  { inversion Hruns; subst. reflexivity. }
  inversion Hruns as [|? w1 ? ? run ? runs' Hrepo Hrest]; subst.
  rewrite (process_all_step fuel repo rest name w Hname), Hrepo.
  rewrite (IH runs' w1 w' Hrest).
  simpl. unfold repository_run. simpl. now rewrite <- app_assoc.
Qed.

(** X17: [main] runs every repository the search returned, once each
    and in the order found.  When the names of the repositories found
    are strings and processing each of them returns, from the state the
    one before left, [main] returns, and its trace is: the line that
    opens the search, the search, the line with the number of
    repositories found, then for every repository its announcement,
    what processing it did and the pause of 2 seconds, and last the
    closing line. *)
Theorem main_processes_every_repository (fuel : nat) (w w1 w' : W) ts
    (found : list json) (names : list string) (runs : list (list event)) :
  search_verilog_repos "language:Verilog" MAX_PAGES w = (Returned found, w1, ts) ->
  Forall2 (fun repo name => Py.getitem repo "full_name" = inr (JStr name))
    found names ->
  processed fuel w1 names runs w' ->
  main fuel w
  = (Returned tt, w',
     DriverLog Info SearchingRepositories
     :: ts
     ++ DriverLog Info (TotalRepositories (Z.of_nat (length found)))
     :: concat (zip_with repository_run names runs)
     ++ [DriverLog Info FinishedUploading]).
Proof.
  intros Hsearch Hnames Hruns. unfold main.
  unfold bind at 1, log at 1.
  unfold bind at 1. rewrite Hsearch.
  unfold bind at 1, log at 1.
  unfold bind at 1.
  rewrite (process_all_returns fuel found names Hnames runs w1 w' Hruns).
  unfold log. reflexivity.
Qed.

End MainTheorems.

Lemma main_processes_every_repository_witness :
  exists w' t,
    main_one = (Returned tt, w', t)
    /\ driver_log t
       = [SearchingRepositories; PageFound 1 1; TotalRepositories 1;
          ProcessingRepository (JStr "alice/cpu"); FinishedUploading]
    /\ sleeps (pipeline t) = [2%Q; (1 # 2)%Q; 2%Q].
Proof.
  eexists _, _. split.
  - eapply (main_processes_every_repository 1 one_repository _ _ _
              [repo_item "alice/cpu"] ["alice/cpu"]).
    + vm_compute. reflexivity.
    + repeat constructor.
    + eapply processed_next; [vm_compute; reflexivity|apply processed_none].
  - split; vm_compute; reflexivity.
Defined.

Lemma processing_stops_at_first_exception_witness :
  exists w2 t,
    process_all 1 [repo_item "alice/cpu"; repo_item "bob/uart"; repo_item "carol/fpu"]
      crawl_with_broken_repository
    = (Raised (KeyError "type"), w2, t)
    /\ length (get_replies w2) = 2%nat.
Proof.
  eexists _, _. split.
  - eapply (processing_stops_at_first_exception 1 [repo_item "alice/cpu"]
              [repo_item "carol/fpu"] (repo_item "bob/uart") "bob/uart").
    + vm_compute. reflexivity.
    + reflexivity.
    + vm_compute. reflexivity.
  - reflexivity.
Defined.

(** ** The content of the payload *)

Section Base64Facts.

Lemma below_64 (P : N -> bool) :
  forallb P (map N.of_nat (seq 0 64)) = true ->
  forall n, (n < 64)%N -> P n = true.
Proof.
  intros Hall n Hn. rewrite forallb_forall in Hall. apply Hall.
  apply in_map_iff. exists (N.to_nat n). split; [apply N2Nat.id|].
  apply in_seq. lia.
Qed.

Lemma alphabet_index (n : N) :
  (n < 64)%N ->
  b64_index (Base64.alphabet n) = n /\ Base64.alphabet n <> "="%char.
Proof.
  intros Hn.
  pose proof (below_64
                (fun n => (b64_index (Base64.alphabet n) =? n)%N
                          && negb (Ascii.eqb (Base64.alphabet n) "="))
                ltac:(vm_compute; reflexivity) n Hn) as H.
  apply andb_prop in H as [Hi He]. split.
  - now apply N.eqb_eq.
  - apply negb_true_iff in He. now apply Ascii.eqb_neq.
Qed.

Lemma byte_of_to_N (b : Byte.byte) : byte_of (Byte.to_N b) = b.
Proof. unfold byte_of. now rewrite Byte.of_to_N. Qed.

Lemma to_N_below (b : Byte.byte) : (Byte.to_N b < 256)%N.
Proof. pose proof (Byte.to_N_bounded b). lia. Qed.

(** The four indices of a block of three bytes give the bytes back. *)
Lemma block_arithmetic (x y z : N) :
  (x < 256 -> y < 256 -> z < 256 ->
   let i1 := x / 4 in
   let i2 := (x mod 4) * 16 + y / 16 in
   let i3 := (y mod 16) * 4 + z / 64 in
   let i4 := z mod 64 in
   i1 < 64 /\ i2 < 64 /\ i3 < 64 /\ i4 < 64
   /\ i1 * 4 + i2 / 16 = x
   /\ (i2 mod 16) * 16 + i3 / 4 = y
   /\ (i3 mod 4) * 64 + i4 = z)%N.
Proof.
  intros Hx Hy Hz.
  pose proof (N.div_mod x 4 ltac:(lia)) as Ex.
  pose proof (N.div_mod y 16 ltac:(lia)) as Ey.
  pose proof (N.div_mod z 64 ltac:(lia)) as Ez.
  pose proof (N.mod_lt x 4 ltac:(lia)) as Bx.
  pose proof (N.mod_lt y 16 ltac:(lia)) as By.
  pose proof (N.mod_lt z 64 ltac:(lia)) as Bz.
  assert (Hy16 : (y / 16 < 16)%N) by (apply N.Div0.div_lt_upper_bound; lia).
  assert (Hz64 : (z / 64 < 4)%N) by (apply N.Div0.div_lt_upper_bound; lia).
  assert (Hx4 : (x / 4 < 64)%N) by (apply N.Div0.div_lt_upper_bound; lia).
  cbv zeta.
  assert (H2d : ((x mod 4 * 16 + y / 16) / 16 = x mod 4)%N).
  { symmetry. apply (N.div_unique _ 16 _ (y / 16)); lia. }
  assert (H2m : ((x mod 4 * 16 + y / 16) mod 16 = y / 16)%N).
  { symmetry. apply (N.mod_unique _ 16 (x mod 4)); lia. }
  assert (H3d : ((y mod 16 * 4 + z / 64) / 4 = y mod 16)%N).
  { symmetry. apply (N.div_unique _ 4 _ (z / 64)); lia. }
  assert (H3m : ((y mod 16 * 4 + z / 64) mod 4 = z / 64)%N).
  { symmetry. apply (N.mod_unique _ 4 (y mod 16)); lia. }
  rewrite H2d, H2m, H3d, H3m. repeat split; lia.
Qed.

Lemma decode_encode_bounded (n : nat) :
  forall content, (length content <= n)%nat ->
  b64decode (Base64.b64encode content) = content.
Proof.
  induction n as [|n IH]; intros content Hlen.
  { destruct content; [reflexivity|simpl in Hlen; lia]. }
  destruct content as [|a [|b [|c rest]]]; [reflexivity| | |].
  - pose proof (block_arithmetic (Byte.to_N a) 0 0 (to_N_below a)
                  ltac:(lia) ltac:(lia)) as (H1 & H2 & _ & _ & Ea & _).
    cbv zeta in *. rewrite N.add_0_r in H2, Ea.
    destruct (alphabet_index _ H1) as [I1 _], (alphabet_index _ H2) as [I2 _].
    cbn [Base64.b64encode b64decode]. rewrite I1, I2.
    change (Ascii.eqb "=" "=") with true. cbv iota.
    now rewrite Ea, byte_of_to_N.
  - pose proof (block_arithmetic (Byte.to_N a) (Byte.to_N b) 0 (to_N_below a)
                  (to_N_below b) ltac:(lia)) as (H1 & H2 & H3 & _ & Ea & Eb & _).
    cbv zeta in *. rewrite N.add_0_r in H3, Eb.
    destruct (alphabet_index _ H1) as [I1 _], (alphabet_index _ H2) as [I2 _],
             (alphabet_index _ H3) as [I3 N3].
    cbn [Base64.b64encode b64decode]. rewrite I1, I2, I3.
    rewrite (proj2 (Ascii.eqb_neq _ _) N3).
    change (Ascii.eqb "=" "=") with true. cbv iota.
    now rewrite Ea, Eb, !byte_of_to_N.
  - pose proof (block_arithmetic (Byte.to_N a) (Byte.to_N b) (Byte.to_N c)
                  (to_N_below a) (to_N_below b) (to_N_below c))
      as (H1 & H2 & H3 & H4 & Ea & Eb & Ec).
    cbv zeta in *.
    destruct (alphabet_index _ H1) as [I1 _], (alphabet_index _ H2) as [I2 _],
             (alphabet_index _ H3) as [I3 N3], (alphabet_index _ H4) as [I4 N4].
    cbn [Base64.b64encode b64decode]. rewrite I1, I2, I3, I4.
    rewrite (proj2 (Ascii.eqb_neq _ _) N3), (proj2 (Ascii.eqb_neq _ _) N4).
    rewrite Ea, Eb, Ec, !byte_of_to_N.
    rewrite IH; [reflexivity|]. simpl in Hlen. lia.
Qed.

End Base64Facts.

Lemma b64decode_b64encode (content : list Byte.byte) :
  b64decode (Base64.b64encode content) = content.
Proof. apply (decode_encode_bounded (length content)). lia. Qed.

(** X20: the content field of the payload determines the bytes that
    were downloaded: the payloads first built for two files with
    different bytes differ, whatever their destinations, because what
    [b64encode] writes can be read back. *)
Theorem payload_content_determines_file
    (target1 target2 : string) (content1 content2 : list Byte.byte) :
  content1 <> content2 ->
  initial_payload target1 (Base64.b64encode content1)
  <> initial_payload target2 (Base64.b64encode content2).
Proof.
  intros Hdiff Hsame. apply Hdiff.
  assert (Hfield : forall target text,
             initial_payload target text !! "content" = Some (JStr text)).
  { intros target text. unfold initial_payload.
    rewrite lookup_insert_ne by discriminate.
    now rewrite lookup_insert_eq. }
  pose proof (Hfield target1 (Base64.b64encode content1)) as H1.
  rewrite Hsame, Hfield in H1.
  injection H1 as Htext.
  rewrite <- (b64decode_b64encode content1), <- (b64decode_b64encode content2).
  now rewrite Htext.
Qed.

Lemma payload_content_determines_file_witness :
  initial_payload "verilog_data/alice_cpu/alu.v" (Base64.b64encode verilog)
  <> initial_payload "verilog_data/alice_cpu/alu.v" (Base64.b64encode [Byte.x6d]).
Proof.
  apply (payload_content_determines_file _ _ verilog [Byte.x6d]). discriminate.
Defined.
